(** * filter-html-attrs: removing attributes from serialized HTML

    A shallow embedding of [lib/core/utils/filter-html-attrs.js].

    JavaScript strings are sequences of UTF-16 code units; the embedding
    keeps the code units below 256 (Latin-1), one [ascii] each.  Values
    that the source inspects dynamically ([typeof], truthiness, property
    reads) are kept in a small universe [JSValue]; an uncaught
    [TypeError] is an outcome of its own. *)

From Stdlib Require Import String Ascii List Bool Arith ZArith Lia.
From Stdlib Require Import DecimalString.
Import ListNotations.

Local Open Scope list_scope.
Local Open Scope string_scope.

Set Implicit Arguments.

(** ** Characters *)

Module Chars.

(** The double quote, written by its code. *)
Definition dquote : ascii := "034"%char.
Definition squote : ascii := "'"%char.

Definition code (c : ascii) : nat := nat_of_ascii c.

Definition between (lo hi : nat) (c : ascii) : bool :=
  Nat.leb lo (code c) && Nat.leb (code c) hi.

(** [\s] of a regular expression and the characters [trim] strips:
    TAB, LF, VT, FF, CR, SPACE and NBSP are the ones below 256. *)
Definition isWhiteSpace (c : ascii) : bool :=
  between 9 13 c || Nat.eqb (code c) 32 || Nat.eqb (code c) 160.

(** [\w]: the characters [\b] and [\B] look at. *)
Definition isWordChar (c : ascii) : bool :=
  between 97 122 c || between 65 90 c || between 48 57 c || Nat.eqb (code c) 95.

(** One code unit of [String.prototype.toLowerCase]: A-Z, and the
    Latin-1 capitals U+00C0-U+00DE without the multiplication sign. *)
Definition toLowerChar (c : ascii) : ascii :=
  if between 65 90 c
     || (between 192 222 c && negb (Nat.eqb (code c) 215))
  then ascii_of_nat (code c + 32)
  else c.

End Chars.

(** ** Strings *)

Module Str.

Import Chars.

Definition empty : string := EmptyString.

Definition single (c : ascii) : string := String c EmptyString.

(** ["..."] with the quotes. *)
Definition quoted (s : string) : string :=
  String dquote (s ++ single dquote).

Fixpoint toLowerCase (s : string) : string :=
  match s with
  | EmptyString => EmptyString
  | String c s' => String (toLowerChar c) (toLowerCase s')
  end.

(** [s.substring(0, n)] *)
Fixpoint take (n : nat) (s : string) : string :=
  match n, s with
  | S n', String c s' => String c (take n' s')
  | _, _ => EmptyString
  end.

(** [s.substring(n)] *)
Fixpoint drop (n : nat) (s : string) : string :=
  match n, s with
  | S n', String _ s' => drop n' s'
  | _, _ => s
  end.

(** [s.indexOf(c)] for a one-character needle; [None] is [-1]. *)
Fixpoint indexOfChar (c : ascii) (s : string) : option nat :=
  match s with
  | EmptyString => None
  | String d s' =>
      if Ascii.eqb d c then Some 0
      else match indexOfChar c s' with
           | Some i => Some (S i)
           | None => None
           end
  end.

Fixpoint trimStart (s : string) : string :=
  match s with
  | String c s' => if isWhiteSpace c then trimStart s' else s
  | EmptyString => EmptyString
  end.

Fixpoint trimEnd (s : string) : string :=
  match s with
  | EmptyString => EmptyString
  | String c s' =>
      match trimEnd s' with
      | EmptyString => if isWhiteSpace c then EmptyString else single c
      | t => String c t
      end
  end.

Definition trim (s : string) : string := trimEnd (trimStart s).

(** [parts.join(sep)] *)
Fixpoint join (sep : string) (parts : list string) : string :=
  match parts with
  | [] => EmptyString
  | [p] => p
  | p :: rest => p ++ sep ++ join sep rest
  end.

(** [Some rest] when [s = p ++ rest]. *)
Fixpoint stripPrefix (p s : string) : option string :=
  match p, s with
  | EmptyString, _ => Some s
  | String a p', String b s' =>
      if Ascii.eqb a b then stripPrefix p' s' else None
  | String _ _, EmptyString => None
  end.

(** The first occurrence of [pat] in [s], as the text before it and
    the text after it ([s.indexOf(pat)] and the two slices around the
    match).  The empty pattern occurs at index 0. *)
Fixpoint splitFirst (pat s : string) : option (string * string) :=
  match stripPrefix pat s with
  | Some rest => Some (EmptyString, rest)
  | None =>
      match s with
      | EmptyString => None
      | String c s' =>
          match splitFirst pat s' with
          | Some (before, after) => Some (String c before, after)
          | None => None
          end
      end
  end.

(** GetSubstitution of ECMA-262 for a search value that is a string:
    there are no captures, so of the [$] patterns only [$$], [$&],
    [$`] and [$'] are replaced; [$1], [$<] and a lone [$] stay. *)
Fixpoint getSubstitution (matched before after template : string) : string :=
  match template with
  | EmptyString => EmptyString
  | String c t =>
      if Ascii.eqb c "$" then
        match t with
        | String d t' =>
            if Ascii.eqb d "$" then
              String "$" (getSubstitution matched before after t')
            else if Ascii.eqb d "&" then
              matched ++ getSubstitution matched before after t'
            else if Ascii.eqb d "`" then
              before ++ getSubstitution matched before after t'
            else if Ascii.eqb d squote then
              after ++ getSubstitution matched before after t'
            else String c (getSubstitution matched before after t)
        | EmptyString => single c
        end
      else String c (getSubstitution matched before after t)
  end.

(** [s.replace(pat, replacement)] with both arguments strings: the
    first occurrence only, the replacement expanded. *)
Definition replace (s pat replacement : string) : string :=
  match splitFirst pat s with
  | None => s
  | Some (before, after) =>
      before ++ getSubstitution pat before after replacement ++ after
  end.

Definition startsWith (p s : string) : bool :=
  match stripPrefix p s with Some _ => true | None => false end.

Definition includesStr (pat s : string) : bool :=
  match splitFirst pat s with Some _ => true | None => false end.

Fixpoint hasChar (c : ascii) (s : string) : bool :=
  match s with
  | EmptyString => false
  | String d s' => Ascii.eqb d c || hasChar c s'
  end.

End Str.

(** ** Outcomes

    A call returns a value, lets a [TypeError] escape, or (in loops whose
    embedding is bounded) uses up its bound; [parseElements_total] shows
    that the bound taken here is never reached. *)

Inductive Outcome (A : Type) : Type :=
| Returns (a : A)
| TypeError
| FuelExhausted.

Arguments Returns {A} a.
Arguments TypeError {A}.
Arguments FuelExhausted {A}.

Definition bind {A B : Type} (x : Outcome A) (f : A -> Outcome B) : Outcome B :=
  match x with
  | Returns a => f a
  | TypeError => TypeError
  | FuelExhausted => FuelExhausted
  end.

Notation "x <- e ;; k" := (bind e (fun x => k))
  (at level 61, e at next level, right associativity).

(** ** Regular expressions

    A backtracking matcher in the continuation style of ECMA-262
    (22.2.2), for the constructs the two patterns of the source use.
    Quantifiers are applied to character classes only, as in the source. *)

Module Regex.

Import Chars.

Inductive t : Type :=
| Char (c : ascii)                 (* a literal character *)
| Class (p : ascii -> bool)        (* [...], \S *)
| Seq (r1 r2 : t)
| Alt (r1 r2 : t)                  (* r1|r2 *)
| Opt (r : t)                      (* r? *)
| Star (p : ascii -> bool)         (* [...]* *)
| Plus (p : ascii -> bool)         (* [...]+ *)
| PlusLazy (p : ascii -> bool)     (* [...]+? *)
| Group (i : nat) (r : t)          (* capturing group number i *)
| WordBoundary                     (* \b *)
| NotWordBoundary.                 (* \B *)

(** The position of the matcher in the input: the character before it
    (for [\b]), the input from it on, and the captures made so far,
    latest first. *)
Record State : Type := mkState {
  prev : option ascii;
  rest : string;
  caps : list (nat * string)
}.

Definition Cont : Type := State -> option State.

(** The text between two positions of one input. *)
Definition consumed (from to : string) : string :=
  Str.take (String.length from - String.length to) from.

Fixpoint capture (i : nat) (cs : list (nat * string)) : option string :=
  match cs with
  | [] => None
  | (j, s) :: cs' => if Nat.eqb i j then Some s else capture i cs'
  end.

Definition isWordOpt (c : option ascii) : bool :=
  match c with Some c => isWordChar c | None => false end.

Definition next (s : string) : option ascii :=
  match s with String c _ => Some c | EmptyString => None end.

Definition atBoundary (st : State) : bool :=
  xorb (isWordOpt (prev st)) (isWordOpt (next (rest st))).

Definition step (p : ascii -> bool) (st : State) (k : Cont) : option State :=
  match rest st with
  | String c s' => if p c then k (mkState (Some c) s' (caps st)) else None
  | EmptyString => None
  end.

Definition orElse (a b : option State) : option State :=
  match a with Some _ => a | None => b end.

(** Greedy repetition: the longest run first, then shorter ones. *)
Fixpoint starGreedy (p : ascii -> bool) (pr : option ascii) (s : string)
         (cs : list (nat * string)) (k : Cont) : option State :=
  match s with
  | String c s' =>
      if p c
      then orElse (starGreedy p (Some c) s' cs k) (k (mkState pr s cs))
      else k (mkState pr s cs)
  | EmptyString => k (mkState pr s cs)
  end.

(** Lazy repetition: the shortest run first, then longer ones. *)
Fixpoint starLazy (p : ascii -> bool) (pr : option ascii) (s : string)
         (cs : list (nat * string)) (k : Cont) : option State :=
  orElse (k (mkState pr s cs))
         match s with
         | String c s' => if p c then starLazy p (Some c) s' cs k else None
         | EmptyString => None
         end.

Fixpoint run (r : t) (st : State) (k : Cont) : option State :=
  match r with
  | Char c => step (Ascii.eqb c) st k
  | Class p => step p st k
  | Seq r1 r2 => run r1 st (fun st1 => run r2 st1 k)
  | Alt r1 r2 => orElse (run r1 st k) (run r2 st k)
  | Opt r1 => orElse (run r1 st k) (k st)
  | Star p => starGreedy p (prev st) (rest st) (caps st) k
  | Plus p =>
      step p st (fun st1 => starGreedy p (prev st1) (rest st1) (caps st1) k)
  | PlusLazy p =>
      step p st (fun st1 => starLazy p (prev st1) (rest st1) (caps st1) k)
  | Group i r1 =>
      run r1 st (fun st1 =>
        k (mkState (prev st1) (rest st1)
                   ((i, consumed (rest st) (rest st1)) :: caps st1)))
  | WordBoundary => if atBoundary st then k st else None
  | NotWordBoundary => if atBoundary st then None else k st
  end.

(** One successful [exec]: [match[0]], the groups, and where the
    match ended, which is what [lastIndex] of a global pattern points
    to afterwards. *)
Record Match : Type := mkMatch {
  whole : string;
  groups : list (nat * string);
  endPrev : option ascii;
  endRest : string
}.

Definition group (i : nat) (m : Match) : option string := capture i (groups m).

Definition matchAt (r : t) (pr : option ascii) (s : string) : option Match :=
  match run r (mkState pr s []) (fun st => Some st) with
  | Some st => Some (mkMatch (consumed s (rest st)) (caps st) (prev st) (rest st))
  | None => None
  end.

(** [r.exec(input)] for a global pattern whose [lastIndex] is at [s]:
    the first position from there on at which the pattern matches. *)
Fixpoint exec (r : t) (pr : option ascii) (s : string) : option Match :=
  match matchAt r pr s with
  | Some m => Some m
  | None =>
      match s with
      | String c s' => exec r (Some c) s'
      | EmptyString => None
      end
  end.

Definition isNot (c : ascii) : ascii -> bool := fun d => negb (Ascii.eqb d c).

(** Every character of [w] is in the class [p]. *)
Fixpoint allIn (p : ascii -> bool) (w : string) : bool :=
  match w with
  | EmptyString => true
  | String c w' => p c && allIn p w'
  end.

(** The least number of characters a match of [r] reads. *)
Fixpoint minLen (r : t) : nat :=
  match r with
  | Char _ | Class _ | Plus _ | PlusLazy _ => 1
  | Seq r1 r2 => minLen r1 + minLen r2
  | Alt r1 r2 => Nat.min (minLen r1) (minLen r2)
  | Group _ r1 => minLen r1
  | Opt _ | Star _ | WordBoundary | NotWordBoundary => 0
  end.

(** What a successful run of [r] from [st] to [st1] has read and
    captured; the character before the position is left out, it only
    matters to [\b]. *)
Fixpoint Accepts (r : t) (st st1 : State) : Prop :=
  match r with
  | Char c => rest st = String c (rest st1) /\ caps st1 = caps st
  | Class p =>
      exists c, p c = true /\ rest st = String c (rest st1) /\ caps st1 = caps st
  | Seq r1 r2 => exists mid, Accepts r1 st mid /\ Accepts r2 mid st1
  | Alt r1 r2 => Accepts r1 st st1 \/ Accepts r2 st st1
  | Opt r1 => Accepts r1 st st1 \/ st1 = st
  | Star p =>
      exists w, allIn p w = true /\ rest st = w ++ rest st1 /\ caps st1 = caps st
  | Plus p | PlusLazy p =>
      exists c w, p c = true /\ allIn p w = true
                  /\ rest st = String c (w ++ rest st1) /\ caps st1 = caps st
  | Group i r1 =>
      exists mid, Accepts r1 st mid
                  /\ rest st1 = rest mid
                  /\ caps st1 = (i, consumed (rest st) (rest mid)) :: caps mid
  | WordBoundary | NotWordBoundary => rest st1 = rest st /\ caps st1 = caps st
  end.

End Regex.

(** ** Values *)

#[warning="-register-all"] Inductive JSValue : Type :=
| JSUndefined
| JSNull
| JSBool (b : bool)
| JSNumber (n : Z)                 (* an integer-valued number *)
| JSNaN
| JSString (s : string)
| JSFunction (src : string)        (* with the text that toString gives *)
| JSArray (items : list JSValue)
| JSObject (props : list (string * JSValue)).
                                   (* own properties, as Object.keys lists them *)

Definition Props : Type := list (string * JSValue).

(** ToBoolean *)
Definition truthy (v : JSValue) : bool :=
  match v with
  | JSUndefined | JSNull | JSNaN => false
  | JSBool b => b
  | JSNumber n => negb (Z.eqb n 0)
  | JSString s => negb (String.eqb s EmptyString)
  | JSFunction _ | JSArray _ | JSObject _ => true
  end.

(** [v === s] for a string [s] *)
Definition strictEqString (v : JSValue) (s : string) : bool :=
  match v with
  | JSString t => String.eqb t s
  | _ => false
  end.

(** [items.includes(s)] for a string [s] *)
Definition includes (items : list JSValue) (s : string) : bool :=
  existsb (fun v => strictEqString v s) items.

(** [a && b] once [b] has been evaluated *)
Definition jsAnd (a b : JSValue) : JSValue := if truthy a then b else a.

(** [a || b] on strings that may be undefined *)
Definition strOr (a b : option string) : option string :=
  match a with
  | Some EmptyString | None => b
  | Some _ => a
  end.

Definition decimal (i : nat) : string := NilEmpty.string_of_uint (Nat.to_uint i).

Section OwnProperties.

Variable A : Type.
Variable key : string.
Variable found : JSValue -> A.
Variable missing : A.

(** A read of the own property [key], continued with [found] on its
    value; [missing] when there is none. *)
Fixpoint withOwn (props : Props) : A :=
  match props with
  | [] => missing
  | (k, v) :: props' => if String.eqb k key then found v else withOwn props'
  end.

End OwnProperties.

Definition getOwnProperty (props : Props) (key : string) : option JSValue :=
  withOwn key (fun v => Some v) None props.

(** [String(f)] of a built-in function *)
Definition nativeFunction (name : string) : JSValue :=
  JSFunction ("function " ++ name ++ "() { [native code] }").

(** What an object literal inherits from [Object.prototype]; the
    prototype itself, read through [__proto__], has no enumerable
    property. *)
Definition objectPrototype (key : string) : JSValue :=
  if existsb (String.eqb key)
       ["hasOwnProperty"; "isPrototypeOf"; "propertyIsEnumerable";
        "toLocaleString"; "toString"; "valueOf";
        "__defineGetter__"; "__defineSetter__";
        "__lookupGetter__"; "__lookupSetter__"]
  then nativeFunction key
  else if String.eqb key "constructor" then nativeFunction "Object"
  else if String.eqb key "__proto__" then JSObject []
  else JSUndefined.

(** [o[key]] for an object literal [o] *)
Definition getProperty (o : Props) (key : string) : JSValue :=
  match getOwnProperty o key with
  | Some v => v
  | None => objectPrototype key
  end.

(** ToPropertyKey of a value used between the brackets of [o[...]].
    The objects met here do not redefine [toString]. *)
Fixpoint toPropertyKey (v : JSValue) : string :=
  match v with
  | JSUndefined => "undefined"
  | JSNull => "null"
  | JSBool true => "true"
  | JSBool false => "false"
  | JSNumber n => NilEmpty.string_of_int (Z.to_int n)
  | JSNaN => "NaN"
  | JSString s => s
  | JSFunction src => src
  | JSArray items =>
      Str.join ","
        (map (fun i => match i with
                       | JSUndefined | JSNull => EmptyString
                       | _ => toPropertyKey i
                       end) items)
  | JSObject _ => "[object Object]"
  end.

(** ** The two patterns of the source *)

Import Chars.

(** [/<([^>]+?)\/?>/g] *)
Definition tagStringRegex : Regex.t :=
  Regex.Seq (Regex.Char "<")
    (Regex.Seq (Regex.Group 1 (Regex.PlusLazy (Regex.isNot ">")))
       (Regex.Seq (Regex.Opt (Regex.Char "/")) (Regex.Char ">"))).

Definition notSpaceOrEquals (c : ascii) : bool :=
  negb (isWhiteSpace c || Ascii.eqb c "=").

Definition notQuoteOrSpace (c : ascii) : bool :=
  negb (Ascii.eqb c squote || Ascii.eqb c dquote || isWhiteSpace c).

Definition notSpace (c : ascii) : bool := negb (isWhiteSpace c).

(** The pattern [attributeRegex], with the flag [g].  First alternative:
    group 1, one or more characters that are neither white space nor
    [=]; then [=]; then a value in double quotes (group 2, without the
    quotes), or a value in single quotes (group 3), or group 4, zero or
    more characters that are neither quotes nor white space.  Second
    alternative: [\b], group 5 of one or more characters that are not
    white space, then [\B] or [\b]. *)
Definition attributeRegex : Regex.t :=
  Regex.Alt
    (Regex.Seq (Regex.Group 1 (Regex.Plus notSpaceOrEquals))
       (Regex.Seq (Regex.Char "=")
          (Regex.Alt
             (Regex.Seq (Regex.Char dquote)
                (Regex.Seq (Regex.Group 2 (Regex.Star (Regex.isNot dquote)))
                   (Regex.Char dquote)))
             (Regex.Alt
                (Regex.Seq (Regex.Char squote)
                   (Regex.Seq (Regex.Group 3 (Regex.Star (Regex.isNot squote)))
                      (Regex.Char squote)))
                (Regex.Group 4 (Regex.Star notQuoteOrSpace))))))
    (Regex.Seq Regex.WordBoundary
       (Regex.Seq (Regex.Group 5 (Regex.Plus notSpace))
          (Regex.Alt Regex.NotWordBoundary Regex.WordBoundary))).

(** [const attrMap = { for: 'htmlFor', class: 'className' }] *)
Definition attrMap : Props :=
  [("for", JSString "htmlFor"); ("class", JSString "className")].

(** ** Elements and attributes *)

Record Attribute : Type := mkAttribute {
  name : string;
  value : string;
  raw : string
}.

(** The field [raw] of an element is [elementRaw] here, [raw] being the
    field of an attribute. *)
Record Element : Type := mkElement {
  nodeName : string;
  attributes : list Attribute;
  elementRaw : string
}.

(** [attributes.find(attr => attr.name === attrName)] *)
Definition findAttribute (attrs : list Attribute) (attrName : string) : option Attribute :=
  find (fun attr => String.eqb (name attr) attrName) attrs.

(** ** matches *)

Section ForEachKey.

Variable X : Type.
(** the property name of an entry, given its position *)
Variable keyOf : nat -> X -> string.
(** [matches(nodeName, attributes, value, matcher.attributes[attrName])] *)
Variable test : X -> string -> Outcome JSValue.
Variable attrs : list Attribute.

(** [Object.keys(matcher.attributes).forEach(attrName => { ... })] with
    the variable [filter] that the callback assigns passed along. *)
Fixpoint forEachKey (entries : list X) (i : nat) (filter : JSValue) : Outcome JSValue :=
  match entries with
  | [] => Returns filter
  | x :: entries' =>
      match findAttribute attrs (keyOf i x) with
      | None => forEachKey entries' (S i) filter          (* return false; *)
      | Some attr =>
          if truthy filter
          then r <- test x (value attr) ;; forEachKey entries' (S i) r
          else forEachKey entries' (S i) filter
      end
  end.

End ForEachKey.

Fixpoint matches (nodeName : string) (attrs : list Attribute) (value : string)
         (matcher : JSValue) {struct matcher} : Outcome JSValue :=
  match matcher with
  | JSBool _ => Returns (JSBool true)
  | JSString s => Returns (JSBool (String.eqb s value))
  | JSArray items => Returns (JSBool (includes items value))
  | JSNull => TypeError                  (* typeof null is 'object' *)
  | JSObject props =>
      let filter := JSBool true in
      let filter :=
        if truthy (getProperty props "nodeName")
        then jsAnd filter
               (JSBool (strictEqString (getProperty props "nodeName") nodeName))
        else filter in
      (* if (matcher.attributes), read with the callback on its value *)
      withOwn "attributes"
        (fun a =>
           if truthy a then
             match a with
             | JSObject entries =>
                 forEachKey (fun _ e => fst e)
                   (fun e v => matches nodeName attrs v (snd e))
                   attrs entries 0 filter
             | JSArray items =>              (* the keys are the indices *)
                 forEachKey (fun i _ => decimal i)
                   (fun e v => matches nodeName attrs v e)
                   attrs items 0 filter
             | JSString s =>                 (* the keys are the indices *)
                 forEachKey (fun i _ => decimal i)
                   (fun c v => Returns (JSBool (String.eqb (Str.single c) v)))
                   attrs (list_ascii_of_string s) 0 filter
             | _ => Returns filter           (* no enumerable own property *)
             end
           else Returns filter)
        (Returns filter) props
  | JSUndefined | JSNumber _ | JSNaN | JSFunction _ => Returns JSUndefined
  end.

(** ** parseElements *)

(** The inner loop, [while ((groups = attributeRegex.exec(attributeStr)))],
    with [lastIndex] at [s]; [fuel] bounds the number of turns. *)
Fixpoint parseAttributes (fuel : nat) (pr : option ascii) (s : string)
  : Outcome (list Attribute) :=
  match fuel with
  | 0 => FuelExhausted
  | S fuel' =>
      match Regex.exec attributeRegex pr s with
      | None => Returns []
      | Some groups =>
          match strOr (Regex.group 1 groups) (Regex.group 5 groups) with
          | None => TypeError            (* undefined.toLowerCase() *)
          | Some n =>
              let attr :=
                mkAttribute
                  (Str.toLowerCase n)
                  (match strOr (strOr (Regex.group 2 groups) (Regex.group 3 groups))
                               (Regex.group 4 groups) with
                   | Some v => v
                   | None => EmptyString
                   end)
                  (Regex.whole groups) in
              more <- parseAttributes fuel' (Regex.endPrev groups) (Regex.endRest groups) ;;
              Returns (attr :: more)
          end
      end
  end.

(** The body of the outer loop after [match] has been found and the end
    tags have been passed over. *)
Definition parseElement (m : Regex.Match) (tagStr : string) : Outcome Element :=
  let index :=
    match Str.indexOfChar " " tagStr with
    | Some i => i
    | None => String.length tagStr
    end in
  let nodeName := Str.toLowerCase (Str.take index tagStr) in
  let attributeStr := Str.trim (Str.drop (index + 1) tagStr) in
  attributes <- parseAttributes (S (String.length attributeStr)) None attributeStr ;;
  Returns (mkElement nodeName attributes (Regex.whole m)).

(** [tagStr.charAt(0) === '/'] *)
Definition isEndTag (tagStr : string) : bool :=
  match tagStr with
  | String c _ => Ascii.eqb c "/"
  | EmptyString => false
  end.

(** The outer loop, [while ((match = tagStringRegex.exec(htmlString)))]. *)
Fixpoint parseTags (fuel : nat) (pr : option ascii) (s : string)
  : Outcome (list Element) :=
  match fuel with
  | 0 => FuelExhausted
  | S fuel' =>
      match Regex.exec tagStringRegex pr s with
      | None => Returns []
      | Some m =>
          match Regex.group 1 m with
          | None => TypeError            (* undefined.charAt(0) *)
          | Some tagStr =>
              if isEndTag tagStr
              then parseTags fuel' (Regex.endPrev m) (Regex.endRest m)   (* continue; *)
              else
                element <- parseElement m tagStr ;;
                more <- parseTags fuel' (Regex.endPrev m) (Regex.endRest m) ;;
                Returns (element :: more)
          end
      end
  end.

Definition parseElements (htmlString : string) : Outcome (list Element) :=
  parseTags (S (String.length htmlString)) None htmlString.

(** ** filterAttributes *)

(** [attrMap[name] ? attrMap[name] : name], as the property key it
    becomes between the brackets of [attrs[...]]. *)
Definition ruleKey (name : string) : string :=
  toPropertyKey
    (if truthy (getProperty attrMap name)
     then getProperty attrMap name
     else JSString name).

(** The callback of [attributes.filter]: true keeps the attribute. *)
Definition keepAttribute (nodeName : string) (attributes : list Attribute)
           (attrs : Props) (attr : Attribute) : Outcome bool :=
  let matcher := getProperty attrs (ruleKey (name attr)) in
  if negb (truthy matcher) then Returns true
  else
    r <- matches nodeName attributes (value attr) matcher ;;
    Returns (negb (truthy r)).

(** [list.filter(callback)] with a callback that may throw *)
Fixpoint filterM (A : Type) (keep : A -> Outcome bool) (l : list A) : Outcome (list A) :=
  match l with
  | [] => Returns []
  | x :: l' =>
      b <- keep x ;;
      more <- filterM keep l' ;;
      Returns (if b then x :: more else more)
  end.

Definition joinRaw (attributes : list Attribute) : string :=
  Str.join " " (map raw attributes).

Definition filterAttributes (element : Element) (attrs : Props) : Outcome Element :=
  filteredAttrs <-
    filterM (keepAttribute (nodeName element) (attributes element) attrs)
            (attributes element) ;;
  Returns
    (mkElement (nodeName element) filteredAttrs
       (Str.replace (elementRaw element)
                    (joinRaw (attributes element))
                    (joinRaw filteredAttrs))).

(** ** filterHtmlAttrs *)

(** [parseElements(htmlString).forEach(element => { ... })] with the
    variable [filteredHtml] passed along. *)
Fixpoint spliceAll (elements : list Element) (attrs : Props) (filteredHtml : string)
  : Outcome string :=
  match elements with
  | [] => Returns filteredHtml
  | element :: elements' =>
      filteredElement <- filterAttributes element attrs ;;
      spliceAll elements' attrs
        (Str.replace filteredHtml (elementRaw element) (elementRaw filteredElement))
  end.

(** [filterAttrs] is documented as an object: it is left out
    ([None], for [undefined]) or an object literal with these own
    properties. *)
Definition filterHtmlAttrs (htmlString : string) (filterAttrs : option Props)
  : Outcome string :=
  match filterAttrs with
  | None => Returns htmlString               (* if (!filterAttrs) *)
  | Some attrs =>
      elements <- parseElements htmlString ;;
      spliceAll elements attrs htmlString
  end.

(** ** Sample inputs *)

Module Samples.

(** [<div data-x="y">t</div>] *)
Definition divDataX : string :=
  "<div data-x=" ++ Str.quoted "y" ++ ">t</div>".

Definition dataX : Attribute :=
  mkAttribute "data-x" "y" ("data-x=" ++ Str.quoted "y").

(** What [parseElements] makes of the opening tag of [divDataX]. *)
Definition divElement : Element :=
  mkElement "div" [dataX] ("<div data-x=" ++ Str.quoted "y" ++ ">").

(** [{'data-x': true}] *)
Definition dataXTrue : Props := [("data-x", JSBool true)].

(** [<input disabled>], its attribute and its element *)
Definition inputDisabled : string := "<input disabled>".

Definition disabled : Attribute := mkAttribute "disabled" EmptyString "disabled".

Definition inputElement : Element := mkElement "input" [disabled] inputDisabled.

(** [{disabled: ''}]: a literal string matcher, the empty string *)
Definition disabledEmpty : Props := [("disabled", JSString EmptyString)].

(** [<input type="text" class="foo">] *)
Definition typeText : Attribute :=
  mkAttribute "type" "text" ("type=" ++ Str.quoted "text").

Definition classFoo : Attribute :=
  mkAttribute "class" "foo" ("class=" ++ Str.quoted "foo").

(** [{nodeName: 'input', attributes: {type: 'text', role: 'x'}}] *)
Definition inputTextMatcher : Props :=
  [("nodeName", JSString "input");
   ("attributes", JSObject [("type", JSString "text"); ("role", JSString "x")])].

(** [{nodeName: ''}] *)
Definition emptyNodeName : Props := [("nodeName", JSString EmptyString)].

(** [{'data-x': 5}] *)
Definition dataXNumber : Props := [("data-x", JSNumber 5)].

(** [<a title="$$">x</a>] and what it becomes *)
Definition titleDollars : string := "<a title=" ++ Str.quoted "$$" ++ ">x</a>".

Definition titleDollar : string := "<a title=" ++ Str.quoted "$" ++ ">x</a>".

(** [<div constructor="x">t</div>] and [{constructor: true}] *)
Definition divConstructor : string :=
  "<div constructor=" ++ Str.quoted "x" ++ ">t</div>".

Definition constructorTrue : Props := [("constructor", JSBool true)].

(** [{a: true}] and [{x: true}] *)
Definition aTrue : Props := [("a", JSBool true)].

Definition xTrue : Props := [("x", JSBool true)].

(** A bare attribute [a], and [<a a  a>] with two spaces between two of them *)
Definition bareA : Attribute := mkAttribute "a" EmptyString "a".

Definition twoSpaces : Element := mkElement "a" [bareA; bareA] "<a a  a>".

(** [<div a="1"  b="2">], two spaces between the attributes *)
Definition attrA1 : Attribute := mkAttribute "a" "1" ("a=" ++ Str.quoted "1").

Definition attrB2 : Attribute := mkAttribute "b" "2" ("b=" ++ Str.quoted "2").

Definition divTwoSpaces : string :=
  "<div " ++ raw attrA1 ++ "  " ++ raw attrB2 ++ ">".

Definition divTwoSpacesElement : Element :=
  mkElement "div" [attrA1; attrB2] divTwoSpaces.

(** The same with a tab and with a line feed between the attributes *)
Definition divTab : string :=
  "<div " ++ raw attrA1 ++ Str.single "009" ++ raw attrB2 ++ ">".

Definition divLineFeed : string :=
  "<div " ++ raw attrA1 ++ Str.single "010" ++ raw attrB2 ++ ">".

(** [<i a="1" b>t</i>], and [{a: true, b: {attributes: {a: '2'}}}] *)
Definition bareB : Attribute := mkAttribute "b" EmptyString "b".

Definition italicAB : string := "<i " ++ raw attrA1 ++ " b>t</i>".

Definition attributeAIsTwo : JSValue :=
  JSObject [("attributes", JSObject [("a", JSString "2")])].

Definition dropAThenB : Props := [("a", JSBool true); ("b", attributeAIsTwo)].

(** [{title: 0}] and [{title: 5}] *)
Definition titleZero : Props := [("title", JSNumber 0)].

Definition titleFive : Props := [("title", JSNumber 5)].

(** [{'data-x': {}}] *)
Definition dataXEmpty : Props := [("data-x", JSObject [])].

(** A bare attribute [x] *)
Definition bareX : Attribute := mkAttribute "x" EmptyString "x".

End Samples.

(** The names that an object literal inherits. *)
Definition inheritedNames : list string :=
  ["constructor"; "__proto__";
   "hasOwnProperty"; "isPrototypeOf"; "propertyIsEnumerable";
   "toLocaleString"; "toString"; "valueOf";
   "__defineGetter__"; "__defineSetter__";
   "__lookupGetter__"; "__lookupSetter__"].


(** ** The statements of the specification

    Definitions that follow the words of the specification, to be
    compared with what the functions above compute. *)

(** How a result of [matches] counts in a condition. *)
Definition satisfied (o : Outcome JSValue) : bool :=
  match o with
  | Returns r => truthy r
  | _ => false
  end.

(** An attribute is kept, in the words of the specification: no matcher
    is registered under its alias-resolved name, or one is registered
    and [matches] evaluates to [false] for it. *)
Definition keptAsStated (nodeName : string) (attributes : list Attribute)
           (attrs : Props) (attr : Attribute) : Prop :=
  match getOwnProperty attrs (ruleKey (name attr)) with
  | None => True
  | Some matcher =>
      matches nodeName attributes (value attr) matcher = Returns (JSBool false)
  end.

(** An attribute is kept, as [filterAttributes] decides it: the value
    read under the key is falsy, or [matches] gives a falsy result. *)
Definition keptByFilter (nodeName : string) (attributes : list Attribute)
           (attrs : Props) (attr : Attribute) : Prop :=
  let matcher := getProperty attrs (ruleKey (name attr)) in
  truthy matcher = false
  \/ exists r, matches nodeName attributes (value attr) matcher = Returns r
                /\ truthy r = false.

Section Keyed.

Variable X : Type.
Variable keyOf : nat -> X -> string.

(** The entries of a list with their property names, from position [i] on. *)
Fixpoint keyed (i : nat) (xs : list X) : list (string * X) :=
  match xs with
  | [] => []
  | x :: xs' => (keyOf i x, x) :: keyed (S i) xs'
  end.

End Keyed.

(** The enumerable own properties of a value, in the order of
    [Object.keys], each with the value that a read of it gives. *)
Definition ownEntries (v : JSValue) : list (string * JSValue) :=
  match v with
  | JSObject entries => entries
  | JSArray items => keyed (fun i _ => decimal i) 0 items
  | JSString s =>
      keyed (fun i _ => decimal i) 0
            (map (fun c => JSString (Str.single c)) (list_ascii_of_string s))
  | _ => []
  end.

(** Condition (ii) for one name of the [attributes] mapping: skipped
    when the element has no such attribute. *)
Definition subAttributeConjunct (nodeName : string) (attrs : list Attribute)
           (entry : string * JSValue) : bool :=
  match findAttribute attrs (fst entry) with
  | None => true
  | Some attr => satisfied (matches nodeName attrs (value attr) (snd entry))
  end.

(** Condition (i) in the words of the specification: when the matcher
    has a [nodeName] key. *)
Definition nodeNameConjunctAsStated (props : Props) (nodeName : string) : bool :=
  match getOwnProperty props "nodeName" with
  | Some n => strictEqString n nodeName
  | None => true
  end.

(** Condition (i) as the source tests it: [if (matcher.nodeName)]. *)
Definition nodeNameConjunct (props : Props) (nodeName : string) : bool :=
  if truthy (getProperty props "nodeName")
  then strictEqString (getProperty props "nodeName") nodeName
  else true.

Definition structuredAndAsStated (nodeName : string) (attrs : list Attribute)
           (props : Props) : bool :=
  nodeNameConjunctAsStated props nodeName
  && forallb (subAttributeConjunct nodeName attrs)
             (ownEntries (getProperty props "attributes")).

Definition structuredAnd (nodeName : string) (attrs : list Attribute)
           (props : Props) : bool :=
  nodeNameConjunct props nodeName
  && forallb (subAttributeConjunct nodeName attrs)
             (ownEntries (getProperty props "attributes")).

(** Filtering the result of a first pass once more. *)
Definition filterTwice (htmlString : string) (filterAttrs : option Props)
  : Outcome string :=
  t <- filterHtmlAttrs htmlString filterAttrs ;; filterHtmlAttrs t filterAttrs.

(** The filter callback keeps the attribute, and returns. *)
Definition keeps (nodeName : string) (attributes : list Attribute)
           (attrs : Props) (attr : Attribute) : bool :=
  match keepAttribute nodeName attributes attrs attr with
  | Returns b => b
  | _ => false
  end.

(** The end tags of the input: the matches of the tag pattern whose
    group 1 starts with a slash, by the loop of [parseElements]. *)
Fixpoint endTagsFrom (fuel : nat) (pr : option ascii) (s : string) : list string :=
  match fuel with
  | 0 => []
  | S fuel' =>
      match Regex.exec tagStringRegex pr s with
      | None => []
      | Some m =>
          let more := endTagsFrom fuel' (Regex.endPrev m) (Regex.endRest m) in
          match Regex.group 1 m with
          | Some tagStr => if isEndTag tagStr then Regex.whole m :: more else more
          | None => more
          end
      end
  end.

Definition endTags (htmlString : string) : list string :=
  endTagsFrom (S (String.length htmlString)) None htmlString.

(** Where an element comes from: a match of the tag pattern somewhere in
    the input whose group 1 does not start with a slash. *)
Definition fromOpeningTag (s : string) (el : Element) : Prop :=
  exists pre pr' s' m tagStr,
    s = pre ++ s'
    /\ Regex.matchAt tagStringRegex pr' s' = Some m
    /\ Regex.group 1 m = Some tagStr
    /\ isEndTag tagStr = false
    /\ parseElement m tagStr = Returns el.

(** Membership in the rule set of an unrecognized type: [typeof] is
    none of ['boolean'], ['string'], ['object']. *)
Definition unrecognized (matcher : JSValue) : bool :=
  match matcher with
  | JSUndefined | JSNumber _ | JSNaN | JSFunction _ => true
  | _ => false
  end.

(** ** Further notions *)

(** A matcher on which [matches] cannot fault: it is not [null], and
    neither is a nested matcher of its [attributes] mapping, at any
    depth.  A list matcher is only searched, whatever its items are. *)
Fixpoint faultFree (matcher : JSValue) : bool :=
  match matcher with
  | JSNull => false
  | JSObject props =>
      withOwn "attributes"
        (fun a =>
           match a with
           | JSObject entries => forallb (fun e => faultFree (snd e)) entries
           | JSArray items => forallb faultFree items
           | _ => true
           end)
        true props
  | _ => true
  end.

(** What [matches] returns when it returns: a boolean, or undefined. *)
Definition isVerdict (r : JSValue) : Prop :=
  r = JSUndefined \/ exists b, r = JSBool b.

(** On a matcher that is free of faults [matches] returns a verdict,
    whatever the element and the value are. *)
Definition returnsVerdict (matcher : JSValue) : Prop :=
  forall nodeName attrs v,
    faultFree matcher = true ->
    exists r, matches nodeName attrs v matcher = Returns r /\ isVerdict r.

(** [matches] has no bounded loop: it never reaches a bound. *)
Definition withinBound (matcher : JSValue) : Prop :=
  forall nodeName attrs v, matches nodeName attrs v matcher <> FuelExhausted.

(** A call of [filterAttributes]' callback that faults, for an attribute
    of an element of the input. *)
Definition faultyRule (htmlString : string) (attrs : Props) : Prop :=
  exists elements element attr,
    parseElements htmlString = Returns elements
    /\ In element elements
    /\ In attr (attributes element)
    /\ keepAttribute (nodeName element) (attributes element) attrs attr
       = TypeError.

(** The text of an attribute with a value: the name, [=], and the value
    in double quotes, in single quotes or bare. *)
Definition valuedText (n v text : string) : Prop :=
  Regex.allIn notSpaceOrEquals n = true
  /\ ((text = n ++ "=" ++ Str.quoted v /\ Str.hasChar dquote v = false)
      \/ (text = n ++ "=" ++ Str.single squote ++ v ++ Str.single squote
          /\ Str.hasChar squote v = false)
      \/ (text = n ++ "=" ++ v /\ Regex.allIn notQuoteOrSpace v = true)).

(** The text of an attribute without a value: the name alone. *)
Definition bareText (n v text : string) : Prop :=
  v = EmptyString /\ text = n /\ Regex.allIn notSpace n = true.

(** [groups[2] || groups[3] || groups[4] || ''] *)
Definition valueOf (g : Regex.Match) : string :=
  match strOr (strOr (Regex.group 2 g) (Regex.group 3 g)) (Regex.group 4 g) with
  | Some v => v
  | None => EmptyString
  end.

(** An attribute record and the text it was read from: the name is the
    name of the text in lower case, the value is the value of the text
    without its quotes. *)
Definition readFromText (attr : Attribute) : Prop :=
  exists n v,
    n <> EmptyString
    /\ name attr = Str.toLowerCase n
    /\ value attr = v
    /\ (bareText n v (raw attr) \/ valuedText n v (raw attr)).

(** [part] occurs in [whole]. *)
Definition occursIn (part whole : string) : Prop :=
  exists before after, whole = before ++ part ++ after.

(** The keys under which [filterAttributes] never looks a rule up,
    whatever the input is: the names that [attrMap] replaces, and the
    keys with a capital letter that are not the image of a name. *)
Definition deadKey (k : string) : Prop :=
  In k ["for"; "class"; "constructor"; "__proto__"]
  \/ (Str.toLowerCase k <> k
      /\ ~ In k ["htmlFor"; "className";
                 "function Object() { [native code] }"; "[object Object]"]).

(** The callback of [attributes.filter] as a boolean, for [List.filter]. *)
Definition keptBy (element : Element) (attrs : Props) (attr : Attribute) : bool :=
  keeps (nodeName element) (attributes element) attrs attr.

(** The matcher under which the rule of an attribute is looked up is
    falsy, or of a type that [matches] does not recognize. *)
Definition falsyOrUnrecognized (attrs : Props) (attr : Attribute) : Prop :=
  truthy (getProperty attrs (ruleKey (name attr))) = false
  \/ unrecognized (getProperty attrs (ruleKey (name attr))) = true.

(** No matcher of the rule set can make [matches] fault. *)
Definition faultFreeRules (attrs : Props) : Prop :=
  forall k v, In (k, v) attrs -> truthy v = false \/ faultFree v = true.

(** ** Brackets *)

(** Reading a text from left to right: is the last bracket met an
    opening one?  [b] is the answer before the text. *)
Fixpoint unclosedFrom (b : bool) (s : string) : bool :=
  match s with
  | EmptyString => b
  | String c s' =>
      unclosedFrom (if Ascii.eqb c "<" then true
                    else if Ascii.eqb c ">" then false
                    else b) s'
  end.

(** An opening bracket of the text is left open at its end. *)
Definition unclosed (s : string) : bool := unclosedFrom false s.

(** The text of a tag: an opening bracket, a body without a closing
    bracket, and the closing bracket. *)
Definition tagText (text body : string) : Prop :=
  text = "<" ++ body ++ ">" /\ body <> EmptyString /\ Str.hasChar ">" body = false.

(** [tag] is in [text] as it is written, as a tag of its own: it
    occurs there, after a text none of whose opening brackets is left
    open. *)
Definition keptAsWritten (tag text : string) : Prop :=
  exists before after,
    text = before ++ tag ++ after /\ unclosed before = false.

(** The character before a position that is [w] further on. *)
Fixpoint lastOr (pr : option ascii) (w : string) : option ascii :=
  match w with
  | EmptyString => pr
  | String c w' => lastOr (Some c) w'
  end.

(** * Properties *)

(** ** Strings *)

Module StrFacts.

Import Str.

Lemma app_nil_r (s : string) : s ++ EmptyString = s.
Proof. induction s as [|c s IH]; simpl; [reflexivity | now rewrite IH]. Qed.

Lemma app_assoc (a b c : string) : (a ++ b) ++ c = a ++ b ++ c.
Proof. induction a as [|x a IH]; simpl; [reflexivity | now rewrite IH]. Qed.

Lemma app_length (a b : string) :
  String.length (a ++ b) = String.length a + String.length b.
Proof. induction a as [|x a IH]; simpl; [reflexivity | now rewrite IH]. Qed.

Lemma take_app (w r : string) : take (String.length w) (w ++ r) = w.
Proof. induction w as [|c w IH]; simpl; [now destruct r | now rewrite IH]. Qed.

Lemma hasChar_app (c : ascii) (a b : string) :
  hasChar c (a ++ b) = hasChar c a || hasChar c b.
Proof.
  induction a as [|x a IH]; simpl; [reflexivity|].
  rewrite IH. now rewrite orb_assoc.
Qed.

(** A character of a part is a character of the whole. *)
Lemma hasChar_part (c : ascii) (pre mid post : string) :
  hasChar c (pre ++ mid ++ post) = false -> hasChar c mid = false.
Proof.
  rewrite !hasChar_app. intros H.
  apply orb_false_iff in H as [_ H]. now apply orb_false_iff in H as [H _].
Qed.

Lemma take_drop (n : nat) (s : string) : take n s ++ drop n s = s.
Proof.
  revert s. induction n as [|n IH]; intros [|c s]; simpl; try reflexivity.
  now rewrite IH.
Qed.

Lemma hasChar_take (c : ascii) (n : nat) (s : string) :
  hasChar c s = false -> hasChar c (take n s) = false.
Proof.
  intros H. rewrite <- (take_drop n s), hasChar_app in H.
  now apply orb_false_iff in H as [H _].
Qed.

Lemma hasChar_drop (c : ascii) (n : nat) (s : string) :
  hasChar c s = false -> hasChar c (drop n s) = false.
Proof.
  intros H. rewrite <- (take_drop n s), hasChar_app in H.
  now apply orb_false_iff in H as [_ H].
Qed.

Lemma hasChar_trimStart (c : ascii) (s : string) :
  hasChar c s = false -> hasChar c (trimStart s) = false.
Proof.
  induction s as [|x s IH]; simpl; [reflexivity|].
  intros H. destruct (Chars.isWhiteSpace x).
  - apply IH. now apply orb_false_iff in H as [_ H].
  - exact H.
Qed.

Lemma hasChar_trimEnd (c : ascii) (s : string) :
  hasChar c s = false -> hasChar c (trimEnd s) = false.
Proof.
  induction s as [|x s IH]; simpl; [reflexivity|].
  intros H. apply orb_false_iff in H as [Hx Hs]. specialize (IH Hs).
  destruct (trimEnd s) as [|y t].
  - destruct (Chars.isWhiteSpace x); simpl; [reflexivity | now rewrite Hx].
  - change (hasChar c (String x (String y t)))
      with (Ascii.eqb x c || hasChar c (String y t)).
    now rewrite Hx, IH.
Qed.

Lemma hasChar_trim (c : ascii) (s : string) :
  hasChar c s = false -> hasChar c (trim s) = false.
Proof. intros H. unfold trim. now apply hasChar_trimEnd, hasChar_trimStart. Qed.

Lemma stripPrefix_sound (p s rest : string) :
  stripPrefix p s = Some rest -> s = p ++ rest.
Proof.
  revert s. induction p as [|a p IH]; intros s; simpl.
  - now intros [= ->].
  - destruct s as [|b s]; [discriminate|].
    destruct (Ascii.eqb_spec a b) as [->|]; [|discriminate].
    intros H. now rewrite (IH _ H).
Qed.

Lemma splitFirst_sound (pat s before after : string) :
  splitFirst pat s = Some (before, after) -> s = before ++ pat ++ after.
Proof.
  revert before. induction s as [|c s IH]; intros before; simpl.
  - destruct (stripPrefix pat EmptyString) eqn:E.
    + intros [= <- <-]. now apply stripPrefix_sound in E.
    + discriminate.
  - destruct (stripPrefix pat (String c s)) eqn:E.
    + intros [= <- <-]. now apply stripPrefix_sound in E.
    + destruct (splitFirst pat s) as [[b a]|]; [|discriminate].
      intros [= <- <-]. simpl. now rewrite (IH b eq_refl).
Qed.

(** A replacement text without [$] stands for itself. *)
Lemma getSubstitution_plain (matched before after template : string) :
  hasChar "$" template = false ->
  getSubstitution matched before after template = template.
Proof.
  induction template as [|c t IH]; simpl; [reflexivity|].
  intros H. apply orb_false_iff in H as [Hc Ht].
  rewrite Hc. now rewrite (IH Ht).
Qed.

(** Replacing a text without [$] by itself changes nothing. *)
Lemma replace_self (s pat : string) :
  hasChar "$" pat = false -> replace s pat pat = s.
Proof.
  intros H. unfold replace.
  destruct (splitFirst pat s) as [[b a]|] eqn:E; [|reflexivity].
  rewrite getSubstitution_plain by exact H.
  symmetry. now apply splitFirst_sound.
Qed.

(** A pattern that does not occur is not replaced. *)
Lemma replace_absent (s pat replacement : string) :
  includesStr pat s = false -> replace s pat replacement = s.
Proof.
  unfold includesStr, replace.
  destruct (splitFirst pat s) as [[b a]|]; [discriminate | reflexivity].
Qed.

Lemma hasChar_join (c : ascii) (sep : string) (parts : list string) :
  hasChar c sep = false ->
  (forall p, In p parts -> hasChar c p = false) ->
  hasChar c (join sep parts) = false.
Proof.
  intros Hsep. induction parts as [|p parts IH]; intros H; [reflexivity|].
  destruct parts as [|q parts].
  - simpl. apply H. now left.
  - change (join sep (p :: q :: parts)) with (p ++ sep ++ join sep (q :: parts)).
    rewrite !hasChar_app, Hsep, (H p (or_introl eq_refl)). simpl.
    apply IH. intros r Hr. apply H. now right.
Qed.

End StrFacts.

(** ** The matcher *)

Module RegexFacts.

Import Regex.

Lemma orElse_some (a b : option State) (res : State) :
  orElse a b = Some res -> a = Some res \/ b = Some res.
Proof. destruct a; simpl; intros H; [left | right]; exact H. Qed.

Lemma step_sound (p : ascii -> bool) (st : State) (k : Cont) (res : State) :
  step p st k = Some res ->
  exists c st1, p c = true /\ rest st = String c (rest st1)
                /\ caps st1 = caps st /\ k st1 = Some res.
Proof.
  unfold step. destruct (rest st) as [|c s'] eqn:E; [discriminate|].
  destruct (p c) eqn:P; [|discriminate].
  intros H. exists c, (mkState (Some c) s' (caps st)). auto.
Qed.

Lemma starGreedy_sound (p : ascii -> bool) (s : string) :
  forall pr cs k res,
    starGreedy p pr s cs k = Some res ->
    exists w st1, allIn p w = true /\ s = w ++ rest st1
                  /\ caps st1 = cs /\ k st1 = Some res.
Proof.
  induction s as [|c s IH]; intros pr cs k res; simpl.
  - intros H. exists EmptyString, (mkState pr EmptyString cs). auto.
  - destruct (p c) eqn:P.
    + intros H. apply orElse_some in H as [H|H].
      * destruct (IH _ _ _ _ H) as (w & st1 & Hw & -> & Hc & Hk).
        exists (String c w), st1. simpl. rewrite P, Hw. auto.
      * exists EmptyString, (mkState pr (String c s) cs). auto.
    + intros H. exists EmptyString, (mkState pr (String c s) cs). auto.
Qed.

Lemma starLazy_sound (p : ascii -> bool) (s : string) :
  forall pr cs k res,
    starLazy p pr s cs k = Some res ->
    exists w st1, allIn p w = true /\ s = w ++ rest st1
                  /\ caps st1 = cs /\ k st1 = Some res.
Proof.
  induction s as [|c s IH]; intros pr cs k res; simpl; intros H;
    apply orElse_some in H as [H|H].
  - exists EmptyString, (mkState pr EmptyString cs). auto.
  - discriminate.
  - exists EmptyString, (mkState pr (String c s) cs). auto.
  - destruct (p c) eqn:P; [|discriminate].
    destruct (IH _ _ _ _ H) as (w & st1 & Hw & -> & Hc & Hk).
    exists (String c w), st1. simpl. rewrite P, Hw. auto.
Qed.

(** Whatever the matcher finds is accepted by the pattern. *)
Lemma run_sound (r : t) :
  forall st k res,
    run r st k = Some res ->
    exists st1, Accepts r st st1 /\ k st1 = Some res.
Proof.
  induction r as [c|p|r1 IH1 r2 IH2|r1 IH1 r2 IH2|r1 IH1|p|p|p|i r1 IH1| |];
    intros st k res; simpl; intros H.
  - apply step_sound in H as (d & st1 & Hd & Hr & Hc & Hk).
    apply Ascii.eqb_eq in Hd. subst d. exists st1. auto.
  - apply step_sound in H as (d & st1 & Hd & Hr & Hc & Hk).
    exists st1. split; [exists d|]; auto.
  - apply IH1 in H as (mid & Hm & H). apply IH2 in H as (st1 & H2 & Hk).
    exists st1. split; [exists mid|]; auto.
  - apply orElse_some in H as [H|H].
    + apply IH1 in H as (st1 & ? & ?). exists st1. auto.
    + apply IH2 in H as (st1 & ? & ?). exists st1. auto.
  - apply orElse_some in H as [H|H].
    + apply IH1 in H as (st1 & ? & ?). exists st1. auto.
    + exists st. auto.
  - apply starGreedy_sound in H as (w & st1 & Hw & Hr & Hc & Hk).
    exists st1. split; [exists w|]; auto.
  - apply step_sound in H as (c & st0 & Hp & Hr & Hc & H).
    apply starGreedy_sound in H as (w & st1 & Hw & Hr1 & Hc1 & Hk).
    exists st1. split; [|exact Hk]. exists c, w.
    rewrite Hr, Hr1, Hc1, Hc. auto.
  - apply step_sound in H as (c & st0 & Hp & Hr & Hc & H).
    apply starLazy_sound in H as (w & st1 & Hw & Hr1 & Hc1 & Hk).
    exists st1. split; [|exact Hk]. exists c, w.
    rewrite Hr, Hr1, Hc1, Hc. auto.
  - apply IH1 in H as (mid & Hm & Hk).
    eexists. split; [|exact Hk]. exists mid. simpl. auto.
  - destruct (atBoundary st); [|discriminate]. exists st. auto.
  - destruct (atBoundary st); [discriminate|]. exists st. auto.
Qed.

(** An accepted run reads a prefix of what was left. *)
Lemma Accepts_suffix (r : t) :
  forall st st1, Accepts r st st1 -> exists w, rest st = w ++ rest st1.
Proof.
  induction r as [c|p|r1 IH1 r2 IH2|r1 IH1 r2 IH2|r1 IH1|p|p|p|i r1 IH1| |];
    intros st st1; simpl.
  - intros [H _]. now exists (Str.single c).
  - intros (c & _ & H & _). now exists (Str.single c).
  - intros (mid & H1 & H2).
    apply IH1 in H1 as [w1 E1]. apply IH2 in H2 as [w2 E2].
    exists (w1 ++ w2). now rewrite E1, E2, StrFacts.app_assoc.
  - intros [H|H]; [now apply IH1 | now apply IH2].
  - intros [H| ->]; [now apply IH1 | now exists EmptyString].
  - intros (w & _ & H & _). now exists w.
  - intros (c & w & _ & _ & H & _). now exists (String c w).
  - intros (c & w & _ & _ & H & _). now exists (String c w).
  - intros (mid & H & E & _). apply IH1 in H as [w Hw]. exists w. now rewrite E.
  - intros [-> _]. now exists EmptyString.
  - intros [-> _]. now exists EmptyString.
Qed.

Lemma consumed_app (w r : string) : consumed (w ++ r) r = w.
Proof.
  unfold consumed. rewrite StrFacts.app_length.
  replace (String.length w + String.length r - String.length r)
    with (String.length w) by lia.
  apply StrFacts.take_app.
Qed.

(** [match[0]] and what follows it make up the input from the start of
    the match on. *)
Lemma matchAt_whole (r : t) (pr : option ascii) (s : string) (m : Match) :
  matchAt r pr s = Some m ->
  s = whole m ++ endRest m
  /\ exists st1, Accepts r (mkState pr s []) st1
                 /\ rest st1 = endRest m /\ caps st1 = groups m.
Proof.
  unfold matchAt.
  destruct (run r (mkState pr s []) (fun st => Some st)) as [st|] eqn:E;
    [|discriminate].
  intros [= <-]. simpl.
  apply run_sound in E as (st1 & Ha & [= ->]).
  destruct (Accepts_suffix _ _ _ Ha) as [w Hw]. simpl in Hw.
  split; [|now exists st].
  rewrite Hw at 1 2. now rewrite consumed_app.
Qed.

(** [exec] passes over some text and finds a match right after it. *)
Lemma exec_sound (r : t) (s : string) :
  forall pr m,
    exec r pr s = Some m ->
    exists skipped pr' s',
      s = skipped ++ s' /\ matchAt r pr' s' = Some m.
Proof.
  induction s as [|c s IH]; intros pr m; simpl.
  - destruct (matchAt r pr EmptyString) eqn:E; [|discriminate].
    intros [= <-]. now exists EmptyString, pr, EmptyString.
  - destruct (matchAt r pr (String c s)) eqn:E.
    + intros [= <-]. now exists EmptyString, pr, (String c s).
    + intros H. apply IH in H as (sk & pr' & s' & -> & H).
      now exists (String c sk), pr', s'.
Qed.

Lemma Accepts_minLen (r : t) :
  forall st st1,
    Accepts r st st1 ->
    String.length (rest st1) + minLen r <= String.length (rest st).
Proof.
  induction r as [c|p|r1 IH1 r2 IH2|r1 IH1 r2 IH2|r1 IH1|p|p|p|i r1 IH1| |];
    intros st st1; simpl.
  - intros [-> _]. simpl. lia.
  - intros (c & _ & -> & _). simpl. lia.
  - intros (mid & H1 & H2). apply IH1 in H1. apply IH2 in H2. lia.
  - intros [H|H]; [apply IH1 in H | apply IH2 in H]; lia.
  - intros [H| ->]; [|lia].
    destruct (Accepts_suffix _ _ _ H) as [w ->]. rewrite StrFacts.app_length. lia.
  - intros (w & _ & -> & _). rewrite StrFacts.app_length. lia.
  - intros (c & w & _ & _ & -> & _). simpl. rewrite StrFacts.app_length. lia.
  - intros (c & w & _ & _ & -> & _). simpl. rewrite StrFacts.app_length. lia.
  - intros (mid & H & -> & _). now apply IH1.
  - intros [-> _]. lia.
  - intros [-> _]. lia.
Qed.

(** After [exec] has found a match, [lastIndex] has moved on by the
    length of the match at least. *)
Lemma exec_progress (r : t) (pr : option ascii) (s : string) (m : Match) :
  exec r pr s = Some m ->
  String.length (endRest m) + minLen r <= String.length s.
Proof.
  intros H. apply exec_sound in H as (sk & pr' & s' & -> & H).
  apply matchAt_whole in H as (_ & st1 & Ha & Hr & _).
  apply Accepts_minLen in Ha. simpl in Ha.
  rewrite StrFacts.app_length, <- Hr. lia.
Qed.

Lemma app_inv_tail (a b r : string) : a ++ r = b ++ r -> a = b.
Proof.
  intros H. rewrite <- (consumed_app a r), <- (consumed_app b r). now rewrite H.
Qed.

End RegexFacts.

(** ** The two patterns *)

Module PatternFacts.

Import Regex RegexFacts.

(** A match of [tagStringRegex]: the bracket, the text of group 1, which
    is not empty, and the closing bracket with or without a slash. *)
Lemma tag_match (pr : option ascii) (s : string) (m : Match) :
  matchAt tagStringRegex pr s = Some m ->
  exists c w tail,
    group 1 m = Some (String c w)
    /\ whole m = String "<" (String c w ++ tail)
    /\ s = whole m ++ endRest m.
Proof.
  intros H. apply matchAt_whole in H as (Hs & st1 & Ha & Hr & Hc).
  simpl in Ha.
  destruct Ha as (m1 & [E1 C1] & m2 & (mg & (c & w & _ & _ & Eg & Cg) & E2 & C2)
                     & m3 & Hopt & [E4 C4]).
  simpl in E1, C1.
  assert (Hcap : groups m = (1, String c w) :: []).
  { rewrite <- Hc, C4.
    assert (C3 : caps m3 = caps m2) by (destruct Hopt as [[_ C]| ->]; auto).
    rewrite C3, C2, Cg, C1, Eg.
    change (String c (w ++ rest mg)) with (String c w ++ rest mg).
    now rewrite consumed_app. }
  assert (Htail : exists tail, rest m2 = tail ++ endRest m).
  { destruct Hopt as [[E3 _]| ->].
    - exists "/>". now rewrite E3, E4, Hr.
    - exists ">". now rewrite E4, Hr. }
  destruct Htail as [tail Ht].
  exists c, w, tail. unfold group. rewrite Hcap. simpl.
  split; [reflexivity|]. split; [|exact Hs].
  apply (app_inv_tail _ _ (endRest m)).
  rewrite <- Hs, E1, Eg, <- E2, Ht. simpl.
  now rewrite StrFacts.app_assoc.
Qed.

(** A match of [attributeRegex] always gives a name: group 1 with its
    first alternative, group 5 with its second. *)
Lemma attribute_match (pr : option ascii) (s : string) (g : Match) :
  matchAt attributeRegex pr s = Some g ->
  exists n, strOr (group 1 g) (group 5 g) = Some n.
Proof.
  intros H. apply matchAt_whole in H as (_ & st1 & Ha & _ & Hc).
  unfold group. rewrite <- Hc. clear Hc.
  simpl in Ha. destruct Ha as [Ha|Ha].
  - destruct Ha as (m1 & (mg & (c & w & _ & _ & Eg & Cg) & E1 & C1)
                       & m2 & [E2 C2] & Hv).
    simpl in Eg, Cg.
    assert (H1 : capture 1 (caps m2) = Some (String c w)).
    { rewrite C2, C1, Eg.
      change (String c (w ++ rest mg)) with (String c w ++ rest mg).
      now rewrite consumed_app. }
    assert (Hst : capture 1 (caps st1) = Some (String c w)).
    { destruct Hv as [Hv|[Hv|Hv]].
      - destruct Hv as (a & [_ Ca] & b & (x & (v & _ & _ & Cv) & _ & Cx) & [_ Cb]).
        rewrite Cb, Cx, Cv, Ca. exact H1.
      - destruct Hv as (a & [_ Ca] & b & (x & (v & _ & _ & Cv) & _ & Cx) & [_ Cb]).
        rewrite Cb, Cx, Cv, Ca. exact H1.
      - destruct Hv as (x & (v & _ & _ & Cv) & _ & Cx).
        rewrite Cx, Cv. exact H1. }
    rewrite Hst. now exists (String c w).
  - destruct Ha as (m1 & [E1 C1] & m2
                       & (mg & (c & w & _ & _ & Eg & Cg) & E2 & C2) & Hb).
    simpl in C1.
    assert (C3 : caps st1 = caps m2) by (destruct Hb as [[_ C]|[_ C]]; auto).
    rewrite C3, C2, Cg, C1, Eg.
    change (String c (w ++ rest mg)) with (String c w ++ rest mg).
    rewrite consumed_app. simpl. now exists (String c w).
Qed.

End PatternFacts.

(** ** parseElements *)

Module ParseFacts.

Import Regex RegexFacts PatternFacts.

Lemma bind_returns (A B : Type) (x : Outcome A) (f : A -> Outcome B) (b : B) :
  bind x f = Returns b -> exists a, x = Returns a /\ f a = Returns b.
Proof. destruct x; simpl; try discriminate. intros H. now exists a. Qed.

(** The inner loop ends within its bound. *)
Lemma parseAttributes_total (fuel : nat) :
  forall pr s,
    String.length s < fuel ->
    exists l, parseAttributes fuel pr s = Returns l.
Proof.
  induction fuel as [|fuel IH]; intros pr s Hlen; [lia|]. simpl.
  destruct (exec attributeRegex pr s) as [g|] eqn:E; [|now exists []].
  pose proof (exec_progress _ _ _ E) as Hp.
  change (minLen attributeRegex) with 1 in Hp.
  apply exec_sound in E as (sk & pr' & s' & _ & E).
  destruct (attribute_match _ _ E) as [n ->].
  destruct (IH (endPrev g) (endRest g)) as [l ->]; [lia|].
  simpl. eauto.
Qed.

(** Every attribute record keeps a piece of the attribute text. *)
Lemma parseAttributes_raw (fuel : nat) :
  forall pr s l,
    parseAttributes fuel pr s = Returns l ->
    forall a, In a l -> exists pre post, s = pre ++ raw a ++ post.
Proof.
  induction fuel as [|fuel IH]; intros pr s l; simpl; [discriminate|].
  destruct (exec attributeRegex pr s) as [g|] eqn:E.
  - destruct (strOr (group 1 g) (group 5 g)) as [n|]; [|discriminate].
    intros H. apply bind_returns in H as (more & Hm & [= <-]).
    apply exec_sound in E as (sk & pr' & s' & -> & E).
    apply matchAt_whole in E as (-> & _).
    intros a [<-|Ha].
    + simpl. now exists sk, (endRest g).
    + destruct (IH _ _ _ Hm a Ha) as (pre & post & Hr).
      exists (sk ++ whole g ++ pre), post.
      rewrite Hr, !StrFacts.app_assoc. reflexivity.
  - intros [= <-] a [].
Qed.

Lemma parseElement_total (m : Match) (tagStr : string) :
  exists el, parseElement m tagStr = Returns el.
Proof.
  unfold parseElement.
  edestruct parseAttributes_total as [l ->]; [|simpl; eauto]. lia.
Qed.

(** The outer loop ends within its bound. *)
Lemma parseTags_total (fuel : nat) :
  forall pr s,
    String.length s < fuel ->
    exists els, parseTags fuel pr s = Returns els.
Proof.
  induction fuel as [|fuel IH]; intros pr s Hlen; [lia|]. simpl.
  destruct (exec tagStringRegex pr s) as [m|] eqn:E; [|now exists []].
  pose proof (exec_progress _ _ _ E) as Hp.
  change (minLen tagStringRegex) with 3 in Hp.
  apply exec_sound in E as (sk & pr' & s' & _ & E).
  destruct (tag_match _ _ E) as (c & w & tail & -> & _).
  destruct (IH (endPrev m) (endRest m)) as [els Hels]; [lia|].
  destruct (isEndTag (String c w)).
  - eauto.
  - destruct (parseElement_total m (String c w)) as [el ->].
    rewrite Hels. simpl. eauto.
Qed.

(** [parseElements] returns for every input: no fault, and the loop
    bound of the embedding is not reached. *)
Lemma parseElements_total (htmlString : string) :
  exists els, parseElements htmlString = Returns els.
Proof. apply parseTags_total. lia. Qed.

Lemma parseTags_origin (fuel : nat) :
  forall pr s els,
    parseTags fuel pr s = Returns els ->
    forall el, In el els -> fromOpeningTag s el.
Proof.
  induction fuel as [|fuel IH]; intros pr s els; simpl; [discriminate|].
  destruct (exec tagStringRegex pr s) as [m|] eqn:E.
  - apply exec_sound in E as (sk & pr' & s' & -> & E).
    destruct (tag_match _ _ E) as (c & w & tail & Hg & _ & Hs).
    rewrite Hg.
    assert (Hlater : forall els', parseTags fuel (endPrev m) (endRest m) = Returns els' ->
                     forall el, In el els' -> fromOpeningTag (sk ++ s') el).
    { intros els' H el Hin.
      destruct (IH _ _ _ H el Hin) as (pre & pr2 & s2 & m2 & t2 & Hpre & Hrest).
      exists (sk ++ whole m ++ pre), pr2, s2, m2, t2. split; [|exact Hrest].
      rewrite Hs at 1. rewrite Hpre, !StrFacts.app_assoc. reflexivity. }
    destruct (isEndTag (String c w)) eqn:Hend.
    + apply Hlater.
    + intros H. apply bind_returns in H as (el0 & Hel & H).
      apply bind_returns in H as (more & Hm & [= <-]).
      intros el [<-|Hin].
      * now exists sk, pr', s', m, (String c w).
      * now apply (Hlater more).
  - intros [= <-] el [].
Qed.

(** The raw text of an element is the whole match. *)
Lemma parseElement_raw (m : Match) (tagStr : string) (el : Element) :
  parseElement m tagStr = Returns el -> elementRaw el = whole m.
Proof.
  unfold parseElement. intros H.
  apply bind_returns in H as (l & _ & [= <-]). reflexivity.
Qed.

Lemma startsWith_end_tag (c : ascii) (s : string) :
  Str.startsWith "</" (String "<" (String c s)) = Ascii.eqb c "/".
Proof.
  unfold Str.startsWith. cbn [Str.stripPrefix].
  rewrite Ascii.eqb_refl, (Ascii.eqb_sym "/" c).
  now destruct (Ascii.eqb c "/").
Qed.

(** No element is made of an end tag. *)
Lemma fromOpeningTag_not_end (s : string) (el : Element) :
  fromOpeningTag s el -> Str.startsWith "</" (elementRaw el) = false.
Proof.
  intros (pre & pr' & s' & m & tagStr & _ & Hm & Hg & Hend & Hel).
  rewrite (parseElement_raw _ _ Hel).
  destruct (tag_match _ _ Hm) as (c & w & tail & Hg' & -> & _).
  rewrite Hg in Hg'. injection Hg' as ->.
  change (String c w ++ tail) with (String c (w ++ tail)).
  rewrite startsWith_end_tag. exact Hend.
Qed.

(** A character that the input does not have is in no raw text. *)
Lemma fromOpeningTag_chars (c : ascii) (s : string) (el : Element) :
  fromOpeningTag s el ->
  Str.hasChar c s = false ->
  Str.hasChar c (elementRaw el) = false
  /\ forall a, In a (attributes el) -> Str.hasChar c (raw a) = false.
Proof.
  intros (pre & pr' & s' & m & tagStr & -> & Hm & Hg & _ & Hel) Hc.
  rewrite StrFacts.hasChar_app in Hc. apply orb_false_iff in Hc as [_ Hc].
  destruct (tag_match _ _ Hm) as (x & w & tail & Hg' & Hw & Hs).
  rewrite Hg in Hg'. injection Hg' as ->.
  rewrite Hs, StrFacts.hasChar_app in Hc. apply orb_false_iff in Hc as [Hc _].
  split; [now rewrite (parseElement_raw _ _ Hel)|].
  assert (Ht : Str.hasChar c (String x w) = false).
  { rewrite Hw in Hc.
    change (String "<" (String x w ++ tail))
      with (Str.single "<" ++ String x w ++ tail) in Hc.
    now apply StrFacts.hasChar_part in Hc. }
  unfold parseElement in Hel.
  apply bind_returns in Hel as (l & Hl & [= <-]). simpl.
  intros a Ha.
  destruct (parseAttributes_raw _ _ _ Hl a Ha) as (p1 & p2 & Hr).
  eapply StrFacts.hasChar_part. rewrite <- Hr.
  now apply StrFacts.hasChar_trim, StrFacts.hasChar_drop.
Qed.

End ParseFacts.

(** ** matches *)

Module MatchFacts.

Lemma withOwn_get (A : Type) (key : string) (found : JSValue -> A) (missing : A)
      (props : Props) :
  withOwn key found missing props
  = match getOwnProperty props key with
    | Some v => found v
    | None => missing
    end.
Proof.
  unfold getOwnProperty.
  induction props as [|[k v] props IH]; simpl; [reflexivity|].
  now destruct (String.eqb k key).
Qed.

Section Loop.

Variable X : Type.
Variable keyOf : nat -> X -> string.
Variable test : X -> string -> Outcome JSValue.
Variable attrs : list Attribute.

(** The loop over a list with computed keys is the loop over its
    keyed entries. *)
Lemma forEachKey_keyed (xs : list X) :
  forall i j filter,
    forEachKey keyOf test attrs xs i filter
    = forEachKey (fun _ e => fst e) (fun e => test (snd e)) attrs
                 (keyed keyOf i xs) j filter.
Proof.
  induction xs as [|x xs IH]; intros i j filter; simpl; [reflexivity|].
  destruct (findAttribute attrs (keyOf i x)) as [a|]; [|apply IH].
  destruct (truthy filter); [|apply IH].
  destruct (test x (value a)); simpl; [apply IH | reflexivity | reflexivity].
Qed.

End Loop.

Lemma keyed_map (X Y : Type) (f : X -> Y) (xs : list X) :
  forall i,
    keyed (fun i _ => decimal i) i (map f xs)
    = map (fun e => (fst e, f (snd e))) (keyed (fun i _ => decimal i) i xs).
Proof.
  induction xs as [|x xs IH]; intros i; simpl; [reflexivity|].
  now rewrite IH.
Qed.

Lemma forEachKey_map (X Y : Type) (f : X -> Y)
      (test : Y -> string -> Outcome JSValue) (attrs : list Attribute)
      (es : list (string * X)) :
  forall i filter,
    forEachKey (fun _ e => fst e) (fun e => test (snd e)) attrs
               (map (fun e => (fst e, f (snd e))) es) i filter
    = forEachKey (fun _ e => fst e) (fun e => test (f (snd e))) attrs es i filter.
Proof.
  induction es as [|[k x] es IH]; intros i filter; simpl; [reflexivity|].
  destruct (findAttribute attrs k) as [a|]; [|apply IH].
  destruct (truthy filter); [|apply IH].
  destruct (test (f x) (value a)); simpl; [apply IH | reflexivity | reflexivity].
Qed.

(** The loop computes the conjunction of its flag with the tests of the
    names that the element has, as long as these tests return. *)
Lemma forEachKey_and (Y : Type) (test : Y -> string -> Outcome JSValue)
      (attrs : list Attribute) (es : list (string * Y)) :
  forall i filter,
    (forall e a, In e es -> findAttribute attrs (fst e) = Some a ->
                 exists r, test (snd e) (value a) = Returns r) ->
    exists r,
      forEachKey (fun _ e => fst e) (fun e => test (snd e)) attrs es i filter
      = Returns r
      /\ truthy r
         = truthy filter
           && forallb (fun e => match findAttribute attrs (fst e) with
                                | None => true
                                | Some a => satisfied (test (snd e) (value a))
                                end) es.
Proof.
  induction es as [|e es IH]; intros i filter H; simpl.
  - exists filter. now rewrite andb_true_r.
  - assert (H' : forall e' a, In e' es -> findAttribute attrs (fst e') = Some a ->
                  exists r, test (snd e') (value a) = Returns r)
      by (intros e' a Hin; apply H; now right).
    destruct (findAttribute attrs (fst e)) as [a|] eqn:F.
    + destruct (H e a (or_introl eq_refl) F) as [r0 Hr0]. rewrite Hr0.
      destruct (truthy filter) eqn:T.
      * simpl. destruct (IH (S i) r0 H') as (r & -> & Hr). exists r.
        split; [reflexivity|]. exact Hr.
      * destruct (IH (S i) filter H') as (r & -> & Hr). exists r.
        split; [reflexivity|]. now rewrite Hr, T.
    + destruct (IH (S i) filter H') as (r & -> & Hr). exists r.
      split; [reflexivity|]. exact Hr.
Qed.

(** [matcher.attributes] of an object, read with [withOwn] in [matches]
    and with [getProperty] in the statements. *)
Lemma attributes_property (props : Props) :
  getProperty props "attributes"
  = match getOwnProperty props "attributes" with
    | Some v => v
    | None => JSUndefined
    end.
Proof. unfold getProperty. now destruct (getOwnProperty props "attributes"). Qed.

(** What [matches] computes for a structured matcher: its flag after
    the test of [nodeName], then the loop over the entries of
    [matcher.attributes]. *)
Lemma matches_structured (nodeName : string) (attrs : list Attribute)
      (value : string) (props : Props) :
  matches nodeName attrs value (JSObject props)
  = forEachKey (fun _ e => fst e)
      (fun e v => matches nodeName attrs v (snd e)) attrs
      (ownEntries (getProperty props "attributes")) 0
      (JSBool (nodeNameConjunct props nodeName)).
Proof.
  assert (Hf : (if truthy (getProperty props "nodeName")
                then jsAnd (JSBool true)
                       (JSBool (strictEqString (getProperty props "nodeName") nodeName))
                else JSBool true)
               = JSBool (nodeNameConjunct props nodeName)).
  { unfold nodeNameConjunct. now destruct (truthy (getProperty props "nodeName")). }
  cbn [matches]. rewrite Hf, withOwn_get, attributes_property.
  destruct (getOwnProperty props "attributes") as [a|]; [|reflexivity].
  destruct a as [| |b|n| |s|src|items|entries]; try reflexivity.
  - now destruct b.
  - cbn [truthy]. now destruct (Z.eqb n 0).
  - cbn [truthy ownEntries]. destruct (String.eqb s EmptyString) eqn:E.
    + apply String.eqb_eq in E. now subst s.
    + cbn [negb].
      rewrite (forEachKey_keyed _ _ _ _ 0 0), keyed_map.
      now rewrite (forEachKey_map (fun c => JSString (Str.single c))
                     (fun m v => matches nodeName attrs v m)).
  - cbn [truthy ownEntries]. now rewrite (forEachKey_keyed _ _ _ _ 0 0).
Qed.

End MatchFacts.

(** ** filterAttributes *)

Module FilterFacts.

Section FilterM.

Variable A : Type.
Variable keep : A -> Outcome bool.

(** When the callback returns on every item, [filter] returns the items
    on which it returned true. *)
Lemma filterM_returns (l : list A) :
  (forall x, In x l -> exists b, keep x = Returns b) ->
  exists l', filterM keep l = Returns l'
             /\ forall x, In x l' <-> In x l /\ keep x = Returns true.
Proof.
  induction l as [|y l IH]; intros H; simpl.
  - exists []. split; [reflexivity|]. intros x. simpl. tauto.
  - destruct (H y (or_introl eq_refl)) as [b Hb]. rewrite Hb. simpl.
    destruct IH as (l' & -> & Hl'); [intros x Hx; apply H; now right|].
    simpl. eexists. split; [reflexivity|].
    intros x. destruct b; simpl; rewrite Hl'.
    + split.
      * intros [<-|[Hx Hk]]; auto.
      * intros [[<-|Hx] Hk]; auto.
    + split.
      * intros [Hx Hk]; auto.
      * intros [[<-|Hx] Hk]; [congruence | auto].
Qed.

Lemma filterM_in (l l' : list A) :
  filterM keep l = Returns l' ->
  forall x, In x l -> keep x = Returns true -> In x l'.
Proof.
  revert l'. induction l as [|y l IH]; intros l'; simpl; [intros _ x []|].
  destruct (keep y) as [b| |] eqn:Hb; simpl; try discriminate.
  destruct (filterM keep l) as [more| |]; simpl; try discriminate.
  intros [= <-] x [<-|Hx] Hk.
  - rewrite Hk in Hb. injection Hb as <-. now left.
  - specialize (IH more eq_refl x Hx Hk). destruct b; [now right | exact IH].
Qed.

(** When the callback returns true on every item nothing is removed. *)
Lemma filterM_all (l : list A) :
  (forall x, In x l -> keep x = Returns true) -> filterM keep l = Returns l.
Proof.
  induction l as [|y l IH]; intros H; simpl; [reflexivity|].
  rewrite (H y (or_introl eq_refl)). simpl.
  rewrite IH; [reflexivity|]. intros x Hx. apply H. now right.
Qed.

End FilterM.

(** The callback returns true exactly when the value read is falsy or
    [matches] gives a falsy result. *)
Lemma keepAttribute_true (nodeName : string) (attributes : list Attribute)
      (attrs : Props) (attr : Attribute) :
  keepAttribute nodeName attributes attrs attr = Returns true
  <-> keptByFilter nodeName attributes attrs attr.
Proof.
  unfold keepAttribute, keptByFilter.
  destruct (truthy (getProperty attrs (ruleKey (name attr)))) eqn:T; simpl.
  - destruct (matches nodeName attributes (value attr)
                (getProperty attrs (ruleKey (name attr)))) as [r| |]; simpl.
    + split.
      * intros [= H]. right. exists r. split; [reflexivity|].
        now destruct (truthy r).
      * intros [H|(r' & [= <-] & ->)]; [discriminate | reflexivity].
    + split; [discriminate|]. intros [H|(r' & H & _)]; discriminate.
    + split; [discriminate|]. intros [H|(r' & H & _)]; discriminate.
  - split; auto.
Qed.

End FilterFacts.

(** * The claims *)

Import FilterFacts MatchFacts ParseFacts.

Example divDataX_parsed :
  parseElements Samples.divDataX = Returns [Samples.divElement].
Proof. vm_compute. reflexivity. Qed.

(** C1, as stated, fails: in [<input disabled>] filtered with
    [{disabled: ''}] the matcher [''] is registered under the name of the
    attribute and [matches] evaluates to [true] for it (the value of a
    bare attribute is the empty string), yet the attribute is kept,
    because the empty string is falsy and [if (!matcher)] returns first. *)
Lemma C1_counterexample :
  parseElements Samples.inputDisabled = Returns [Samples.inputElement]
  /\ getOwnProperty Samples.disabledEmpty (ruleKey (name Samples.disabled))
     = Some (JSString EmptyString)
  /\ matches "input" [Samples.disabled] (value Samples.disabled) (JSString EmptyString)
     = Returns (JSBool true)
  /\ ~ (keepAttribute "input" [Samples.disabled] Samples.disabledEmpty Samples.disabled
        = Returns true
        <-> keptAsStated "input" [Samples.disabled] Samples.disabledEmpty
                         Samples.disabled).
Proof.
  repeat split; try (vm_compute; reflexivity).
  intros [H _].
  assert (K : keepAttribute "input" [Samples.disabled] Samples.disabledEmpty
                Samples.disabled = Returns true) by (vm_compute; reflexivity).
  specialize (H K). vm_compute in H. discriminate H.
Qed.

(** C1, amended: for every html string and every rule mapping,
    [filterAttributes] keeps an attribute of a tokenized element if and
    only if the value read from [filterAttrs] under the attribute's
    alias-resolved name is falsy (there is none, or it is [false],
    [null], [0], [NaN] or the empty string), or [matches] gives a falsy
    result (false or undefined) for it; an attribute is dropped exactly
    when its matcher is truthy and [matches] evaluates to [true].
    [filterAttributes] returns when [matches] returns for every
    attribute with a truthy matcher. *)
Theorem C1_kept_iff_falsy_matcher_or_no_match
        (htmlString : string) (elements : list Element) (element : Element)
        (attrs : Props) :
  parseElements htmlString = Returns elements ->
  In element elements ->
  (forall attr, In attr (attributes element) ->
     truthy (getProperty attrs (ruleKey (name attr))) = true ->
     exists r, matches (nodeName element) (attributes element) (value attr)
                       (getProperty attrs (ruleKey (name attr))) = Returns r) ->
  exists filtered,
    filterAttributes element attrs = Returns filtered
    /\ forall attr,
         In attr (attributes filtered)
         <-> In attr (attributes element)
             /\ keptByFilter (nodeName element) (attributes element) attrs attr.
Proof.
  intros _ _ Hret. unfold filterAttributes.
  destruct (filterM_returns
              (keepAttribute (nodeName element) (attributes element) attrs)
              (attributes element)) as (l' & -> & Hl').
  - intros attr Hin. unfold keepAttribute.
    destruct (truthy (getProperty attrs (ruleKey (name attr)))) eqn:T; simpl.
    + destruct (Hret attr Hin T) as [r ->]. simpl. eauto.
    + eauto.
  - simpl. eexists. split; [reflexivity|]. simpl.
    intros attr. rewrite Hl', keepAttribute_true. reflexivity.
Qed.

Lemma C1_witness :
  exists filtered,
    filterAttributes Samples.divElement Samples.dataXTrue = Returns filtered
    /\ forall attr,
         In attr (attributes filtered)
         <-> In attr (attributes Samples.divElement)
             /\ keptByFilter (nodeName Samples.divElement)
                             (attributes Samples.divElement)
                             Samples.dataXTrue attr.
Proof.
  apply (@C1_kept_iff_falsy_matcher_or_no_match
           Samples.divDataX [Samples.divElement] Samples.divElement
           Samples.dataXTrue).
  - vm_compute. reflexivity.
  - simpl. left. reflexivity.
  - intros attr [<-|[]] _. exists (JSBool true). vm_compute. reflexivity.
Defined.

(** C2, as stated, fails: the result is not ['<div>t</div>']. *)
Lemma C2_counterexample :
  filterHtmlAttrs Samples.divDataX (Some Samples.dataXTrue)
  <> Returns "<div>t</div>".
Proof. vm_compute. discriminate. Qed.

(** C2, amended: [filterHtmlAttrs('<div data-x="y">t</div>',
    {'data-x': true})] returns exactly ['<div >t</div>']: the matcher
    [true] removes the attribute whatever its value is, and the space
    that separated the attribute from the tag name stays in front of
    the bracket. *)
Theorem C2_boolean_matcher_leaves_space :
  filterHtmlAttrs Samples.divDataX (Some Samples.dataXTrue)
  = Returns "<div >t</div>".
Proof. vm_compute. reflexivity. Qed.

(** C3, as stated, fails: the matcher [{nodeName: ''}] has a [nodeName]
    key that differs from the node name [div], so the conjunction of the
    claim is false, but [matches] returns [true]: [if (matcher.nodeName)]
    passes over an empty [nodeName]. *)
Lemma C3_counterexample :
  structuredAndAsStated "div" [] Samples.emptyNodeName = false
  /\ matches "div" [] "v" (JSObject Samples.emptyNodeName) = Returns (JSBool true)
  /\ satisfied (matches "div" [] "v" (JSObject Samples.emptyNodeName))
     <> structuredAndAsStated "div" [] Samples.emptyNodeName.
Proof. repeat split; vm_compute; (reflexivity || discriminate). Qed.

(** C3, amended: for every element (nodeName, attributes) and every
    structured (non-array object) matcher, [matches] returns a value
    whose truth is the logical AND of: (i) when [matcher.nodeName] is
    truthy (present and not the empty string), that it equals the
    element's node name; and (ii) for each name in the matcher's
    [attributes] mapping that exists on the element, that the found
    attribute's value satisfies the nested matcher, by [matches] itself;
    a named sub-attribute that does not exist on the element is skipped
    rather than making the whole match fail.  This is so whenever
    [matches] returns for the nested matchers of the names that exist
    (on a nested [null] it lets a TypeError escape). *)
Theorem C3_structured_matcher_is_conjunction
        (nodeName : string) (attrs : list Attribute) (current : string)
        (props : Props) :
  (forall entry attr,
      In entry (ownEntries (getProperty props "attributes")) ->
      findAttribute attrs (fst entry) = Some attr ->
      exists r, matches nodeName attrs (value attr) (snd entry) = Returns r) ->
  exists r,
    matches nodeName attrs current (JSObject props) = Returns r
    /\ truthy r = structuredAnd nodeName attrs props.
Proof.
  intros H. rewrite matches_structured.
  destruct (forEachKey_and (fun m v => matches nodeName attrs v m) attrs
              (ownEntries (getProperty props "attributes")) 0
              (JSBool (nodeNameConjunct props nodeName)) H) as (r & Hr & Ht).
  exists r. split; [exact Hr|]. rewrite Ht. reflexivity.
Qed.

Lemma C3_witness :
  exists r,
    matches "input" [Samples.typeText; Samples.classFoo] "foo"
            (JSObject Samples.inputTextMatcher) = Returns r
    /\ truthy r
       = structuredAnd "input" [Samples.typeText; Samples.classFoo]
                       Samples.inputTextMatcher.
Proof.
  apply (@C3_structured_matcher_is_conjunction
           "input" [Samples.typeText; Samples.classFoo] "foo"
           Samples.inputTextMatcher).
  intros entry attr [<-|[<-|[]]] F.
  - exists (JSBool true). vm_compute in F. injection F as <-.
    vm_compute. reflexivity.
  - vm_compute in F. discriminate F.
Defined.

(** ** Aliases *)

Ltac string_cases :=
  repeat match goal with
         | |- context [String.eqb ?a ?b] =>
             destruct (String.eqb_spec a b) as [?|?];
             [subst; try congruence; vm_compute; auto 20|]
         end.

(** Except for the two aliases and the inherited names, the key under
    which a rule is looked up is the name of the attribute. *)
Lemma ruleKey_verbatim (name : string) :
  ruleKey name = name \/ In name ("for" :: "class" :: inheritedNames).
Proof.
  unfold ruleKey, getProperty, getOwnProperty, attrMap, objectPrototype.
  cbn [withOwn existsb].
  string_cases. left. reflexivity.
Qed.

(** No key that [filterAttributes] asks for is inherited by the rules. *)
Lemma ruleKey_not_inherited (name : string) :
  objectPrototype (ruleKey name) = JSUndefined.
Proof.
  unfold ruleKey, getProperty, getOwnProperty, attrMap.
  cbn [withOwn].
  destruct (String.eqb_spec "for" name) as [<-|_]; [vm_compute; reflexivity|].
  destruct (String.eqb_spec "class" name) as [<-|_]; [vm_compute; reflexivity|].
  unfold objectPrototype at 2 3. cbn [existsb].
  string_cases. cbn [orb truthy toPropertyKey].
  unfold objectPrototype. cbn [existsb].
  string_cases. reflexivity.
Qed.

(** ** Splicing *)

Module SpliceFacts.

(** An element none of whose attributes is dropped comes back as it
    is, if its attribute texts have no [$]. *)
Lemma filterAttributes_all_kept (element : Element) (attrs : Props) :
  (forall attr, In attr (attributes element) ->
     keepAttribute (nodeName element) (attributes element) attrs attr
     = Returns true) ->
  Str.hasChar "$" (joinRaw (attributes element)) = false ->
  filterAttributes element attrs = Returns element.
Proof.
  intros Hk Hd. unfold filterAttributes.
  rewrite (filterM_all _ _ Hk). simpl.
  rewrite (StrFacts.replace_self _ _ Hd). now destruct element.
Qed.

Lemma spliceAll_fixed (attrs : Props) (elements : list Element) :
  forall html,
    (forall element, In element elements ->
       filterAttributes element attrs = Returns element
       /\ Str.hasChar "$" (elementRaw element) = false) ->
    spliceAll elements attrs html = Returns html.
Proof.
  induction elements as [|el els IH]; intros html H; simpl; [reflexivity|].
  destruct (H el (or_introl eq_refl)) as [-> Hd]. simpl.
  rewrite (StrFacts.replace_self _ _ Hd).
  apply IH. intros e He. apply H. now right.
Qed.

Lemma joinRaw_chars (c : ascii) (attributes : list Attribute) :
  Str.hasChar c " " = false ->
  (forall attr, In attr attributes -> Str.hasChar c (raw attr) = false) ->
  Str.hasChar c (joinRaw attributes) = false.
Proof.
  intros Hc H. unfold joinRaw. apply StrFacts.hasChar_join.
  - exact Hc.
  - intros p Hp. apply in_map_iff in Hp as (a & <- & Ha). now apply H.
Qed.

(** A text without [$] from which the rules drop nothing is returned
    as it is. *)
Lemma filterHtmlAttrs_fixed (t : string) (attrs : Props) :
  Str.hasChar "$" t = false ->
  (forall elements element attr,
      parseElements t = Returns elements ->
      In element elements -> In attr (attributes element) ->
      keepAttribute (nodeName element) (attributes element) attrs attr
      = Returns true) ->
  filterHtmlAttrs t (Some attrs) = Returns t.
Proof.
  intros Hd Hk. unfold filterHtmlAttrs.
  destruct (parseElements_total t) as [els Hels]. rewrite Hels. simpl.
  apply spliceAll_fixed. intros el Hin.
  destruct (fromOpeningTag_chars "$" (parseTags_origin _ _ _ Hels el Hin) Hd)
    as [Hraw Hattrs].
  split; [|exact Hraw].
  apply filterAttributes_all_kept.
  - intros attr Ha. exact (Hk els el attr Hels Hin Ha).
  - apply joinRaw_chars; [reflexivity | exact Hattrs].
Qed.

(** With no rule at all every attribute is kept. *)
Lemma keepAttribute_no_rule (nodeName : string) (attributes : list Attribute)
      (attr : Attribute) :
  keepAttribute nodeName attributes [] attr = Returns true.
Proof.
  unfold keepAttribute, getProperty. cbn [getOwnProperty withOwn].
  now rewrite ruleKey_not_inherited.
Qed.

(** [filterHtmlAttrs(s, {})] is [s] for every [s] without [$]. *)
Lemma filterHtmlAttrs_no_rule (s : string) :
  Str.hasChar "$" s = false -> filterHtmlAttrs s (Some []) = Returns s.
Proof.
  intros Hd. apply filterHtmlAttrs_fixed; [exact Hd|].
  intros. apply keepAttribute_no_rule.
Qed.

End SpliceFacts.

Import SpliceFacts.

(** C4: [filterHtmlAttrs(s, undefined)] is [s] for every [s], but
    [filterHtmlAttrs(s, {})] is not: for [<a title="$$">x</a>] it
    returns [<a title="$">x</a>], because the text of the tag is passed
    to [replace] as the replacement, where [$$] stands for one [$]. *)
Theorem C4_empty_rule_set_rewrites_dollars :
  (forall s, filterHtmlAttrs s None = Returns s)
  /\ filterHtmlAttrs Samples.titleDollars (Some []) = Returns Samples.titleDollar
  /\ filterHtmlAttrs Samples.titleDollars (Some []) <> Returns Samples.titleDollars.
Proof.
  split; [reflexivity|]. split; vm_compute; [reflexivity | discriminate].
Qed.

(** C5: the alias table is applied forward only: the rule for [for] is
    looked up as [htmlFor], the rule for [class] as [className], and a
    rule keyed [for] or [class] changes nothing for these attributes; but
    not all other names are looked up verbatim: the names that
    [attrMap] inherits are replaced as well, so that [{constructor:
    true}] leaves [<div constructor="x">t</div>] as it is. *)
Theorem C5_alias_lookup_and_inherited_names :
  ruleKey "for" = "htmlFor"
  /\ ruleKey "class" = "className"
  /\ (forall nodeName attributes attrs matcher v r,
        keepAttribute nodeName attributes (("for", matcher) :: attrs)
                      (mkAttribute "for" v r)
        = keepAttribute nodeName attributes attrs (mkAttribute "for" v r)
        /\ keepAttribute nodeName attributes (("class", matcher) :: attrs)
                         (mkAttribute "class" v r)
           = keepAttribute nodeName attributes attrs (mkAttribute "class" v r))
  /\ (forall name,
        ruleKey name = name \/ In name ("for" :: "class" :: inheritedNames))
  /\ ruleKey "constructor" = "function Object() { [native code] }"
  /\ filterHtmlAttrs Samples.divConstructor (Some Samples.constructorTrue)
     = Returns Samples.divConstructor.
Proof.
  split; [reflexivity|]. split; [reflexivity|].
  split; [intros; split; reflexivity|].
  split; [exact ruleKey_verbatim|].
  split; vm_compute; reflexivity.
Qed.

(** * Further properties *)

(** ** The tokenizer *)

Module TokenFacts.

Import Regex RegexFacts PatternFacts.

Lemma allIn_isNot (c : ascii) (w : string) :
  allIn (isNot c) w = true -> Str.hasChar c w = false.
Proof.
  induction w as [|d w IH]; simpl; [reflexivity|].
  intros H. apply andb_true_iff in H as [Hd Hw].
  unfold isNot in Hd. apply negb_true_iff in Hd. now rewrite Hd, IH.
Qed.

(** A match of the tag pattern in full: an opening bracket, one or more
    characters other than the closing bracket, and the closing bracket
    with or without a slash before it. *)
Lemma tag_match_shape (pr : option ascii) (s : string) (m : Match) :
  matchAt tagStringRegex pr s = Some m ->
  exists tagStr tail,
    group 1 m = Some tagStr
    /\ tagStr <> EmptyString
    /\ Str.hasChar ">" tagStr = false
    /\ (tail = ">" \/ tail = "/>")
    /\ whole m = "<" ++ tagStr ++ tail
    /\ s = whole m ++ endRest m.
Proof.
  intros H. apply matchAt_whole in H as (Hs & st1 & Ha & Hr & Hc).
  simpl in Ha.
  destruct Ha as (m1 & [E1 C1] & m2 & (mg & (c & w & Pc & Pw & Eg & Cg) & E2 & C2)
                     & m3 & Hopt & [E4 C4]).
  simpl in E1, C1.
  assert (Hcap : groups m = (1, String c w) :: []).
  { rewrite <- Hc, C4.
    assert (C3 : caps m3 = caps m2) by (destruct Hopt as [[_ C]| ->]; auto).
    rewrite C3, C2, Cg, C1, Eg.
    change (String c (w ++ rest mg)) with (String c w ++ rest mg).
    now rewrite consumed_app. }
  assert (Htail : exists tail, (tail = ">" \/ tail = "/>")
                               /\ rest m2 = tail ++ endRest m).
  { destruct Hopt as [[E3 _]| ->].
    - exists "/>". split; [now right|]. now rewrite E3, E4, Hr.
    - exists ">". split; [now left|]. now rewrite E4, Hr. }
  destruct Htail as (tail & Htl & Ht).
  exists (String c w), tail. unfold group. rewrite Hcap. simpl.
  split; [reflexivity|]. split; [discriminate|].
  split.
  { apply (allIn_isNot ">" (String c w)). simpl. now rewrite Pc, Pw. }
  split; [exact Htl|]. split; [|exact Hs].
  apply (app_inv_tail _ _ (endRest m)).
  rewrite <- Hs, E1, Eg, <- E2, Ht. simpl.
  now rewrite StrFacts.app_assoc.
Qed.

Ltac assoc_strings :=
  repeat first [rewrite StrFacts.app_assoc | progress simpl]; reflexivity.

Lemma value_double_quoted (v : string) :
  match strOr (strOr (Some v) None) None with
  | Some x => x
  | None => EmptyString
  end = v.
Proof. now destruct v. Qed.

Lemma value_single_quoted (v : string) :
  match strOr (strOr None (Some v)) None with
  | Some x => x
  | None => EmptyString
  end = v.
Proof. now destruct v. Qed.

Lemma value_bare (v : string) :
  match strOr (strOr None None) (Some v) with
  | Some x => x
  | None => EmptyString
  end = v.
Proof. now destruct v. Qed.

(** A match of the attribute pattern in full: the name and the value
    that the groups give, and the text of the match made of them. *)
Lemma attribute_match_text (pr : option ascii) (s : string) (g : Match) :
  matchAt attributeRegex pr s = Some g ->
  exists n,
    n <> EmptyString
    /\ strOr (group 1 g) (group 5 g) = Some n
    /\ (bareText n (valueOf g) (whole g) \/ valuedText n (valueOf g) (whole g)).
Proof.
  intros H. apply matchAt_whole in H as (Hs & st1 & Ha & Hr & Hc).
  unfold valueOf, group. rewrite <- Hc. clear Hc.
  simpl in Ha. destruct Ha as [Ha|Ha].
  - destruct Ha as (m1 & (mg & (c & w & Pc & Pw & Eg & Cg) & E1 & C1)
                       & m2 & [E2 C2] & Hv).
    simpl in Eg, Cg.
    assert (C2' : caps m2 = [(1, String c w)]).
    { rewrite C2, C1, Cg, Eg.
      change (String c (w ++ rest mg)) with (String c w ++ rest mg).
      now rewrite consumed_app. }
    assert (Hn : allIn notSpaceOrEquals (String c w) = true)
      by (simpl; now rewrite Pc, Pw).
    exists (String c w). split; [discriminate|].
    destruct Hv as [Hv|[Hv|Hv]].
    + destruct Hv as (a & [Ea Ca] & b & (x & (v & Pv & Ev & Cv) & Ex & Cx) & [Eb Cb]).
      assert (Hcaps : caps st1 = [(2, v); (1, String c w)]).
      { rewrite Cb, Cx, Cv, Ca, C2', Ev. now rewrite consumed_app. }
      rewrite Hcaps. cbn [capture Nat.eqb].
      split; [reflexivity|]. right. rewrite value_double_quoted.
      split; [exact Hn|]. left. split; [|now apply allIn_isNot].
      apply (app_inv_tail _ _ (endRest g)).
      rewrite <- Hs, Eg, <- E1, E2, Ea, Ev, <- Ex, Eb, Hr.
      unfold Str.quoted, Str.single. assoc_strings.
    + destruct Hv as (a & [Ea Ca] & b & (x & (v & Pv & Ev & Cv) & Ex & Cx) & [Eb Cb]).
      assert (Hcaps : caps st1 = [(3, v); (1, String c w)]).
      { rewrite Cb, Cx, Cv, Ca, C2', Ev. now rewrite consumed_app. }
      rewrite Hcaps. cbn [capture Nat.eqb].
      split; [reflexivity|]. right. rewrite value_single_quoted.
      split; [exact Hn|]. right. left. split; [|now apply allIn_isNot].
      apply (app_inv_tail _ _ (endRest g)).
      rewrite <- Hs, Eg, <- E1, E2, Ea, Ev, <- Ex, Eb, Hr.
      unfold Str.single. assoc_strings.
    + destruct Hv as (x & (v & Pv & Ev & Cv) & Ex & Cx).
      assert (Hcaps : caps st1 = [(4, v); (1, String c w)]).
      { rewrite Cx, Cv, C2', Ev. now rewrite consumed_app. }
      rewrite Hcaps. cbn [capture Nat.eqb].
      split; [reflexivity|]. right. rewrite value_bare.
      split; [exact Hn|]. right. right. split; [|exact Pv].
      apply (app_inv_tail _ _ (endRest g)).
      rewrite <- Hs, Eg, <- E1, E2, Ev, <- Ex, Hr. assoc_strings.
  - destruct Ha as (m1 & [E1 C1] & m2
                       & (mg & (c & w & Pc & Pw & Eg & Cg) & E2 & C2) & Hb).
    simpl in E1, C1.
    assert (C3 : caps st1 = caps m2) by (destruct Hb as [[_ C]|[_ C]]; auto).
    assert (E3 : rest st1 = rest m2) by (destruct Hb as [[E _]|[E _]]; auto).
    assert (Hcaps : caps st1 = [(5, String c w)]).
    { rewrite C3, C2, Cg, C1, Eg.
      change (String c (w ++ rest mg)) with (String c w ++ rest mg).
      now rewrite consumed_app. }
    rewrite Hcaps. cbn [capture Nat.eqb].
    exists (String c w). split; [discriminate|]. split; [reflexivity|].
    left. split; [reflexivity|]. split; [|simpl; now rewrite Pc, Pw].
    apply (app_inv_tail _ _ (endRest g)).
    rewrite <- Hs, <- E1, Eg, <- E2, <- E3, Hr. reflexivity.
Qed.

End TokenFacts.

(** ** What the tokenizer returns *)

Module ElementFacts.

Import Regex RegexFacts PatternFacts ParseFacts TokenFacts.

Ltac each_char c :=
  destruct c as [[] [] [] [] [] [] [] []]; reflexivity.

Lemma toLowerChar_idem (c : ascii) : toLowerChar (toLowerChar c) = toLowerChar c.
Proof. each_char c. Qed.

Lemma toLowerChar_space (c : ascii) :
  Ascii.eqb (toLowerChar c) " " = Ascii.eqb c " ".
Proof. each_char c. Qed.

Lemma toLowerChar_white (c : ascii) :
  isWhiteSpace (toLowerChar c) = isWhiteSpace c.
Proof. each_char c. Qed.

Lemma toLowerCase_idem (s : string) :
  Str.toLowerCase (Str.toLowerCase s) = Str.toLowerCase s.
Proof.
  induction s as [|c s IH]; simpl; [reflexivity|].
  now rewrite toLowerChar_idem, IH.
Qed.

Lemma hasChar_space_lower (s : string) :
  Str.hasChar " " (Str.toLowerCase s) = Str.hasChar " " s.
Proof.
  induction s as [|c s IH]; [reflexivity|].
  cbn [Str.toLowerCase Str.hasChar]. now rewrite toLowerChar_space, IH.
Qed.

Lemma allIn_notSpace_lower (s : string) :
  allIn notSpace (Str.toLowerCase s) = allIn notSpace s.
Proof.
  induction s as [|c s IH]; [reflexivity|].
  cbn [Str.toLowerCase allIn]. unfold notSpace at 1 3.
  now rewrite toLowerChar_white, IH.
Qed.

Lemma allIn_name (n : string) :
  allIn notSpaceOrEquals n = true -> allIn notSpace n = true.
Proof.
  induction n as [|c n IH]; [reflexivity|]. cbn [allIn].
  intros H. apply andb_true_iff in H as [Hc Hn]. rewrite (IH Hn), andb_true_r.
  unfold notSpaceOrEquals in Hc. unfold notSpace.
  apply negb_true_iff, orb_false_iff in Hc as [Hc _]. now rewrite Hc.
Qed.

(** The text before the first occurrence of a character does not have it. *)
Lemma take_before (c : ascii) (s : string) :
  Str.hasChar c
    (Str.take (match Str.indexOfChar c s with
               | Some i => i
               | None => String.length s
               end) s) = false.
Proof.
  induction s as [|d s IH]; [reflexivity|].
  cbn [Str.indexOfChar]. destruct (Ascii.eqb d c) eqn:E; [reflexivity|].
  destruct (Str.indexOfChar c s) as [i|]; cbn [Str.take String.length Str.hasChar];
    now rewrite E, IH.
Qed.

Lemma occursIn_refl (s : string) : occursIn s s.
Proof. exists EmptyString, EmptyString. now rewrite StrFacts.app_nil_r. Qed.

Lemma occursIn_trans (a b c : string) :
  occursIn a b -> occursIn b c -> occursIn a c.
Proof.
  intros (p1 & q1 & ->) (p2 & q2 & ->).
  exists (p2 ++ p1), (q1 ++ q2). assoc_strings.
Qed.

Lemma occursIn_drop (n : nat) (s : string) : occursIn (Str.drop n s) s.
Proof.
  exists (Str.take n s), EmptyString.
  now rewrite StrFacts.app_nil_r, StrFacts.take_drop.
Qed.

Lemma occursIn_trimStart (s : string) : occursIn (Str.trimStart s) s.
Proof.
  induction s as [|c s IH]; [apply occursIn_refl|]. simpl.
  destruct (isWhiteSpace c); [|apply occursIn_refl].
  destruct IH as (p & q & E). exists (String c p), q. simpl. now rewrite <- E.
Qed.

Lemma trimEnd_prefix (s : string) : exists post, s = Str.trimEnd s ++ post.
Proof.
  induction s as [|c s [post IH]]; [now exists EmptyString|]. simpl.
  destruct (Str.trimEnd s) as [|d t].
  - destruct (isWhiteSpace c).
    + now exists (String c s).
    + exists post. simpl. now rewrite IH at 1.
  - exists post. simpl. now rewrite IH at 1.
Qed.

Lemma occursIn_trimEnd (s : string) : occursIn (Str.trimEnd s) s.
Proof. destruct (trimEnd_prefix s) as [post E]. now exists EmptyString, post. Qed.

Lemma occursIn_trim (s : string) : occursIn (Str.trim s) s.
Proof.
  unfold Str.trim.
  exact (occursIn_trans (occursIn_trimEnd _) (occursIn_trimStart s)).
Qed.

(** Every attribute record is read from a text of the shape that the
    attribute pattern accepts. *)
Lemma parseAttributes_text (fuel : nat) :
  forall pr s l,
    parseAttributes fuel pr s = Returns l ->
    forall a, In a l -> readFromText a.
Proof.
  induction fuel as [|fuel IH]; intros pr s l; simpl; [discriminate|].
  destruct (exec attributeRegex pr s) as [g|] eqn:E.
  - apply exec_sound in E as (sk & pr' & s' & _ & E).
    destruct (attribute_match_text _ _ E) as (n & Hn & -> & Ht).
    intros H. apply bind_returns in H as (more & Hm & [= <-]).
    intros a [<-|Ha]; [|exact (IH _ _ _ Hm a Ha)].
    exists n, (valueOf g). repeat split; auto.
  - intros [= <-] a [].
Qed.

(** An element and the match it is made of. *)
Lemma element_origin (s : string) (els : list Element) (el : Element) :
  parseElements s = Returns els ->
  In el els ->
  exists tagStr tail l,
    occursIn ("<" ++ tagStr ++ tail) s
    /\ tagStr <> EmptyString
    /\ isEndTag tagStr = false
    /\ Str.hasChar ">" tagStr = false
    /\ (tail = ">" \/ tail = "/>")
    /\ parseAttributes
         (S (String.length (Str.trim (Str.drop
            (match Str.indexOfChar " " tagStr with
             | Some i => i
             | None => String.length tagStr
             end + 1) tagStr))))
         None
         (Str.trim (Str.drop
            (match Str.indexOfChar " " tagStr with
             | Some i => i
             | None => String.length tagStr
             end + 1) tagStr)) = Returns l
    /\ el = mkElement
              (Str.toLowerCase
                 (Str.take (match Str.indexOfChar " " tagStr with
                            | Some i => i
                            | None => String.length tagStr
                            end) tagStr))
              l ("<" ++ tagStr ++ tail).
Proof.
  intros Hels Hin.
  destruct (parseTags_origin _ _ _ Hels el Hin)
    as (pre & pr' & s' & m & tagStr & -> & Hm & Hg & Hend & Hel).
  destruct (tag_match_shape _ _ Hm) as (t & tail & Hg' & Hne & Hgt & Htl & Hw & Hs).
  rewrite Hg in Hg'. injection Hg' as ->.
  unfold parseElement in Hel.
  apply bind_returns in Hel as (l & Hl & [= <-]).
  exists t, tail, l. rewrite Hw. repeat split; auto.
  exists pre, (endRest m). now rewrite Hs, Hw.
Qed.

End ElementFacts.

Import ElementFacts TokenFacts.

(** X1: the raw text of every element that [parseElements] returns
    occurs in the input, and is an opening bracket, a text without a
    closing bracket, and a closing bracket; the raw text of each of its
    attributes occurs in the raw text of the element. *)
Theorem tokenized_raw_texts_are_pieces_of_the_input
        (htmlString : string) (elements : list Element) (element : Element) :
  parseElements htmlString = Returns elements ->
  In element elements ->
  occursIn (elementRaw element) htmlString
  /\ (exists body,
        elementRaw element = "<" ++ body ++ ">"
        /\ body <> EmptyString
        /\ Str.hasChar ">" body = false)
  /\ forall attr, In attr (attributes element) ->
                  occursIn (raw attr) (elementRaw element).
Proof.
  intros Hels Hin.
  destruct (@element_origin htmlString elements element Hels Hin)
    as (tagStr & tail & l & Hocc & Hne & _ & Hgt & Htl & Hl & ->).
  cbn [elementRaw attributes]. split; [exact Hocc|]. split.
  - destruct Htl as [-> | ->].
    + exists tagStr. auto.
    + exists (tagStr ++ "/"). split; [assoc_strings|]. split.
      * destruct tagStr; [congruence | discriminate].
      * rewrite StrFacts.hasChar_app, Hgt. reflexivity.
  - intros attr Ha.
    destruct (ParseFacts.parseAttributes_raw _ _ _ Hl attr Ha) as (p & q & E).
    assert (H1 : occursIn (raw attr) tagStr).
    { eapply occursIn_trans; [exists p, q; exact E|].
      eapply occursIn_trans; [apply occursIn_trim | apply occursIn_drop]. }
    eapply occursIn_trans; [exact H1|]. now exists "<", tail.
Qed.

Lemma tokenized_raw_texts_witness :
  occursIn (elementRaw Samples.divElement) Samples.divDataX
  /\ (exists body,
        elementRaw Samples.divElement = "<" ++ body ++ ">"
        /\ body <> EmptyString
        /\ Str.hasChar ">" body = false)
  /\ forall attr, In attr (attributes Samples.divElement) ->
                  occursIn (raw attr) (elementRaw Samples.divElement).
Proof.
  apply (@tokenized_raw_texts_are_pieces_of_the_input
           Samples.divDataX [Samples.divElement] Samples.divElement).
  - vm_compute. reflexivity.
  - left. reflexivity.
Defined.

(** X2: in every element that [parseElements] returns the node name is
    in lower case and has no space, and the name of every attribute is
    in lower case, is not empty and has no white space. *)
Theorem tokenized_names_are_lower_case
        (htmlString : string) (elements : list Element) (element : Element) :
  parseElements htmlString = Returns elements ->
  In element elements ->
  Str.toLowerCase (nodeName element) = nodeName element
  /\ Str.hasChar " " (nodeName element) = false
  /\ forall attr, In attr (attributes element) ->
       Str.toLowerCase (name attr) = name attr
       /\ name attr <> EmptyString
       /\ Regex.allIn notSpace (name attr) = true.
Proof.
  intros Hels Hin.
  destruct (@element_origin htmlString elements element Hels Hin)
    as (tagStr & tail & l & _ & _ & _ & _ & _ & Hl & ->).
  cbn [nodeName attributes].
  split; [apply toLowerCase_idem|].
  split; [rewrite hasChar_space_lower; apply take_before|].
  intros attr Ha.
  destruct (parseAttributes_text _ _ _ Hl attr Ha) as (n & v & Hn & -> & _ & Ht).
  split; [apply toLowerCase_idem|]. split.
  - destruct n; [congruence | discriminate].
  - rewrite allIn_notSpace_lower.
    destruct Ht as [(_ & _ & H)|[H _]]; [exact H | now apply allIn_name].
Qed.

Lemma tokenized_names_witness :
  Str.toLowerCase (nodeName Samples.divElement) = nodeName Samples.divElement
  /\ Str.hasChar " " (nodeName Samples.divElement) = false
  /\ forall attr, In attr (attributes Samples.divElement) ->
       Str.toLowerCase (name attr) = name attr
       /\ name attr <> EmptyString
       /\ Regex.allIn notSpace (name attr) = true.
Proof.
  apply (@tokenized_names_are_lower_case
           Samples.divDataX [Samples.divElement] Samples.divElement).
  - vm_compute. reflexivity.
  - left. reflexivity.
Defined.

(** X3: every attribute record that [parseElements] returns can be
    put together again from its parts: its raw text is a name alone
    (then the value is empty), or a name, [=] and the value in double
    quotes, in single quotes or bare; the name of the record is that name
    in lower case, and the value of the record is the value without the
    quotes, which it does not contain. *)
Theorem tokenized_attribute_is_read_from_its_text
        (htmlString : string) (elements : list Element) (element : Element)
        (attr : Attribute) :
  parseElements htmlString = Returns elements ->
  In element elements ->
  In attr (attributes element) ->
  readFromText attr.
Proof.
  intros Hels Hin Ha.
  destruct (@element_origin htmlString elements element Hels Hin)
    as (tagStr & tail & l & _ & _ & _ & _ & _ & Hl & ->).
  exact (parseAttributes_text _ _ _ Hl attr Ha).
Qed.

Lemma tokenized_attribute_witness : readFromText Samples.dataX.
Proof.
  apply (@tokenized_attribute_is_read_from_its_text
           Samples.divDataX [Samples.divElement] Samples.divElement Samples.dataX).
  - vm_compute. reflexivity.
  - left. reflexivity.
  - left. reflexivity.
Defined.

(** ** What matches returns *)

Module VerdictFacts.

(** Induction on a value and, with it, on the values inside it. *)
Lemma JSValue_nested_ind (P : JSValue -> Prop) :
  P JSUndefined -> P JSNull -> (forall b, P (JSBool b)) ->
  (forall n, P (JSNumber n)) -> P JSNaN -> (forall s, P (JSString s)) ->
  (forall src, P (JSFunction src)) ->
  (forall items, Forall P items -> P (JSArray items)) ->
  (forall props, Forall (fun e => P (snd e)) props -> P (JSObject props)) ->
  forall v, P v.
Proof.
  intros Hu Hn Hb Hz Hnan Hs Hf Ha Ho.
  fix IH 1. intros [ | |b|n| |s|src|items|props].
  - exact Hu.
  - exact Hn.
  - apply Hb.
  - apply Hz.
  - exact Hnan.
  - apply Hs.
  - apply Hf.
  - apply Ha. induction items as [|x items IHi]; constructor;
      [apply IH | exact IHi].
  - apply Ho. induction props as [|[k x] props IHp]; constructor;
      [apply IH | exact IHp].
Qed.

Lemma getOwnProperty_In (props : Props) (key : string) (v : JSValue) :
  getOwnProperty props key = Some v -> In (key, v) props.
Proof.
  unfold getOwnProperty.
  induction props as [|[k x] props IH]; simpl; [discriminate|].
  destruct (String.eqb_spec k key) as [->|_].
  - intros [= ->]. now left.
  - intros H. right. now apply IH.
Qed.

Lemma keyed_In (X : Type) (keyOf : nat -> X -> string) (xs : list X) :
  forall i e, In e (keyed keyOf i xs) -> In (snd e) xs.
Proof.
  induction xs as [|x xs IH]; intros i e; simpl; [tauto|].
  intros [<-|H]; [now left | right; exact (IH _ _ H)].
Qed.

(** The loop returns a verdict when its tests do. *)
Lemma forEachKey_verdict (Y : Type) (test : Y -> string -> Outcome JSValue)
      (attrs : list Attribute) (es : list (string * Y)) :
  forall i filter,
    (forall e v, In e es ->
                 exists r, test (snd e) v = Returns r /\ isVerdict r) ->
    isVerdict filter ->
    exists r,
      forEachKey (fun _ e => fst e) (fun e => test (snd e)) attrs es i filter
      = Returns r
      /\ isVerdict r.
Proof.
  induction es as [|e es IH]; intros i filter H Hf; simpl; [eauto|].
  assert (H' : forall e' v, In e' es ->
                 exists r, test (snd e') v = Returns r /\ isVerdict r)
    by (intros e' v Hin; apply H; now right).
  destruct (findAttribute attrs (fst e)) as [a|]; [|now apply IH].
  destruct (truthy filter); [|now apply IH].
  destruct (H e (value a) (or_introl eq_refl)) as (r0 & -> & Hr0). simpl.
  now apply IH.
Qed.

(** With a falsy flag the loop tests nothing. *)
Lemma forEachKey_falsy (X : Type) (keyOf : nat -> X -> string)
      (test : X -> string -> Outcome JSValue) (attrs : list Attribute)
      (xs : list X) :
  forall i filter,
    truthy filter = false ->
    forEachKey keyOf test attrs xs i filter = Returns filter.
Proof.
  induction xs as [|x xs IH]; intros i filter Hf; simpl; [reflexivity|].
  destruct (findAttribute attrs (keyOf i x)); [rewrite Hf|]; now apply IH.
Qed.

Lemma faultFree_verdict (m : JSValue) :
  returnsVerdict m /\ Forall (fun e => returnsVerdict (snd e)) (ownEntries m).
Proof.
  induction m as [ | |b|n| |s|src|items IH|props IH] using JSValue_nested_ind;
    try (split; [intros nodeName attrs v _; simpl; eexists; split;
                   [reflexivity | unfold isVerdict; eauto]
                | constructor]).
  - split; [intros nodeName attrs v H; discriminate H | constructor].
  - split.
    + intros nodeName attrs v _. simpl. eexists. split; [reflexivity|].
      right. eauto.
    + cbn [ownEntries]. apply Forall_forall. intros e He.
      apply keyed_In, in_map_iff in He as (c & <- & _).
      intros nodeName attrs v _. simpl. eexists. split; [reflexivity|].
      right. eauto.
  - split.
    + intros nodeName attrs v _. simpl. eexists. split; [reflexivity|].
      right. eauto.
    + cbn [ownEntries]. apply Forall_forall. intros e He.
      apply keyed_In in He. rewrite Forall_forall in IH.
      now apply IH.
  - assert (Hall : Forall (fun e => returnsVerdict (snd e)) props).
    { apply Forall_forall. intros e He. rewrite Forall_forall in IH.
      now apply IH. }
    split; [|exact Hall].
    intros nodeName attrs v Hff. rewrite matches_structured.
    apply (forEachKey_verdict (fun m v => matches nodeName attrs v m)).
    + intros e v' He.
      cbn [faultFree] in Hff. rewrite withOwn_get in Hff.
      rewrite attributes_property in He.
      destruct (getOwnProperty props "attributes") as [a|] eqn:Ga;
        [|destruct He].
      apply getOwnProperty_In in Ga. rewrite Forall_forall in IH.
      destruct (IH _ Ga) as [_ Hent]. cbn [snd] in Hent.
      rewrite Forall_forall in Hent. apply (Hent e He).
      destruct a as [| |b|n| |s|src|items|entries]; try destruct He.
      * cbn [ownEntries] in He.
        apply keyed_In, in_map_iff in He as (c & <- & _). reflexivity.
      * rewrite forallb_forall in Hff. apply Hff. now apply keyed_In in He.
      * rewrite forallb_forall in Hff. now apply Hff.
    + right. eauto.
Qed.

End VerdictFacts.

(** ** Rules *)

Module RuleFacts.

Import Regex RegexFacts VerdictFacts.

Lemma filterM_filter (A : Type) (keep : A -> Outcome bool) (l l' : list A) :
  filterM keep l = Returns l' ->
  l' = filter (fun x => match keep x with Returns b => b | _ => false end) l.
Proof.
  revert l'. induction l as [|x l IH]; intros l'; simpl; [now intros [= <-]|].
  destruct (keep x) as [b| |]; simpl; try discriminate.
  destruct (filterM keep l) as [more| |]; simpl; try discriminate.
  intros [= <-]. rewrite (IH more eq_refl). now destruct b.
Qed.

Lemma filterM_ext (A : Type) (keep keep' : A -> Outcome bool) (l : list A) :
  (forall x, In x l -> keep x = keep' x) -> filterM keep l = filterM keep' l.
Proof.
  induction l as [|x l IH]; intros H; simpl; [reflexivity|].
  rewrite (H x (or_introl eq_refl)), IH; [reflexivity|].
  intros y Hy. apply H. now right.
Qed.

(** With rules whose truthy matchers are free of faults the callback
    returns. *)
Lemma keepAttribute_returns (nodeName : string) (attributes : list Attribute)
      (attrs : Props) (attr : Attribute) :
  (forall k v, In (k, v) attrs -> truthy v = false \/ faultFree v = true) ->
  exists b, keepAttribute nodeName attributes attrs attr = Returns b.
Proof.
  intros H. unfold keepAttribute.
  destruct (truthy (getProperty attrs (ruleKey (name attr)))) eqn:T;
    simpl; [|eauto].
  unfold getProperty in *.
  destruct (getOwnProperty attrs (ruleKey (name attr))) as [v|] eqn:G.
  - destruct (H _ _ (getOwnProperty_In _ _ G)) as [F|F]; [congruence|].
    destruct (faultFree_verdict v) as [Hv _].
    destruct (Hv nodeName attributes (value attr) F) as (r & -> & _).
    simpl. eauto.
  - rewrite ruleKey_not_inherited in T. discriminate T.
Qed.

Lemma spliceAll_returns (attrs : Props) (elements : list Element) :
  (forall element, exists filtered,
      filterAttributes element attrs = Returns filtered) ->
  forall html, exists t, spliceAll elements attrs html = Returns t.
Proof.
  intros H. induction elements as [|el els IH]; intros html; simpl; [eauto|].
  destruct (H el) as [f ->]. simpl. apply IH.
Qed.

Lemma spliceAll_ext (attrs attrs' : Props) (elements : list Element) :
  (forall element, In element elements ->
     filterAttributes element attrs = filterAttributes element attrs') ->
  forall html, spliceAll elements attrs html = spliceAll elements attrs' html.
Proof.
  induction elements as [|el els IH]; intros H html; simpl; [reflexivity|].
  rewrite (H el (or_introl eq_refl)).
  destruct (filterAttributes el attrs') as [f| |]; simpl; try reflexivity.
  apply IH. intros e He. apply H. now right.
Qed.

(** The tag pattern matches only where there are both brackets. *)
Lemma exec_tag_brackets (pr : option ascii) (s : string) (m : Match) :
  exec tagStringRegex pr s = Some m ->
  Str.hasChar "<" s = true /\ Str.hasChar ">" s = true.
Proof.
  intros H. apply exec_sound in H as (sk & pr' & s' & -> & H).
  destruct (TokenFacts.tag_match_shape _ _ H)
    as (t & tail & _ & _ & _ & Htl & Hw & ->).
  rewrite Hw, !StrFacts.hasChar_app. cbn [Str.hasChar].
  rewrite Ascii.eqb_refl. split; [now rewrite orb_true_r|].
  destruct Htl as [-> | ->]; cbn; now rewrite !orb_true_r.
Qed.

(** A name in lower case is looked up under itself or under one of the
    four keys that [attrMap] gives. *)
Lemma ruleKey_of_lower (name : string) :
  Str.toLowerCase name = name ->
  (ruleKey name = name
   /\ ~ In name ["for"; "class"; "constructor"; "__proto__"])
  \/ In (ruleKey name)
        ["htmlFor"; "className";
         "function Object() { [native code] }"; "[object Object]"].
Proof.
  intros Hl.
  destruct (ruleKey_verbatim name) as [E|Hin].
  - destruct (in_dec string_dec name ["for"; "class"; "constructor"; "__proto__"])
      as [Hn|Hn]; [|left; auto].
    right. simpl in Hn.
    destruct Hn as [<-|[<-|[<-|[<-|[]]]]]; vm_compute; auto.
  - right. simpl in Hin.
    repeat (destruct Hin as [<-|Hin];
            [first [vm_compute; now auto | vm_compute in Hl; discriminate Hl]|]).
    destruct Hin.
Qed.

(** No attribute name in lower case leads to a dead key. *)
Lemma deadKey_never_asked (k name : string) :
  deadKey k -> Str.toLowerCase name = name -> ruleKey name <> k.
Proof.
  intros Hd Hl E.
  destruct (ruleKey_of_lower Hl) as [[Ev Hn]|Hin].
  - rewrite Ev in E. subst k. destruct Hd as [Hd|[Hd _]]; auto.
  - rewrite E in Hin. destruct Hd as [Hd|[_ Hd]]; [|auto].
    simpl in Hd, Hin.
    destruct Hd as [<-|[<-|[<-|[<-|[]]]]];
      repeat (destruct Hin as [Hin|Hin]; [discriminate Hin|]); destruct Hin.
Qed.

(** A rule under a key that is not asked for changes nothing. *)
Lemma keepAttribute_other_key (nodeName : string) (attributes : list Attribute)
      (attrs : Props) (k : string) (matcher : JSValue) (attr : Attribute) :
  ruleKey (name attr) <> k ->
  keepAttribute nodeName attributes ((k, matcher) :: attrs) attr
  = keepAttribute nodeName attributes attrs attr.
Proof.
  intros H. unfold keepAttribute, getProperty, getOwnProperty. cbn [withOwn].
  destruct (String.eqb_spec k (ruleKey (name attr))) as [E|_]; [|reflexivity].
  now subst k.
Qed.

End RuleFacts.

Import VerdictFacts RuleFacts.

(** X4: when [filterAttributes] returns, the node name is the one of
    the element and the attributes are those the callback keeps, in the
    order they had: nothing is added, nothing is moved. *)
Theorem filterAttributes_keeps_the_order
        (element filtered : Element) (attrs : Props) :
  filterAttributes element attrs = Returns filtered ->
  nodeName filtered = nodeName element
  /\ attributes filtered = filter (keptBy element attrs) (attributes element).
Proof.
  unfold filterAttributes. intros H.
  apply bind_returns in H as (l' & Hl' & [= <-]).
  split; [reflexivity|]. exact (filterM_filter _ _ Hl').
Qed.

Lemma filterAttributes_keeps_the_order_witness :
  nodeName (mkElement "div" [Samples.attrB2] Samples.divTwoSpaces)
  = nodeName Samples.divTwoSpacesElement
  /\ attributes (mkElement "div" [Samples.attrB2] Samples.divTwoSpaces)
     = filter (keptBy Samples.divTwoSpacesElement Samples.aTrue)
              (attributes Samples.divTwoSpacesElement).
Proof.
  apply (@filterAttributes_keeps_the_order
           Samples.divTwoSpacesElement
           (mkElement "div" [Samples.attrB2] Samples.divTwoSpaces)
           Samples.aTrue).
  vm_compute. reflexivity.
Defined.

(** X5: for a structured matcher the result of [matches] does not
    depend on the value of the attribute that the rule governs, only on
    the element. *)
Theorem structured_matcher_ignores_the_value
        (nodeName : string) (attrs : list Attribute) (v v' : string)
        (props : Props) :
  matches nodeName attrs v (JSObject props)
  = matches nodeName attrs v' (JSObject props).
Proof.
  rewrite (matches_structured nodeName attrs v props).
  rewrite (matches_structured nodeName attrs v' props).
  reflexivity.
Qed.

(** X6: a structured matcher whose [nodeName] is truthy and is not the
    node name of the element gives [false] without looking at its
    [attributes] mapping: no nested matcher is evaluated, so none can
    fault. *)
Theorem structured_matcher_stops_at_other_node_name
        (nodeName : string) (attrs : list Attribute) (v : string)
        (props : Props) :
  truthy (getProperty props "nodeName") = true ->
  strictEqString (getProperty props "nodeName") nodeName = false ->
  matches nodeName attrs v (JSObject props) = Returns (JSBool false).
Proof.
  intros Ht Hne. rewrite matches_structured.
  unfold nodeNameConjunct. rewrite Ht, Hne.
  now apply forEachKey_falsy.
Qed.

Lemma structured_matcher_stops_witness :
  matches "div" [Samples.typeText] "v"
          (JSObject [("nodeName", JSString "input");
                     ("attributes", JSObject [("type", JSNull)])])
  = Returns (JSBool false).
Proof.
  apply structured_matcher_stops_at_other_node_name; vm_compute; reflexivity.
Defined.

(** X7: on a matcher that is not [null] and has no [null] among the
    nested matchers of its [attributes] mappings, [matches] returns for
    every element and value, and what it returns is a boolean or
    undefined. *)
Theorem matches_returns_a_verdict
        (nodeName : string) (attrs : list Attribute) (v : string)
        (matcher : JSValue) :
  faultFree matcher = true ->
  exists r, matches nodeName attrs v matcher = Returns r /\ isVerdict r.
Proof.
  intros H. destruct (faultFree_verdict matcher) as [Hv _]. now apply Hv.
Qed.

Lemma matches_returns_a_verdict_witness :
  exists r,
    matches "input" [Samples.typeText; Samples.classFoo] "foo"
            (JSObject Samples.inputTextMatcher) = Returns r
    /\ isVerdict r.
Proof.
  apply matches_returns_a_verdict. vm_compute. reflexivity.
Defined.

(** X8: [filterHtmlAttrs] returns a string, for every input, when
    every rule has a matcher that is falsy or free of [null]: no
    TypeError, and both loops of the tokenizer end. *)
Theorem filterHtmlAttrs_returns
        (htmlString : string) (attrs : Props) :
  (forall k v, In (k, v) attrs -> truthy v = false \/ faultFree v = true) ->
  exists t, filterHtmlAttrs htmlString (Some attrs) = Returns t.
Proof.
  intros H. unfold filterHtmlAttrs.
  destruct (parseElements_total htmlString) as [els ->]. simpl.
  apply spliceAll_returns. intros el. unfold filterAttributes.
  destruct (filterM_returns
              (keepAttribute (nodeName el) (attributes el) attrs)
              (attributes el)) as (l' & -> & _).
  - intros attr _. now apply keepAttribute_returns.
  - simpl. eauto.
Qed.

Lemma filterHtmlAttrs_returns_witness :
  exists t, filterHtmlAttrs Samples.divDataX (Some Samples.dataXTrue) = Returns t.
Proof.
  apply filterHtmlAttrs_returns.
  intros k v [[= <- <-]|[]]. right. reflexivity.
Defined.

(** X9: an input without an opening bracket, or without a closing
    bracket, has no element and is returned as it is, whatever the rules
    are. *)
Theorem text_without_brackets_is_unchanged
        (htmlString : string) (filterAttrs : option Props) :
  Str.hasChar "<" htmlString = false \/ Str.hasChar ">" htmlString = false ->
  parseElements htmlString = Returns []
  /\ filterHtmlAttrs htmlString filterAttrs = Returns htmlString.
Proof.
  intros H.
  assert (E : parseElements htmlString = Returns []).
  { unfold parseElements. cbn [parseTags].
    destruct (Regex.exec tagStringRegex None htmlString) as [m|] eqn:X;
      [|reflexivity].
    apply exec_tag_brackets in X as [X1 X2].
    destruct H as [H|H]; congruence. }
  split; [exact E|].
  destruct filterAttrs as [attrs|]; [|reflexivity].
  unfold filterHtmlAttrs. now rewrite E.
Qed.

Lemma text_without_brackets_witness :
  parseElements "a < b" = Returns []
  /\ filterHtmlAttrs "a < b" (Some Samples.aTrue) = Returns "a < b".
Proof.
  apply text_without_brackets_is_unchanged. right. reflexivity.
Defined.

(** X10: with the empty rule set every input without [$] is returned
    as it is. *)
Theorem empty_rule_set_is_identity_without_dollar (htmlString : string) :
  Str.hasChar "$" htmlString = false ->
  filterHtmlAttrs htmlString (Some []) = Returns htmlString.
Proof.
  intros Hd. apply filterHtmlAttrs_fixed; [exact Hd|].
  intros. apply keepAttribute_no_rule.
Qed.

Lemma empty_rule_set_witness :
  filterHtmlAttrs Samples.divDataX (Some []) = Returns Samples.divDataX.
Proof.
  apply empty_rule_set_is_identity_without_dollar. vm_compute. reflexivity.
Defined.

(** X11: a rule under a dead key has no effect on any input: the keys
    [for], [class], [constructor] and [__proto__] are replaced before
    the lookup, and a key with a capital letter other than [htmlFor] and
    [className] is the image of no attribute name, the names being in
    lower case. *)
Theorem rule_under_dead_key_changes_nothing
        (k : string) (matcher : JSValue) (attrs : Props) (htmlString : string) :
  deadKey k ->
  filterHtmlAttrs htmlString (Some ((k, matcher) :: attrs))
  = filterHtmlAttrs htmlString (Some attrs).
Proof.
  intros Hd. unfold filterHtmlAttrs.
  destruct (parseElements htmlString) as [els| |] eqn:Hels; try reflexivity.
  simpl. apply spliceAll_ext. intros el Hin.
  assert (Hk : forall attr, In attr (attributes el) ->
            keepAttribute (nodeName el) (attributes el) ((k, matcher) :: attrs) attr
            = keepAttribute (nodeName el) (attributes el) attrs attr).
  { intros attr Ha. apply keepAttribute_other_key.
    apply deadKey_never_asked; [exact Hd|].
    destruct (@element_origin htmlString els el Hels Hin)
      as (tagStr & tail & l & _ & _ & _ & _ & _ & Hl & ->).
    destruct (parseAttributes_text _ _ _ Hl attr Ha) as (n & v & _ & -> & _).
    apply toLowerCase_idem. }
  unfold filterAttributes. now rewrite (filterM_ext _ _ _ Hk).
Qed.

Lemma rule_under_dead_key_witness :
  filterHtmlAttrs Samples.divDataX (Some (("Data-X", JSBool true) :: Samples.dataXTrue))
  = filterHtmlAttrs Samples.divDataX (Some Samples.dataXTrue).
Proof.
  apply rule_under_dead_key_changes_nothing.
  right. split; [vm_compute; discriminate|].
  simpl. intros [H|[H|[H|[H|[]]]]]; discriminate H.
Defined.

(** ** Faults *)

Module FaultFacts.

Lemma forEachKey_withinBound (Y : Type) (test : Y -> string -> Outcome JSValue)
      (attrs : list Attribute) (es : list (string * Y)) :
  forall i filter,
    (forall e v, In e es -> test (snd e) v <> FuelExhausted) ->
    forEachKey (fun _ e => fst e) (fun e => test (snd e)) attrs es i filter
    <> FuelExhausted.
Proof.
  induction es as [|e es IH]; intros i filter H; simpl; [discriminate|].
  assert (H' : forall e' v, In e' es -> test (snd e') v <> FuelExhausted)
    by (intros e' v Hin; apply H; now right).
  destruct (findAttribute attrs (fst e)) as [a|]; [|now apply IH].
  destruct (truthy filter); [|now apply IH].
  pose proof (H e (value a) (or_introl eq_refl)) as Ht.
  destruct (test (snd e) (value a)); simpl;
    [now apply IH | discriminate | congruence].
Qed.

Lemma matches_withinBound (m : JSValue) :
  withinBound m /\ Forall (fun e => withinBound (snd e)) (ownEntries m).
Proof.
  induction m as [ | |b|n| |s|src|items IH|props IH] using JSValue_nested_ind;
    try (split; [intros nodeName attrs v; simpl; discriminate | constructor]).
  - split; [intros nodeName attrs v; simpl; discriminate|].
    cbn [ownEntries]. apply Forall_forall. intros e He.
    apply keyed_In, in_map_iff in He as (c & <- & _).
    intros nodeName attrs v. simpl. discriminate.
  - split; [intros nodeName attrs v; simpl; discriminate|].
    cbn [ownEntries]. apply Forall_forall. intros e He.
    apply keyed_In in He. rewrite Forall_forall in IH. now apply IH.
  - assert (Hall : Forall (fun e => withinBound (snd e)) props).
    { apply Forall_forall. intros e He. rewrite Forall_forall in IH.
      now apply IH. }
    split; [|exact Hall].
    intros nodeName attrs v. rewrite matches_structured.
    apply (forEachKey_withinBound (fun m v => matches nodeName attrs v m)).
    intros e v' He. rewrite attributes_property in He.
    destruct (getOwnProperty props "attributes") as [a|] eqn:Ga; [|destruct He].
    apply getOwnProperty_In in Ga. rewrite Forall_forall in IH.
    destruct (IH _ Ga) as [_ Hent]. cbn [snd] in Hent.
    rewrite Forall_forall in Hent. now apply (Hent e He).
Qed.

Lemma keepAttribute_withinBound (nodeName : string) (attributes : list Attribute)
      (attrs : Props) (attr : Attribute) :
  keepAttribute nodeName attributes attrs attr <> FuelExhausted.
Proof.
  unfold keepAttribute.
  destruct (truthy (getProperty attrs (ruleKey (name attr)))); simpl;
    [|discriminate].
  destruct (matches_withinBound (getProperty attrs (ruleKey (name attr))))
    as [H _].
  specialize (H nodeName attributes (value attr)).
  destruct (matches nodeName attributes (value attr)
              (getProperty attrs (ruleKey (name attr)))); simpl;
    [discriminate | discriminate | congruence].
Qed.

(** [filter] faults exactly when its callback faults on an item. *)
Lemma filterM_fault (A : Type) (keep : A -> Outcome bool) (l : list A) :
  (forall x, keep x <> FuelExhausted) ->
  filterM keep l <> FuelExhausted
  /\ (filterM keep l = TypeError <-> exists x, In x l /\ keep x = TypeError).
Proof.
  intros H. induction l as [|x l [IH1 IH2]]; simpl.
  - split; [discriminate|]. split; [discriminate | intros (x & [] & _)].
  - pose proof (H x) as Hx.
    destruct (keep x) as [b| |] eqn:K; simpl; [|split|congruence].
    + destruct (filterM keep l) as [more| |]; simpl.
      * split; [discriminate|]. split; [discriminate|].
        intros (y & [<-|Hy] & Ky); [congruence|].
        assert (Returns more = TypeError) by (apply IH2; eauto). discriminate.
      * split; [discriminate|]. split; [|reflexivity].
        intros _. destruct IH2 as [IH2 _].
        destruct (IH2 eq_refl) as (y & Hy & Ky). eauto.
      * congruence.
    + discriminate.
    + split; [|reflexivity]. intros _. eauto.
Qed.

Lemma filterAttributes_fault (element : Element) (attrs : Props) :
  filterAttributes element attrs <> FuelExhausted
  /\ (filterAttributes element attrs = TypeError
      <-> exists attr,
            In attr (attributes element)
            /\ keepAttribute (nodeName element) (attributes element) attrs attr
               = TypeError).
Proof.
  unfold filterAttributes.
  destruct (filterM_fault
              (keepAttribute (nodeName element) (attributes element) attrs)
              (attributes element)) as [H1 H2].
  - intros x. apply keepAttribute_withinBound.
  - destruct (filterM _ (attributes element)) as [l'| |]; simpl.
    + split; [discriminate|]. split; [discriminate|].
      intros H. apply H2 in H. discriminate H.
    + split; [discriminate|]. split; [intros _; now apply H2 | reflexivity].
    + congruence.
Qed.

Lemma spliceAll_fault (attrs : Props) (elements : list Element) :
  forall html,
    spliceAll elements attrs html <> FuelExhausted
    /\ (spliceAll elements attrs html = TypeError
        <-> exists element,
              In element elements
              /\ filterAttributes element attrs = TypeError).
Proof.
  induction elements as [|el els IH]; intros html; simpl.
  - split; [discriminate|]. split; [discriminate | intros (e & [] & _)].
  - destruct (filterAttributes_fault el attrs) as [F1 _].
    destruct (filterAttributes el attrs) as [f| |] eqn:F; simpl.
    + destruct (IH (Str.replace html (elementRaw el) (elementRaw f))) as [I1 I2].
      split; [exact I1|]. rewrite I2. split.
      * intros (e & He & Fe). eauto.
      * intros (e & [<-|He] & Fe); [congruence | eauto].
    + split; [discriminate|]. split; [|reflexivity]. intros _. eauto.
    + congruence.
Qed.

End FaultFacts.

Import FaultFacts.

(** X12: [filterHtmlAttrs] lets a TypeError escape exactly when the
    callback of [filterAttributes] faults for an attribute of an element
    of the input; there is no other fault, and one faulting rule gives
    up the whole result. *)
Theorem filterHtmlAttrs_faults_iff_a_rule_faults
        (htmlString : string) (attrs : Props) :
  filterHtmlAttrs htmlString (Some attrs) <> FuelExhausted
  /\ (filterHtmlAttrs htmlString (Some attrs) = TypeError
      <-> faultyRule htmlString attrs).
Proof.
  unfold filterHtmlAttrs, faultyRule.
  destruct (parseElements_total htmlString) as [els Hels]. rewrite Hels. simpl.
  destruct (spliceAll_fault attrs els htmlString) as [S1 S2].
  split; [exact S1|]. rewrite S2. split.
  - intros (el & Hin & F).
    apply (proj2 (filterAttributes_fault el attrs)) in F as (attr & Ha & K).
    exists els, el, attr. auto.
  - intros (els' & el & attr & [= <-] & Hin & Ha & K).
    exists el. split; [exact Hin|].
    apply (proj2 (filterAttributes_fault el attrs)). eauto.
Qed.

(** X13: among the names in lower case, which are the names of the
    attributes that the tokenizer returns, the rule [htmlFor] is asked
    for the name [for] only and the rule [className] for the name
    [class] only. *)
Theorem alias_keys_govern_one_name_each (name : string) :
  Str.toLowerCase name = name ->
  (ruleKey name = "htmlFor" <-> name = "for")
  /\ (ruleKey name = "className" <-> name = "class").
Proof.
  intros Hl.
  assert (H : forall k, In k ["htmlFor"; "className"] ->
                        ruleKey name = k -> name = "for" \/ name = "class").
  { intros k Hk E.
    destruct (ruleKey_verbatim name) as [Ev|Hin].
    - rewrite Ev in E. subst name. simpl in Hk.
      destruct Hk as [<-|[<-|[]]]; vm_compute in Hl; discriminate Hl.
    - simpl in Hin.
      destruct Hin as [<-|[<-|Hin]]; [now left | now right|].
      exfalso. simpl in Hk.
      repeat (destruct Hin as [<-|Hin];
              [destruct Hk as [<-|[<-|[]]]; vm_compute in E; discriminate E|]).
      destruct Hin. }
  split; split.
  - intros E. destruct (H "htmlFor" (or_introl eq_refl) E) as [->| ->];
      [reflexivity | vm_compute in E; discriminate E].
  - intros ->. reflexivity.
  - intros E. destruct (H "className" (or_intror (or_introl eq_refl)) E) as [->| ->];
      [vm_compute in E; discriminate E | reflexivity].
  - intros ->. reflexivity.
Qed.

Lemma alias_keys_witness :
  (ruleKey "htmlfor" = "htmlFor" <-> "htmlfor" = "for")
  /\ (ruleKey "htmlfor" = "className" <-> "htmlfor" = "class").
Proof.
  apply alias_keys_govern_one_name_each. vm_compute. reflexivity.
Defined.

(** ** Text in front of the first tag *)

Module FrameFacts.

Import Regex RegexFacts.

(** The tag pattern does not look at the character before the match. *)
Lemma matchAt_tag_prev (pr pr' : option ascii) (s : string) :
  matchAt tagStringRegex pr s = matchAt tagStringRegex pr' s.
Proof. destruct s; reflexivity. Qed.

Lemma exec_tag_prev (s : string) :
  forall pr pr', exec tagStringRegex pr s = exec tagStringRegex pr' s.
Proof.
  destruct s as [|c s]; intros pr pr'; cbn [exec];
    now rewrite (matchAt_tag_prev pr pr').
Qed.

(** [exec] passes over a text without an opening bracket. *)
Lemma exec_tag_skip (t s : string) :
  Str.hasChar "<" t = false ->
  forall pr, exec tagStringRegex pr (t ++ s) = exec tagStringRegex None s.
Proof.
  induction t as [|c t IH]; intros Ht pr.
  - apply exec_tag_prev.
  - cbn [Str.hasChar] in Ht. apply orb_false_iff in Ht as [Hc Ht].
    change (String c t ++ s) with (String c (t ++ s)). cbn [exec].
    assert (M : matchAt tagStringRegex pr (String c (t ++ s)) = None).
    { unfold matchAt, tagStringRegex. cbn [run step rest].
      rewrite Ascii.eqb_sym, Hc. reflexivity. }
    rewrite M. now apply IH.
Qed.

(** The outer loop does not depend on its bound once the bound is
    above the length of the input. *)
Lemma parseTags_bound (fuel : nat) :
  forall fuel' pr s,
    String.length s < fuel -> String.length s < fuel' ->
    parseTags fuel pr s = parseTags fuel' pr s.
Proof.
  induction fuel as [|fuel IH]; intros fuel' pr s H H'; [lia|].
  destruct fuel' as [|fuel']; [lia|]. cbn [parseTags].
  destruct (exec tagStringRegex pr s) as [m|] eqn:E; [|reflexivity].
  pose proof (exec_progress _ _ _ E) as Hp.
  change (minLen tagStringRegex) with 3 in Hp.
  rewrite (IH fuel' (endPrev m) (endRest m)) by lia. reflexivity.
Qed.

(** The elements of an input are those of the input without the text
    in front of its first opening bracket. *)
Lemma parseElements_skip (t s : string) :
  Str.hasChar "<" t = false ->
  parseElements (t ++ s) = parseElements s.
Proof.
  intros Ht. unfold parseElements. cbn [parseTags].
  rewrite (exec_tag_skip _ s Ht).
  destruct (exec tagStringRegex None s) as [m|] eqn:E; [|reflexivity].
  pose proof (exec_progress _ _ _ E) as Hp.
  change (minLen tagStringRegex) with 3 in Hp.
  rewrite (@parseTags_bound (String.length (t ++ s))
             (String.length s) (endPrev m) (endRest m));
    [reflexivity | rewrite StrFacts.app_length; lia | lia].
Qed.

Lemma splitFirst_skip (t p acc : string) :
  Str.hasChar "<" t = false ->
  Str.splitFirst (String "<" p) (t ++ acc)
  = match Str.splitFirst (String "<" p) acc with
    | Some (b, a) => Some (t ++ b, a)
    | None => None
    end.
Proof.
  intros Ht. induction t as [|c t IH].
  - simpl. now destruct (Str.splitFirst (String "<" p) acc) as [[b a]|].
  - cbn [Str.hasChar] in Ht. apply orb_false_iff in Ht as [Hc Ht].
    change (String c t ++ acc) with (String c (t ++ acc)).
    cbn [Str.splitFirst Str.stripPrefix].
    rewrite Ascii.eqb_sym, Hc, (IH Ht).
    now destruct (Str.splitFirst (String "<" p) acc) as [[b a]|].
Qed.

(** A replacement of a text that starts with an opening bracket, by a
    text without [$], leaves what is in front of the first opening
    bracket alone. *)
Lemma replace_skip (t p acc r : string) :
  Str.hasChar "<" t = false ->
  Str.hasChar "$" r = false ->
  Str.replace (t ++ acc) (String "<" p) r = t ++ Str.replace acc (String "<" p) r.
Proof.
  intros Ht Hr. unfold Str.replace. rewrite (@splitFirst_skip t p acc Ht).
  destruct (Str.splitFirst (String "<" p) acc) as [[b a]|]; [|reflexivity].
  rewrite !StrFacts.getSubstitution_plain by exact Hr.
  now rewrite StrFacts.app_assoc.
Qed.

(** A replacement without [$] in a text without [$] gives a text
    without [$]. *)
Lemma replace_plain (c : ascii) (s pat r : string) :
  Str.hasChar "$" r = false ->
  Str.hasChar c s = false -> Str.hasChar c r = false ->
  Str.hasChar c (Str.replace s pat r) = false.
Proof.
  intros Hd Hs Hr. unfold Str.replace.
  destruct (Str.splitFirst pat s) as [[b a]|] eqn:E; [|exact Hs].
  rewrite StrFacts.getSubstitution_plain by exact Hd.
  apply StrFacts.splitFirst_sound in E. rewrite E in Hs.
  rewrite !StrFacts.hasChar_app in *.
  apply orb_false_iff in Hs as [Hb Hs]. apply orb_false_iff in Hs as [_ Ha].
  now rewrite Hb, Hr, Ha.
Qed.

(** The raw text of a filtered element has no [$] when the input has
    none. *)
Lemma filtered_raw_plain (s : string) (els : list Element) (el f : Element)
      (attrs : Props) :
  parseElements s = Returns els -> In el els ->
  Str.hasChar "$" s = false ->
  filterAttributes el attrs = Returns f ->
  Str.hasChar "$" (elementRaw f) = false.
Proof.
  intros Hels Hin Hd Hf.
  destruct (fromOpeningTag_chars "$" (parseTags_origin _ _ _ Hels el Hin) Hd)
    as [Hraw Hattrs].
  unfold filterAttributes in Hf.
  apply bind_returns in Hf as (l' & Hl' & [= <-]). cbn [elementRaw].
  assert (Hj : Str.hasChar "$" (joinRaw l') = false).
  { apply joinRaw_chars; [reflexivity|]. intros a Ha.
    apply Hattrs. rewrite (RuleFacts.filterM_filter _ _ Hl') in Ha.
    now apply filter_In in Ha as [Ha _]. }
  now apply replace_plain.
Qed.

Lemma spliceAll_skip (s t : string) (attrs : Props) (all : list Element) :
  parseElements s = Returns all ->
  Str.hasChar "$" s = false ->
  Str.hasChar "<" t = false ->
  forall els acc,
    incl els all ->
    spliceAll els attrs (t ++ acc)
    = (x <- spliceAll els attrs acc ;; Returns (t ++ x)).
Proof.
  intros Hall Hd Ht. induction els as [|el els IH]; intros acc Hincl;
    [reflexivity|].
  cbn [spliceAll].
  assert (Hin : In el all) by (apply Hincl; now left).
  destruct (filterAttributes el attrs) as [f| |] eqn:F; simpl; try reflexivity.
  destruct (@ElementFacts.element_origin s all el Hall Hin)
    as (tagStr & tail & l & _ & _ & _ & _ & _ & _ & E).
  assert (Hraw : elementRaw el = String "<" (tagStr ++ tail))
    by (rewrite E; reflexivity).
  rewrite Hraw, replace_skip;
    [|exact Ht | exact (@filtered_raw_plain s all el f attrs Hall Hin Hd F)].
  apply IH. intros e He. apply Hincl. now right.
Qed.

End FrameFacts.

Import FrameFacts.

(** X14: a text without an opening bracket in front of an input
    without [$] does not change the elements that the tokenizer returns
    and is left alone by [filterHtmlAttrs]: the result is that text
    followed by the result for the input. *)
Theorem text_in_front_is_left_alone
        (text htmlString : string) (attrs : Props) :
  Str.hasChar "<" text = false ->
  Str.hasChar "$" htmlString = false ->
  parseElements (text ++ htmlString) = parseElements htmlString
  /\ filterHtmlAttrs (text ++ htmlString) (Some attrs)
     = (x <- filterHtmlAttrs htmlString (Some attrs) ;; Returns (text ++ x)).
Proof.
  intros Ht Hd. split; [now apply parseElements_skip|].
  unfold filterHtmlAttrs. rewrite (parseElements_skip _ htmlString Ht).
  destruct (parseElements htmlString) as [els| |] eqn:Hels; try reflexivity.
  simpl. apply (@spliceAll_skip htmlString text attrs els Hels Hd Ht).
  apply incl_refl.
Qed.

Lemma text_in_front_witness :
  parseElements ("x > y " ++ Samples.divDataX) = parseElements Samples.divDataX
  /\ filterHtmlAttrs ("x > y " ++ Samples.divDataX) (Some Samples.dataXTrue)
     = (x <- filterHtmlAttrs Samples.divDataX (Some Samples.dataXTrue) ;;
        Returns ("x > y " ++ x)).
Proof.
  apply text_in_front_is_left_alone; vm_compute; reflexivity.
Defined.

(** ** Tags that a replacement leaves alone *)

Module BracketFacts.

Lemma app_eq_app (a b c d : string) :
  a ++ b = c ++ d ->
  (exists x, c = a ++ x /\ b = x ++ d) \/ (exists x, a = c ++ x /\ d = x ++ b).
Proof.
  revert c. induction a as [|p a IH]; intros c H.
  - left. exists c. auto.
  - destruct c as [|q c].
    + right. exists (String p a). auto.
    + simpl in H. injection H as -> H.
      destruct (IH c H) as [(x & -> & ->)|(x & -> & ->)].
      * left. exists x. auto.
      * right. exists x. auto.
Qed.

Lemma unclosedFrom_app (b : bool) (x y : string) :
  unclosedFrom b (x ++ y) = unclosedFrom (unclosedFrom b x) y.
Proof. revert b. induction x as [|c x IH]; intros b; simpl; auto. Qed.

(** After a text that ends with a closing bracket nothing is open. *)
Lemma unclosedFrom_closed (b : bool) (u : string) :
  unclosedFrom b (u ++ ">") = false.
Proof. now rewrite unclosedFrom_app. Qed.

Lemma unclosedFrom_open (x : string) :
  Str.hasChar ">" x = false -> unclosedFrom true x = true.
Proof.
  induction x as [|c x IH]; simpl; [reflexivity|].
  intros H. apply orb_false_iff in H as [Hc Hx]. rewrite Hc.
  destruct (Ascii.eqb c "<"); now apply IH.
Qed.

(** After an opening bracket that no closing bracket follows, a
    bracket is open. *)
Lemma unclosedFrom_bracket (b : bool) (x : string) :
  Str.hasChar ">" x = false -> unclosedFrom b ("<" ++ x) = true.
Proof. intros H. simpl. now apply unclosedFrom_open. Qed.

(** Two texts that start alike go alike up to the first closing
    bracket. *)
Lemma first_closing (x y a b : string) :
  Str.hasChar ">" x = false -> Str.hasChar ">" y = false ->
  x ++ ">" ++ a = y ++ ">" ++ b -> x = y.
Proof.
  revert y. induction x as [|c x IH]; intros [|d y] Hx Hy H; simpl in *.
  - reflexivity.
  - injection H as <- _. now rewrite Ascii.eqb_refl in Hy.
  - injection H as -> _. now rewrite Ascii.eqb_refl in Hx.
  - injection H as -> H.
    apply orb_false_iff in Hx as [_ Hx]. apply orb_false_iff in Hy as [_ Hy].
    now rewrite (IH y Hx Hy H).
Qed.

(** Two tags that start at the same place are the same tag. *)
Lemma same_start (T bt R br post after : string) :
  tagText T bt -> tagText R br -> T ++ post = R ++ after -> R = T.
Proof.
  intros (-> & _ & Ht) (-> & _ & Hr) H. simpl in H. injection H as H.
  rewrite !StrFacts.app_assoc in H.
  now rewrite (first_closing _ _ _ _ Ht Hr H).
Qed.

(** The expansion of a replacement text that ends with a closing
    bracket ends with a closing bracket. *)
Lemma getSubstitution_ends (matched before after : string) (u : string) :
  exists v, Str.getSubstitution matched before after (u ++ ">") = v ++ ">".
Proof.
  remember (String.length u) as n eqn:Hn. revert u Hn.
  induction n as [n IH] using lt_wf_ind. intros u Hn.
  destruct u as [|c u].
  - now exists EmptyString.
  - change (String c u ++ ">") with (String c (u ++ ">")).
    cbn [Str.getSubstitution].
    assert (Hrec : exists v, Str.getSubstitution matched before after (u ++ ">")
                             = v ++ ">")
      by (apply (IH (String.length u)); [subst n; simpl; lia | reflexivity]).
    destruct (Ascii.eqb c "$").
    + destruct u as [|d u'].
      * simpl. now exists (Str.single c).
      * change (String d u' ++ ">") with (String d (u' ++ ">")). cbv iota.
        assert (Hrec' : exists v,
                   Str.getSubstitution matched before after (u' ++ ">") = v ++ ">")
          by (apply (IH (String.length u'));
              [subst n; simpl; lia | reflexivity]).
        destruct Hrec' as [v' Hv'].
        destruct (Ascii.eqb d "$");
          [rewrite Hv'; now exists (String "$" v')|].
        destruct (Ascii.eqb d "&");
          [rewrite Hv'; exists (matched ++ v'); now rewrite StrFacts.app_assoc|].
        destruct (Ascii.eqb d "`");
          [rewrite Hv'; exists (before ++ v'); now rewrite StrFacts.app_assoc|].
        destruct (Ascii.eqb d Chars.squote);
          [rewrite Hv'; exists (after ++ v'); now rewrite StrFacts.app_assoc|].
        destruct Hrec as [v Hv].
        change (String d (u' ++ ">")) with (String d u' ++ ">").
        rewrite Hv. now exists (String c v).
    + destruct Hrec as [v Hv]. rewrite Hv. now exists (String c v).
Qed.

End BracketFacts.

Module ProtectFacts.

Import BracketFacts.

Lemma starts_with_bracket (R br y rest : string) :
  tagText R br -> y <> EmptyString ->
  forall z, R ++ z = y ++ rest -> exists y', y = "<" ++ y'.
Proof.
  intros (-> & _ & _) Hy z H. destruct y as [|c y]; [congruence|].
  simpl in H. injection H as <- _. now exists y.
Qed.

(** A proper prefix of a tag has no closing bracket. *)
Lemma prefix_of_tag (R br x y : string) :
  tagText R br -> R = x ++ y -> y <> EmptyString ->
  Str.hasChar ">" x = false \/ x = EmptyString.
Proof.
  intros (-> & _ & Hbr) H Hy.
  destruct x as [|c x']; [now right|]. left.
  simpl in H. injection H as <- H. simpl.
  destruct (app_eq_app _ _ _ _ H) as [(z & -> & Hz)|(z & -> & Hz)].
  - destruct z as [|d z].
    + now rewrite StrFacts.app_nil_r.
    + simpl in Hz. injection Hz as _ Hz.
      destruct z; [destruct y; [congruence | discriminate Hz] | discriminate Hz].
  - rewrite StrFacts.hasChar_app in Hbr.
    now apply orb_false_iff in Hbr as [Hbr _].
Qed.

(** One replacement of the text of a tag [R], by a text that ends with
    a closing bracket, leaves alone a tag [T] without an opening
    bracket inside, unless it is [T] that is replaced. *)
Lemma protect_step (T bt R br R' acc : string) :
  tagText T bt -> Str.hasChar "<" bt = false ->
  tagText R br ->
  (exists u, R' = u ++ ">") ->
  (R = T -> Str.replace acc R R' = acc) ->
  keptAsWritten T acc ->
  keptAsWritten T (Str.replace acc R R').
Proof.
  intros HT Hin HR [u ->] Hsame Hk.
  destruct (string_dec R T) as [E|Hne]; [now rewrite (Hsame E)|].
  unfold Str.replace.
  destruct (Str.splitFirst R acc) as [[before after]|] eqn:S; [|exact Hk].
  apply StrFacts.splitFirst_sound in S.
  destruct (getSubstitution_ends R before after u) as [v ->].
  destruct Hk as (pre & post & Hk & Hpre).
  assert (Hacc : pre ++ T ++ post = before ++ R ++ after)
    by (rewrite <- Hk; exact S).
  clear Hk S.
  assert (HRend : exists r0, R = r0 ++ ">").
  { destruct HR as (-> & _ & _). exists ("<" ++ br). now rewrite StrFacts.app_assoc. }
  destruct (app_eq_app _ _ _ _ Hacc) as [(x & Hx & Hrest)|(x & Hx & Hrest)].
  - (* the replaced text starts in the tag or after it *)
    destruct (app_eq_app _ _ _ _ Hrest) as [(y & Hy & Hy')|(y & Hy & Hy')].
    + (* after it *)
      subst x post. exists pre, (y ++ (v ++ ">") ++ after).
      split; [|exact Hpre]. rewrite Hx. now rewrite !StrFacts.app_assoc.
    + destruct y as [|cy y].
      * rewrite StrFacts.app_nil_r in Hy. subst x. simpl in Hy'. subst post.
        exists pre, ((v ++ ">") ++ after).
        split; [|exact Hpre]. rewrite Hx. now rewrite !StrFacts.app_assoc.
      * destruct x as [|cx x].
        -- simpl in Hy. exfalso. apply Hne.
           eapply same_start; [exact HT | exact HR |].
           rewrite Hy. symmetry. exact Hy'.
        -- exfalso.
           destruct (@starts_with_bracket R br (String cy y) post HR) with (z := after)
             as [y' Ey]; [discriminate | exact Hy' |].
           destruct HT as (HTt & _ & HTgt). rewrite HTt, Ey in Hy.
           simpl in Hy. injection Hy as <- Hy.
           assert (Hc : Str.hasChar "<" (bt ++ ">") = true).
           { rewrite Hy, StrFacts.hasChar_app. simpl. now rewrite orb_true_r. }
           rewrite StrFacts.hasChar_app, Hin in Hc. discriminate Hc.
  - (* the replaced text starts before the tag *)
    destruct (app_eq_app _ _ _ _ Hrest) as [(y & Hy & Hy')|(y & Hy & Hy')].
    + (* and ends before it *)
      subst x after. exists (before ++ (v ++ ">") ++ y), post.
      split; [now rewrite !StrFacts.app_assoc|].
      rewrite Hx in Hpre. destruct HRend as [r0 Hr0]. rewrite Hr0 in Hpre.
      unfold unclosed in *.
      rewrite !unclosedFrom_app in Hpre. rewrite !unclosedFrom_app. exact Hpre.
    + destruct y as [|cy y].
      * rewrite StrFacts.app_nil_r in Hy. subst x. simpl in Hy'. subst after.
        exists (before ++ (v ++ ">")), post.
        split; [now rewrite !StrFacts.app_assoc|].
        unfold unclosed. rewrite <- StrFacts.app_assoc.
        apply unclosedFrom_closed.
      * destruct x as [|cx x].
        -- exfalso. apply Hne.
           eapply same_start; [exact HT | exact HR |].
           simpl in Hrest. symmetry. exact Hrest.
        -- exfalso.
           destruct (@prefix_of_tag R br (String cx x) (String cy y) HR Hy)
             as [Hgt|Hgt]; [discriminate | | discriminate Hgt].
           destruct HR as (HRt & _ & _). rewrite HRt in Hy. simpl in Hy.
           injection Hy as <- _.
           rewrite Hx in Hpre. unfold unclosed in Hpre.
           rewrite unclosedFrom_app in Hpre.
           simpl in Hgt.
           rewrite (unclosedFrom_bracket _ x Hgt) in Hpre. discriminate Hpre.
Qed.

End ProtectFacts.

(** ** Where the tags of the input stand *)

Module StandFacts.

Import Regex RegexFacts BracketFacts ProtectFacts.

(** The lazy repetition finds a match when its continuation succeeds
    after some run of the class. *)
Lemma starLazy_complete (p : ascii -> bool) (cs : list (nat * string)) (k : Cont)
      (r : string) (w : string) :
  (forall pr', k (mkState pr' r cs) <> None) ->
  allIn p w = true ->
  forall pr, starLazy p pr (w ++ r) cs k <> None.
Proof.
  intros Hk. induction w as [|c w IH]; intros Hw pr.
  - simpl. specialize (Hk pr).
    destruct r; simpl; destruct (k _); simpl; congruence.
  - simpl in Hw. apply andb_true_iff in Hw as [Hc Hw].
    change (String c w ++ r) with (String c (w ++ r)). cbn [starLazy].
    destruct (k (mkState pr (String c (w ++ r)) cs)); simpl; [discriminate|].
    rewrite Hc. now apply IH.
Qed.

Lemma hasChar_allIn (c : ascii) (w : string) :
  Str.hasChar c w = false -> allIn (isNot c) w = true.
Proof.
  induction w as [|d w IH]; simpl; [reflexivity|].
  intros H. apply orb_false_iff in H as [Hd Hw].
  unfold isNot at 1. now rewrite Hd, IH.
Qed.

(** The tag pattern matches wherever an opening bracket is followed by
    one character at least and then, with no closing bracket between, by
    a closing bracket. *)
Lemma tag_matchAt_complete (pr : option ascii) (body others : string) :
  body <> EmptyString -> Str.hasChar ">" body = false ->
  matchAt tagStringRegex pr ("<" ++ body ++ ">" ++ others) <> None.
Proof.
  intros Hne Hgt. destruct body as [|c w]; [congruence|].
  apply hasChar_allIn in Hgt. simpl in Hgt.
  apply andb_true_iff in Hgt as [Hc Hw].
  unfold matchAt, tagStringRegex. simpl "++". cbn [run step rest caps prev].
  rewrite Ascii.eqb_refl. cbn [rest caps prev]. rewrite Hc.
  cbn [rest caps prev].
  match goal with
  | |- context [starLazy ?p ?pr0 ?s ?cs ?k] =>
      pose proof (@starLazy_complete p cs k (">" ++ others) w) as Hs;
      destruct (starLazy p pr0 s cs k) eqn:E
  end; [discriminate|].
  exfalso. revert E. apply Hs; [|exact Hw].
  intros pr'. cbn. discriminate.
Qed.

Lemma unclosedFrom_differ (sk : string) :
  unclosedFrom true sk = true -> unclosedFrom false sk = false ->
  Str.hasChar ">" sk = false.
Proof.
  induction sk as [|c sk IH]; simpl; [reflexivity|].
  destruct (Ascii.eqb c "<"); [congruence|].
  destruct (Ascii.eqb c ">"); [congruence|]. exact IH.
Qed.

(** [exec] finds the first tag: in the text it passes over no opening
    bracket is left open. *)
Lemma exec_tag_settled (s : string) :
  forall pr m,
    exec tagStringRegex pr s = Some m ->
    exists skipped,
      s = skipped ++ whole m ++ endRest m /\ unclosed skipped = false.
Proof.
  induction s as [|c s IH]; intros pr m; cbn [exec].
  - destruct (matchAt tagStringRegex pr EmptyString) as [m'|] eqn:E;
      [|discriminate].
    intros [= <-]. exists EmptyString. split; [|reflexivity].
    now apply matchAt_whole in E as [E _].
  - destruct (matchAt tagStringRegex pr (String c s)) as [m'|] eqn:E.
    + intros [= <-]. exists EmptyString. split; [|reflexivity].
      now apply matchAt_whole in E as [E _].
    + intros H. pose proof H as H0.
      apply IH in H as (sk & Hs & Hsk).
      exists (String c sk). split; [simpl; now rewrite <- Hs|].
      unfold unclosed in *. cbn [unclosedFrom].
      destruct (Ascii.eqb_spec c "<") as [->|_];
        [|destruct (Ascii.eqb c ">"); exact Hsk].
      destruct (unclosedFrom true sk) eqn:U; [|reflexivity].
      exfalso.
      pose proof (unclosedFrom_differ sk U Hsk) as Hgt.
      apply exec_sound in H0 as (sk' & pr' & s' & _ & H0).
      destruct (TokenFacts.tag_match_shape _ _ H0)
        as (t & tail & _ & _ & Ht & Htl & Hw & _).
      assert (Hshape : exists body others,
                 String "<" s = "<" ++ body ++ ">" ++ others
                 /\ body <> EmptyString /\ Str.hasChar ">" body = false).
      { rewrite Hs, Hw. destruct Htl as [-> | ->].
        - exists (sk ++ "<" ++ t), (endRest m). split; [assoc_strings|].
          split; [destruct sk; discriminate|].
          rewrite !StrFacts.hasChar_app, Hgt, Ht. reflexivity.
        - exists (sk ++ "<" ++ t ++ "/"), (endRest m). split; [assoc_strings|].
          split; [destruct sk; discriminate|].
          rewrite !StrFacts.hasChar_app, Hgt, Ht. reflexivity. }
      destruct Hshape as (body & others & Hb & Hne & Hbg).
      rewrite Hb in E. now apply (tag_matchAt_complete pr others Hne Hbg).
Qed.

End StandFacts.

Module TagFacts.

Import Regex RegexFacts BracketFacts ProtectFacts StandFacts ParseFacts.

(** The text of a match of the tag pattern is the text of a tag, whose
    body is group 1, with a slash after it or not. *)
Lemma whole_tagText (pr : option ascii) (s : string) (m : Match) :
  matchAt tagStringRegex pr s = Some m ->
  exists tagStr body,
    group 1 m = Some tagStr
    /\ tagStr <> EmptyString
    /\ Str.hasChar ">" tagStr = false
    /\ tagText (whole m) body
    /\ (body = tagStr \/ body = tagStr ++ "/").
Proof.
  intros H.
  destruct (TokenFacts.tag_match_shape _ _ H)
    as (t & tail & Hg & Hne & Hgt & Htl & Hw & _).
  destruct Htl as [-> | ->].
  - exists t, t. repeat split; auto.
  - exists t, (t ++ "/"). repeat split; auto.
    + rewrite Hw. assoc_strings.
    + destruct t; [congruence | discriminate].
    + rewrite StrFacts.hasChar_app, Hgt. reflexivity.
Qed.

Lemma tagText_ends (T body : string) : tagText T body -> exists u, T = u ++ ">".
Proof.
  intros (-> & _ & _). exists ("<" ++ body). now rewrite StrFacts.app_assoc.
Qed.

Lemma tagText_body (T b1 b2 : string) : tagText T b1 -> tagText T b2 -> b1 = b2.
Proof.
  intros (-> & _ & _) (H & _ & _). simpl in H. injection H as H.
  now apply app_inv_tail in H.
Qed.

Lemma stand_step (done sk w others : string) :
  unclosed done = false -> unclosed sk = false ->
  (exists u, w = u ++ ">") ->
  keptAsWritten w (done ++ sk ++ w ++ others)
  /\ unclosed (done ++ sk ++ w) = false.
Proof.
  intros Hd Hs [u ->]. unfold unclosed in *. split.
  - exists (done ++ sk), others. split; [now rewrite !StrFacts.app_assoc|].
    unfold unclosed. now rewrite unclosedFrom_app, Hd.
  - rewrite <- !StrFacts.app_assoc. apply unclosedFrom_closed.
Qed.

(** Every element is made of a tag that stands in the input as a tag
    of its own. *)
Lemma parseTags_stand (fuel : nat) :
  forall pr s els,
    parseTags fuel pr s = Returns els ->
    forall done, unclosed done = false ->
    forall el, In el els -> keptAsWritten (elementRaw el) (done ++ s).
Proof.
  induction fuel as [|fuel IH]; intros pr s els; simpl; [discriminate|].
  destruct (exec tagStringRegex pr s) as [m|] eqn:E.
  - destruct (exec_tag_settled _ _ E) as (sk & Hs & Hsk).
    apply exec_sound in E as (sk' & pr' & s' & _ & E).
    destruct (whole_tagText _ _ E) as (t & body & Hg & _ & _ & Hb & _).
    rewrite Hg. intros H done Hd.
    destruct (@stand_step done sk (whole m) (endRest m) Hd Hsk (tagText_ends Hb))
    as [Hk Hu].
    assert (Hlater : forall els', parseTags fuel (endPrev m) (endRest m) = Returns els' ->
                     forall el, In el els' ->
                                keptAsWritten (elementRaw el) (done ++ s)).
    { intros els' H' el Hin.
      pose proof (IH _ _ _ H' (done ++ sk ++ whole m) Hu el Hin) as K.
      rewrite Hs. now rewrite !StrFacts.app_assoc in K. }
    destruct (isEndTag t).
    + now apply Hlater.
    + apply bind_returns in H as (el0 & Hel & H).
      apply bind_returns in H as (more & Hm & [= <-]).
      intros el [<-|Hin]; [|now apply (Hlater more)].
      rewrite (parseElement_raw _ _ Hel), Hs. exact Hk.
  - intros [= <-] done _ el [].
Qed.

(** Every end tag of the input stands in it as a tag of its own, and
    its body starts with a slash. *)
Lemma endTagsFrom_stand (fuel : nat) :
  forall pr s done,
    unclosed done = false ->
    forall E, In E (endTagsFrom fuel pr s) ->
      keptAsWritten E (done ++ s)
      /\ exists body, tagText E ("/" ++ body).
Proof.
  induction fuel as [|fuel IH]; intros pr s done Hd E; simpl; [tauto|].
  destruct (exec tagStringRegex pr s) as [m|] eqn:X; [|intros []].
  destruct (exec_tag_settled _ _ X) as (sk & Hs & Hsk).
  apply exec_sound in X as (sk' & pr' & s' & _ & X).
  destruct (whole_tagText _ _ X) as (t & body & Hg & Hne & _ & Hb & Hbody).
  rewrite Hg.
  destruct (@stand_step done sk (whole m) (endRest m) Hd Hsk (tagText_ends Hb))
    as [Hk Hu].
  assert (Hlater : In E (endTagsFrom fuel (endPrev m) (endRest m)) ->
                   keptAsWritten E (done ++ s)
                   /\ exists body, tagText E ("/" ++ body)).
  { intros Hin.
    destruct (IH _ _ (done ++ sk ++ whole m) Hu E Hin) as [K Hsh].
    split; [|exact Hsh]. rewrite Hs. now rewrite !StrFacts.app_assoc in K. }
  destruct (isEndTag t) eqn:He; [|exact Hlater].
  intros [<-|Hin]; [|now apply Hlater].
  split; [rewrite Hs; exact Hk|].
  destruct t as [|c t]; [congruence|]. simpl in He.
  apply Ascii.eqb_eq in He. subst c.
  destruct Hbody as [-> | ->]; eexists; exact Hb.
Qed.

End TagFacts.

(** ** One text, one element *)

Module LeastFacts.

Import Regex RegexFacts BracketFacts ParseFacts TagFacts.

Lemma lastOr_app (pr : option ascii) (x : string) (c : ascii) :
  forall y, lastOr pr (x ++ String c y) = lastOr (Some c) y.
Proof.
  revert pr. induction x as [|d x IH]; intros pr y; simpl; [reflexivity|].
  apply IH.
Qed.

(** The lazy repetition stops at the first place where its continuation
    succeeds. *)
Lemma starLazy_least (p : ascii -> bool) (cs : list (nat * string)) (k : Cont) :
  forall w pr st,
    starLazy p pr w cs k = Some st ->
    exists x y,
      w = x ++ y
      /\ k (mkState (lastOr pr x) y cs) = Some st
      /\ forall x1 x2,
           x = x1 ++ x2 -> x2 <> EmptyString ->
           k (mkState (lastOr pr x1) (x2 ++ y) cs) = None.
Proof.
  induction w as [|c w IH]; intros pr st H.
  - exists EmptyString, EmptyString. simpl in H.
    destruct (k (mkState pr EmptyString cs)) eqn:E; simpl in H; [|discriminate].
    split; [reflexivity|]. split; [now rewrite <- H|].
    intros x1 x2 Hx Hne. destruct x1; destruct x2; simpl in Hx; congruence.
  - cbn [starLazy] in H.
    destruct (k (mkState pr (String c w) cs)) as [st'|] eqn:E; simpl in H.
    + exists EmptyString, (String c w).
      split; [reflexivity|]. split; [now rewrite <- H|].
      intros x1 x2 Hx Hne. destruct x1; destruct x2; simpl in Hx; congruence.
    + destruct (p c); [|discriminate].
      destruct (IH _ _ H) as (x & y & -> & Hk & Hmin).
      exists (String c x), y. split; [reflexivity|]. split; [exact Hk|].
      intros x1 x2 Hx Hne. destruct x1 as [|d x1].
      * simpl in Hx. subst x2. exact E.
      * simpl in Hx. injection Hx as <- Hx. simpl. now apply Hmin.
Qed.

Lemma same_head (a x y : string) : a ++ x = a ++ y -> x = y.
Proof.
  induction a as [|c a IH]; simpl; [auto|]. intros H. injection H as H. auto.
Qed.

Lemma app_slash (t' : string) (c : ascii) (x : string) :
  t' ++ "/" = String c x -> t' <> EmptyString ->
  exists x1, t' = String c x1 /\ x = x1 ++ "/".
Proof.
  intros H Hne. destruct t' as [|d t']; [congruence|].
  simpl in H. injection H as -> H. now exists t'.
Qed.

(** Group 1 of a match of the tag pattern is as short as can be: when
    the match ends with a slash and the closing bracket, and has more
    than the slash inside, the slash is not in group 1. *)
Lemma tag_match_least (pr : option ascii) (s : string) (m : Match) (t' : string) :
  matchAt tagStringRegex pr s = Some m ->
  group 1 m = Some (t' ++ "/") ->
  t' <> EmptyString ->
  whole m <> "<" ++ (t' ++ "/") ++ ">".
Proof.
  intros Hm Hg Hne Hw.
  pose proof (matchAt_whole _ _ _ Hm) as [Hs _].
  rewrite Hw in Hs.
  revert Hm. unfold matchAt, tagStringRegex.
  destruct (run _ _ _) as [st|] eqn:E; [|discriminate].
  intros Hm. assert (Hcs : groups m = caps st) by (now inversion Hm).
  assert (Hrs : endRest m = rest st) by (now inversion Hm).
  clear Hm Hw.
  destruct s as [|a s]; [discriminate E|].
  cbn [run step rest caps prev] in E.
  destruct (Ascii.eqb "<" a) eqn:Ea; [|discriminate E].
  destruct s as [|c w]; [discriminate E|].
  cbn [run step rest caps prev] in E.
  destruct (isNot ">" c) eqn:Ec; [|discriminate E].
  cbn [rest caps prev] in E.
  apply starLazy_least in E as (x & y & -> & Hk & Hmin).
  cbn [rest caps prev] in Hk, Hmin.
  change (String c (x ++ y)) with (String c x ++ y) in Hk.
  rewrite consumed_app in Hk.
  assert (Hcaps : caps st = [(1, String c x)]).
  { destruct y as [|b y]; [discriminate Hk|].
    cbn [orElse step rest caps prev] in Hk.
    destruct (Ascii.eqb "/" b).
    - destruct y as [|b' y]; cbn [orElse step rest caps prev] in Hk.
      + destruct (Ascii.eqb ">" b); now inversion Hk.
      + destruct (Ascii.eqb ">" b'); cbn [orElse] in Hk.
        * now inversion Hk.
        * destruct (Ascii.eqb ">" b); now inversion Hk.
    - cbn [orElse] in Hk. destruct (Ascii.eqb ">" b); now inversion Hk. }
  unfold group in Hg. rewrite Hcs, Hcaps in Hg. cbn in Hg. injection Hg as Hg.
  symmetry in Hg. destruct (@app_slash t' c x Hg Hne) as (x1 & -> & ->).
  simpl in Hs. injection Hs as _ Hs.
  rewrite (StrFacts.app_assoc (x1 ++ "/") ">" (endRest m)) in Hs.
  apply same_head in Hs. subst y.
  specialize (Hmin x1 "/" eq_refl).
  cbn [orElse step rest caps prev append] in Hmin.
  rewrite !Ascii.eqb_refl in Hmin.
  cbn [orElse step rest caps prev append] in Hmin.
  assert (F : "/" <> EmptyString) by discriminate.
  specialize (Hmin F). discriminate Hmin.
Qed.

(** The text of a match of the tag pattern tells its group 1. *)
Lemma tag_group_unique (pr1 pr2 : option ascii) (s1 s2 : string) (m1 m2 : Match) :
  matchAt tagStringRegex pr1 s1 = Some m1 ->
  matchAt tagStringRegex pr2 s2 = Some m2 ->
  whole m1 = whole m2 ->
  group 1 m1 = group 1 m2.
Proof.
  intros H1 H2 Hw.
  destruct (TokenFacts.tag_match_shape _ _ H1)
    as (t1 & tail1 & Hg1 & Hne1 & _ & Htl1 & Hw1 & _).
  destruct (TokenFacts.tag_match_shape _ _ H2)
    as (t2 & tail2 & Hg2 & Hne2 & _ & Htl2 & Hw2 & _).
  rewrite Hg1, Hg2. f_equal.
  assert (E : t1 ++ tail1 = t2 ++ tail2).
  { rewrite Hw1, Hw2 in Hw. simpl in Hw. now injection Hw. }
  destruct Htl1 as [-> | ->]; destruct Htl2 as [-> | ->].
  - now apply app_inv_tail in E.
  - exfalso.
    change (t2 ++ "/>") with (t2 ++ "/" ++ ">") in E.
    rewrite <- StrFacts.app_assoc in E. apply app_inv_tail in E. subst t1.
    exact (@tag_match_least pr1 s1 m1 t2 H1 Hg1 Hne2 Hw1).
  - exfalso.
    change (t1 ++ "/>") with (t1 ++ "/" ++ ">") in E.
    rewrite <- StrFacts.app_assoc in E. apply app_inv_tail in E. subst t2.
    exact (@tag_match_least pr2 s2 m2 t1 H2 Hg2 Hne1 Hw2).
  - now apply app_inv_tail in E.
Qed.

(** Two elements with the same raw text are the same element. *)
Lemma same_raw_same_element (s1 s2 : string) (el1 el2 : Element) :
  fromOpeningTag s1 el1 -> fromOpeningTag s2 el2 ->
  elementRaw el1 = elementRaw el2 -> el1 = el2.
Proof.
  intros (pre1 & pr1 & r1 & m1 & t1 & _ & H1 & Hg1 & _ & He1)
         (pre2 & pr2 & r2 & m2 & t2 & _ & H2 & Hg2 & _ & He2) Hraw.
  rewrite (parseElement_raw _ _ He1), (parseElement_raw _ _ He2) in Hraw.
  pose proof (@tag_group_unique pr1 pr2 r1 r2 m1 m2 H1 H2 Hraw) as Hg.
  rewrite Hg1, Hg2 in Hg. injection Hg as ->.
  unfold parseElement in He1, He2. rewrite Hraw in He1.
  rewrite He1 in He2. now injection He2.
Qed.

End LeastFacts.

(** ** What the replacements leave alone *)

Module OutputFacts.

Import Regex RegexFacts BracketFacts ProtectFacts StandFacts ParseFacts TagFacts
       LeastFacts.

(** The raw text of an element is the text of a tag whose body does not
    start with a slash, and no attribute text has a closing bracket. *)
Lemma element_tag (s : string) (el : Element) :
  fromOpeningTag s el ->
  exists body,
    tagText (elementRaw el) body
    /\ isEndTag body = false
    /\ Str.hasChar ">" (joinRaw (attributes el)) = false.
Proof.
  intros (pre & pr' & s' & m & tagStr & _ & Hm & Hg & Hend & Hel).
  destruct (whole_tagText _ _ Hm) as (t & body & Hg' & Hne & Hgt & Hb & Hbody).
  rewrite Hg in Hg'. injection Hg' as <-.
  exists body. rewrite (parseElement_raw _ _ Hel).
  split; [exact Hb|]. split.
  - destruct tagStr as [|c t0]; [congruence|].
    destruct Hbody as [-> | ->]; exact Hend.
  - unfold parseElement in Hel.
    apply bind_returns in Hel as (l & Hl & [= <-]). cbn [attributes].
    apply joinRaw_chars; [reflexivity|]. intros a Ha.
    destruct (parseAttributes_raw _ _ _ Hl a Ha) as (p1 & p2 & Hr).
    eapply StrFacts.hasChar_part. rewrite <- Hr.
    now apply StrFacts.hasChar_trim, StrFacts.hasChar_drop.
Qed.

Lemma ends_tail (x y : string) :
  forall u, x ++ y = u ++ ">" -> y <> EmptyString -> exists u', y = u' ++ ">".
Proof.
  induction x as [|c x IH]; intros u H Hy; simpl in H.
  - now exists u.
  - destruct u as [|d u]; simpl in H; injection H as _ H.
    + destruct x; destruct y; simpl in H; congruence.
    + exact (IH u H Hy).
Qed.

Lemma hasChar_last (c : ascii) (u : string) : Str.hasChar c (u ++ Str.single c) = true.
Proof.
  rewrite StrFacts.hasChar_app. simpl. rewrite Ascii.eqb_refl.
  now rewrite orb_true_r.
Qed.

Lemma splitFirst_empty (s : string) :
  Str.splitFirst EmptyString s = Some (EmptyString, s).
Proof. destruct s; reflexivity. Qed.

(** One replacement inside a text that ends with a closing bracket, of
    a text without a closing bracket, gives a text that ends with a
    closing bracket. *)
Lemma replace_ends (raw0 joined replacement : string) :
  (exists u, raw0 = u ++ ">") ->
  Str.hasChar ">" joined = false ->
  exists u, Str.replace raw0 joined replacement = u ++ ">".
Proof.
  intros [u Hu] Hj. unfold Str.replace.
  destruct (Str.splitFirst joined raw0) as [[before after]|] eqn:E;
    [|now exists u].
  destruct joined as [|cj joined].
  - rewrite splitFirst_empty in E. injection E as <- <-. subst raw0.
    exists (Str.getSubstitution EmptyString EmptyString (u ++ ">") replacement ++ u).
    simpl. now rewrite StrFacts.app_assoc.
  - apply StrFacts.splitFirst_sound in E. rewrite Hu in E. symmetry in E.
    rewrite <- StrFacts.app_assoc in E.
    destruct after as [|ca after].
    + exfalso. rewrite StrFacts.app_nil_r in E.
      destruct (ends_tail _ _ E) as [u' Hu']; [discriminate|].
      rewrite Hu' in Hj. change ">" with (Str.single ">") in Hj.
      now rewrite hasChar_last in Hj.
    + destruct (ends_tail _ _ E) as [u' Hu']; [discriminate|].
      rewrite Hu'.
      exists (before ++ Str.getSubstitution (String cj joined) before (u' ++ ">")
                                       replacement ++ u').
      now rewrite !StrFacts.app_assoc.
Qed.

(** The raw text of a filtered element ends with a closing bracket. *)
Lemma filtered_ends (s : string) (el f : Element) (attrs : Props) :
  fromOpeningTag s el ->
  filterAttributes el attrs = Returns f ->
  exists u, elementRaw f = u ++ ">".
Proof.
  intros Ho Hf. destruct (element_tag Ho) as (body & Hb & _ & Hj).
  unfold filterAttributes in Hf.
  apply bind_returns in Hf as (l' & _ & [= <-]). cbn [elementRaw].
  apply replace_ends; [exact (tagText_ends Hb) | exact Hj].
Qed.

(** The replacements of [filterHtmlAttrs], one after the other, leave
    alone a tag without an opening bracket inside, unless it is the
    text of that tag that is replaced. *)
Lemma spliceAll_protect (s T bt : string) (attrs : Props) (els : list Element) :
  tagText T bt -> Str.hasChar "<" bt = false ->
  (forall e, In e els -> fromOpeningTag s e) ->
  (forall e f, In e els -> elementRaw e = T ->
               filterAttributes e attrs = Returns f ->
               forall acc, Str.replace acc T (elementRaw f) = acc) ->
  forall acc t,
    keptAsWritten T acc ->
    spliceAll els attrs acc = Returns t ->
    keptAsWritten T t.
Proof.
  intros HT Hin. induction els as [|e els IH]; intros Ho Hsame acc t Hk;
    cbn [spliceAll].
  - now intros [= <-].
  - intros H. apply bind_returns in H as (f & Hf & H).
    assert (He : In e (e :: els)) by now left.
    destruct (element_tag (Ho e He)) as (br & HR & _ & _).
    refine (IH _ _ _ t _ H).
    + intros e' He'. apply Ho. now right.
    + intros e' f' He'. apply Hsame. now right.
    + apply (@protect_step T bt (elementRaw e) br (elementRaw f) acc HT Hin HR).
      * exact (filtered_ends attrs (Ho e He) Hf).
      * intros E. rewrite E. exact (Hsame e f He E Hf acc).
      * exact Hk.
Qed.

(** A tag that stands in the input, without an opening bracket inside,
    stands in the output, unless its text is replaced. *)
Lemma filterHtmlAttrs_protect (s T bt : string) (attrs : Props) (t : string) :
  tagText T bt -> Str.hasChar "<" bt = false ->
  keptAsWritten T s ->
  (forall e f, fromOpeningTag s e -> elementRaw e = T ->
               filterAttributes e attrs = Returns f ->
               forall acc, Str.replace acc T (elementRaw f) = acc) ->
  filterHtmlAttrs s (Some attrs) = Returns t ->
  keptAsWritten T t.
Proof.
  intros HT Hin Hk Hsame H. unfold filterHtmlAttrs in H.
  apply bind_returns in H as (els & Hels & H).
  apply (@spliceAll_protect s T bt attrs els HT Hin) with (acc := s); auto.
  - intros e He. exact (parseTags_origin _ _ _ Hels e He).
  - intros e f He. apply Hsame. exact (parseTags_origin _ _ _ Hels e He).
Qed.

(** Every end tag of the input stands in it, and is no element. *)
Lemma endTags_stand (s E : string) :
  In E (endTags s) ->
  keptAsWritten E s
  /\ (exists body, tagText E ("/" ++ body))
  /\ forall s' e, fromOpeningTag s' e -> elementRaw e <> E.
Proof.
  intros H.
  destruct (@endTagsFrom_stand (S (String.length s)) None s EmptyString
              eq_refl E H) as [Hk [body Hb]].
  split; [exact Hk|]. split; [now exists body|].
  intros s' e Ho Eq. destruct (element_tag Ho) as (br & HR & Hend & _).
  rewrite Eq in HR. rewrite (tagText_body HR Hb) in Hend. discriminate Hend.
Qed.

(** Every element of the input is made of a tag that stands in it. *)
Lemma elements_stand (s : string) (els : list Element) (el : Element) :
  parseElements s = Returns els -> In el els ->
  keptAsWritten (elementRaw el) s.
Proof.
  intros Hels Hin.
  exact (@parseTags_stand (S (String.length s)) None s els Hels EmptyString
           eq_refl el Hin).
Qed.

End OutputFacts.

(** ** Finding a tag that stands in a text *)

Module FindFacts.

Import Regex RegexFacts BracketFacts ProtectFacts StandFacts ParseFacts TagFacts
       LeastFacts OutputFacts.

(** [exec] passes over no place where the pattern matches. *)
Lemma exec_first (r : t) (s : string) :
  forall pr m,
    exec r pr s = Some m ->
    exists sk,
      s = sk ++ whole m ++ endRest m
      /\ forall a b, sk = a ++ b -> b <> EmptyString ->
           matchAt r (lastOr pr a) (b ++ whole m ++ endRest m) = None.
Proof.
  induction s as [|c s IH]; intros pr m; cbn [exec].
  - destruct (matchAt r pr EmptyString) as [m'|] eqn:E; [|discriminate].
    intros [= <-]. exists EmptyString.
    split; [now apply matchAt_whole in E as [E _]|].
    intros a b Hab Hb. destruct a; destruct b; simpl in Hab; congruence.
  - destruct (matchAt r pr (String c s)) as [m'|] eqn:E.
    + intros [= <-]. exists EmptyString.
      split; [now apply matchAt_whole in E as [E _]|].
      intros a b Hab Hb. destruct a; destruct b; simpl in Hab; congruence.
    + intros H. destruct (IH _ _ H) as (sk & Hs & Hfirst).
      exists (String c sk). split; [simpl; now rewrite <- Hs|].
      intros a b Hab Hb. destruct a as [|d a].
      * simpl in Hab. subst b. simpl. rewrite <- Hs. exact E.
      * simpl in Hab. injection Hab as <- Hab. simpl. now apply Hfirst.
Qed.

(** [exec] finds a match when there is one further on. *)
Lemma exec_none (r : t) (s : string) :
  forall pr,
    exec r pr s = None ->
    forall a b, s = a ++ b -> matchAt r (lastOr pr a) b = None.
Proof.
  induction s as [|c s IH]; intros pr; cbn [exec].
  - destruct (matchAt r pr EmptyString) as [m'|] eqn:E; [discriminate|].
    intros _ a b Hab. destruct a; destruct b; simpl in Hab; try congruence.
    exact E.
  - destruct (matchAt r pr (String c s)) as [m'|] eqn:E; [discriminate|].
    intros H a b Hab. destruct a as [|d a].
    + simpl in Hab. subst b. exact E.
    + simpl in Hab. injection Hab as <- Hab. simpl. exact (IH _ H a b Hab).
Qed.

(** In a text where a tag without an opening bracket inside stands,
    the tag pattern finds this tag, or a match that ends in front of
    it. *)
Lemma exec_finds (T bt before after : string) (pr : option ascii) :
  tagText T bt -> Str.hasChar "<" bt = false ->
  unclosed before = false ->
  exists m,
    exec tagStringRegex pr (before ++ T ++ after) = Some m
    /\ ((whole m = T /\ endRest m = after)
        \/ exists y, endRest m = y ++ T ++ after /\ unclosed y = false).
Proof.
  intros HT Hin Hb.
  assert (Hmatch : forall pr', matchAt tagStringRegex pr' (T ++ after) <> None).
  { intros pr'. destruct HT as (-> & Hne & Hgt).
    rewrite !StrFacts.app_assoc. now apply tag_matchAt_complete. }
  destruct (exec tagStringRegex pr (before ++ T ++ after)) as [m|] eqn:E.
  2:{ exfalso. exact (Hmatch _ (@exec_none tagStringRegex _ pr E before (T ++ after) eq_refl)). }
  exists m. split; [reflexivity|].
  destruct (@exec_first tagStringRegex _ pr m E) as (sk & Hs & Hfirst).
  destruct (@exec_tag_settled _ pr m E) as (sk' & Hs' & Hsk).
  assert (sk' = sk).
  { apply (app_inv_tail _ _ (whole m ++ endRest m)). now rewrite <- Hs, <- Hs'. }
  subst sk'. clear Hs'.
  apply exec_sound in E as (sk0 & pr0 & s0 & _ & E).
  destruct (whole_tagText _ _ E) as (tg & bw & _ & _ & _ & HW & _).
  destruct (app_eq_app _ _ _ _ Hs) as [(x & Hx & Hrest)|(x & Hx & Hrest)].
  - (* the match starts at the tag or after it *)
    destruct x as [|cx x].
    + left. simpl in Hrest.
      assert (EW : whole m = T) by (eapply same_start; [exact HT | exact HW | exact Hrest]).
      split; [exact EW|]. rewrite EW in Hrest. now apply same_head in Hrest.
    + exfalso. apply (Hmatch (lastOr pr before)).
      rewrite Hrest. apply Hfirst; [exact Hx | discriminate].
  - (* the match starts in front of the tag, or where it starts *)
    destruct x as [|cx x].
    + left. simpl in Hrest.
      assert (EW : whole m = T)
        by (eapply same_start; [exact HT | exact HW | symmetry; exact Hrest]).
      split; [exact EW|]. rewrite EW in Hrest. now apply same_head in Hrest.
    + symmetry in Hrest.
      destruct (app_eq_app _ _ _ _ Hrest) as [(y & Hy & Hy')|(y & Hy & Hy')].
      * (* it goes on into the tag, or ends where the tag starts *)
        destruct y as [|cy y].
        -- right. exists EmptyString. split; [|reflexivity]. simpl in Hy'.
           now rewrite Hy'.
        -- exfalso.
           destruct (@prefix_of_tag (whole m) bw (String cx x) (String cy y) HW Hy)
             as [Hgt|Hgt]; [discriminate | | discriminate Hgt].
           destruct HW as (HWt & _ & _). rewrite HWt in Hy. simpl in Hy.
           injection Hy as <- _.
           rewrite Hx in Hb. unfold unclosed in Hb.
           rewrite unclosedFrom_app in Hb. simpl in Hgt.
           rewrite (unclosedFrom_bracket _ x Hgt) in Hb. discriminate Hb.
      * (* it ends in front of the tag *)
        right. exists y. split; [exact Hy'|].
        rewrite Hx, Hy in Hb. destruct (tagText_ends HW) as [u Hu].
        rewrite Hu in Hb. unfold unclosed in *.
        now rewrite !unclosedFrom_app in Hb.
Qed.

Lemma isEndTag_body (tagStr body : string) :
  tagStr <> EmptyString ->
  body = tagStr \/ body = tagStr ++ "/" ->
  isEndTag tagStr = isEndTag body.
Proof.
  intros Hne [-> | ->]; [reflexivity|]. now destruct tagStr.
Qed.

(** The outer loop of [parseElements] makes an element of every tag
    that stands in the text, has no opening bracket inside and is no
    end tag. *)
Lemma parseTags_finds (T bt after : string) :
  tagText T bt -> Str.hasChar "<" bt = false -> isEndTag bt = false ->
  forall fuel before pr els,
    String.length (before ++ T ++ after) < fuel ->
    unclosed before = false ->
    parseTags fuel pr (before ++ T ++ after) = Returns els ->
    exists el, In el els /\ elementRaw el = T.
Proof.
  intros HT Hin Hend.
  induction fuel as [|fuel IH]; intros before pr els Hlen Hb; [lia|].
  cbn [parseTags].
  destruct (@exec_finds T bt before after pr HT Hin Hb) as (m & E & Hcase).
  rewrite E.
  pose proof (exec_progress _ _ _ E) as Hp.
  change (minLen tagStringRegex) with 3 in Hp.
  apply exec_sound in E as (sk & pr' & s' & _ & E).
  destruct (whole_tagText _ _ E) as (t & body & Hg & Hne & _ & HW & Hbody).
  rewrite Hg. destruct Hcase as [[EW Hrest]|(y & Hrest & Hy)].
  - rewrite EW in HW. rewrite (tagText_body HW HT) in Hbody.
    rewrite (isEndTag_body Hne Hbody), Hend.
    intros H. apply bind_returns in H as (el & Hel & H).
    apply bind_returns in H as (more & _ & [= <-]).
    exists el. split; [now left|].
    now rewrite (parseElement_raw _ _ Hel).
  - assert (Hlater : forall els',
               parseTags fuel (endPrev m) (endRest m) = Returns els' ->
               exists el, In el els' /\ elementRaw el = T).
    { intros els' H'. rewrite Hrest in H'.
      apply (IH y (endPrev m) els'); [rewrite <- Hrest; lia | exact Hy | exact H']. }
    destruct (isEndTag t).
    + exact (Hlater els).
    + intros H. apply bind_returns in H as (el0 & _ & H).
      apply bind_returns in H as (more & Hm & [= <-]).
      destruct (Hlater more Hm) as (el & Hel & Hraw).
      exists el. split; [now right | exact Hraw].
Qed.

(** An end tag that stands in the text, without an opening bracket
    inside, is among its end tags. *)
Lemma endTagsFrom_finds (T bt after : string) :
  tagText T bt -> Str.hasChar "<" bt = false -> isEndTag bt = true ->
  forall fuel before pr,
    String.length (before ++ T ++ after) < fuel ->
    unclosed before = false ->
    In T (endTagsFrom fuel pr (before ++ T ++ after)).
Proof.
  intros HT Hin Hend.
  induction fuel as [|fuel IH]; intros before pr Hlen Hb; [lia|].
  cbn [endTagsFrom].
  destruct (@exec_finds T bt before after pr HT Hin Hb) as (m & E & Hcase).
  rewrite E.
  pose proof (exec_progress _ _ _ E) as Hp.
  change (minLen tagStringRegex) with 3 in Hp.
  apply exec_sound in E as (sk & pr' & s' & _ & E).
  destruct (whole_tagText _ _ E) as (t & body & Hg & Hne & _ & HW & Hbody).
  rewrite Hg. destruct Hcase as [[EW Hrest]|(y & Hrest & Hy)].
  - rewrite EW in HW. rewrite (tagText_body HW HT) in Hbody.
    rewrite (isEndTag_body Hne Hbody), Hend. left. exact EW.
  - assert (Hlater : In T (endTagsFrom fuel (endPrev m) (endRest m))).
    { rewrite Hrest. apply IH; [rewrite <- Hrest; lia | exact Hy]. }
    destruct (isEndTag t); [now right | exact Hlater].
Qed.

Lemma drop_tag (T body : string) :
  tagText T body -> Str.hasChar "<" (Str.drop 1 T) = false ->
  Str.hasChar "<" body = false.
Proof.
  intros (-> & _ & _). simpl. rewrite StrFacts.hasChar_app.
  intros H. now apply orb_false_iff in H as [H _].
Qed.

(** A tag of an element of one text that stands in another text, and
    has no opening bracket inside, makes the same element there. *)
Lemma stands_is_element (s t : string) (el : Element) :
  fromOpeningTag s el ->
  Str.hasChar "<" (Str.drop 1 (elementRaw el)) = false ->
  keptAsWritten (elementRaw el) t ->
  exists els, parseElements t = Returns els /\ In el els.
Proof.
  intros Ho Hin (before & after & Ht & Hb).
  destruct (parseElements_total t) as [els Hels]. exists els.
  split; [exact Hels|].
  destruct (element_tag Ho) as (body & HT & Hend & _).
  pose proof (drop_tag HT Hin) as Hin'.
  unfold parseElements in Hels. rewrite Ht in Hels.
  destruct (@parseTags_finds (elementRaw el) body after HT Hin' Hend
              _ before None els (Nat.lt_succ_diag_r _) Hb Hels)
    as (el' & Hel' & Hraw).
  rewrite <- Ht in Hels.
  pose proof (parseTags_origin _ _ _ Hels el' Hel') as Ho'.
  now rewrite <- (same_raw_same_element Ho' Ho Hraw).
Qed.

(** An end tag of one text that stands in another text, and has no
    opening bracket inside, is an end tag there. *)
Lemma stands_is_end_tag (t T body : string) :
  tagText T ("/" ++ body) ->
  Str.hasChar "<" (Str.drop 1 T) = false ->
  keptAsWritten T t ->
  In T (endTags t).
Proof.
  intros HT Hin (before & after & Ht & Hb).
  pose proof (drop_tag HT Hin) as Hin'.
  unfold endTags. rewrite Ht.
  apply (@endTagsFrom_finds T ("/" ++ body) after HT Hin' eq_refl);
    [apply Nat.lt_succ_diag_r | exact Hb].
Qed.

End FindFacts.

(** ** Shared steps of the claims on the output *)

Module ClaimFacts.

Import Regex RegexFacts BracketFacts ProtectFacts StandFacts ParseFacts TagFacts
       LeastFacts OutputFacts FindFacts.

(** A character that is not in the raw text of an element is in none
    of its attribute texts. *)
Lemma element_chars (c : ascii) (s : string) (el : Element) :
  fromOpeningTag s el ->
  Str.hasChar c " " = false ->
  Str.hasChar c (elementRaw el) = false ->
  Str.hasChar c (joinRaw (attributes el)) = false.
Proof.
  intros (pre & pr' & s' & m & tagStr & _ & Hm & Hg & _ & Hel) Hsp Hc.
  rewrite (parseElement_raw _ _ Hel) in Hc.
  destruct (TokenFacts.tag_match_shape _ _ Hm)
    as (t & tail & Hg' & _ & _ & _ & Hw & _).
  rewrite Hg in Hg'. injection Hg' as <-.
  rewrite Hw in Hc. apply StrFacts.hasChar_part in Hc.
  unfold parseElement in Hel.
  apply bind_returns in Hel as (l & Hl & [= <-]). cbn [attributes].
  apply joinRaw_chars; [exact Hsp|]. intros a Ha.
  destruct (parseAttributes_raw _ _ _ Hl a Ha) as (p1 & p2 & Hr).
  eapply StrFacts.hasChar_part. rewrite <- Hr.
  now apply StrFacts.hasChar_trim, StrFacts.hasChar_drop.
Qed.

(** With rules that cannot fault [filterAttributes] returns, and so
    does [filterHtmlAttrs]. *)
Lemma filterAttributes_total (element : Element) (attrs : Props) :
  faultFreeRules attrs ->
  exists filtered, filterAttributes element attrs = Returns filtered.
Proof.
  intros H. unfold filterAttributes.
  destruct (filterM_returns
              (keepAttribute (nodeName element) (attributes element) attrs)
              (attributes element)) as (l' & -> & _).
  - intros attr _. now apply keepAttribute_returns.
  - simpl. eauto.
Qed.

Lemma filterHtmlAttrs_total (htmlString : string) (attrs : Props) :
  faultFreeRules attrs ->
  exists t, filterHtmlAttrs htmlString (Some attrs) = Returns t.
Proof.
  intros H. unfold filterHtmlAttrs.
  destruct (parseElements_total htmlString) as [els ->]. simpl.
  apply spliceAll_returns. intros el. now apply filterAttributes_total.
Qed.

(** For an unrecognized type [matches] falls through. *)
Lemma matches_unrecognized (nodeName : string) (attributes : list Attribute)
      (value : string) (matcher : JSValue) :
  unrecognized matcher = true ->
  matches nodeName attributes value matcher = Returns JSUndefined.
Proof. destruct matcher; simpl; intros E; try discriminate E; reflexivity. Qed.

(** A falsy matcher, or one of an unrecognized type, keeps the
    attribute. *)
Lemma keepAttribute_permissive (nodeName : string) (attributes : list Attribute)
      (attrs : Props) (attr : Attribute) :
  falsyOrUnrecognized attrs attr ->
  keepAttribute nodeName attributes attrs attr = Returns true.
Proof.
  intros H. unfold keepAttribute.
  destruct (truthy (getProperty attrs (ruleKey (name attr)))) eqn:T; simpl;
    [|reflexivity].
  destruct H as [H|H]; [congruence|]. now rewrite (matches_unrecognized _ _ _ _ H).
Qed.

(** The empty object as a matcher drops the attribute. *)
Lemma keepAttribute_empty_object (nodeName : string) (attributes : list Attribute)
      (attrs : Props) (attr : Attribute) :
  getProperty attrs (ruleKey (name attr)) = JSObject [] ->
  keepAttribute nodeName attributes attrs attr = Returns false.
Proof. intros H. unfold keepAttribute. rewrite H. reflexivity. Qed.

(** An attribute for which the callback returns false is not in the
    filtered list. *)
Lemma filterAttributes_dropped (element filtered : Element) (attrs : Props)
      (attr : Attribute) :
  keepAttribute (nodeName element) (attributes element) attrs attr
  = Returns false ->
  filterAttributes element attrs = Returns filtered ->
  ~ In attr (attributes filtered).
Proof.
  intros Hk Hf Hin. unfold filterAttributes in Hf.
  apply bind_returns in Hf as (l' & Hl' & [= <-]). cbn [attributes] in Hin.
  rewrite (filterM_filter _ _ Hl') in Hin.
  apply filter_In in Hin as [_ Hin]. rewrite Hk in Hin. discriminate Hin.
Qed.

(** The empty object and [true] as the matcher of one rule give the
    same callback. *)
Lemma keepAttribute_empty_object_or_true
      (nodeName : string) (attributes : list Attribute)
      (key : string) (attrs : Props) (attr : Attribute) :
  keepAttribute nodeName attributes ((key, JSObject []) :: attrs) attr
  = keepAttribute nodeName attributes ((key, JSBool true) :: attrs) attr.
Proof.
  unfold keepAttribute, getProperty, getOwnProperty. cbn [withOwn].
  now destruct (String.eqb key (ruleKey (name attr))).
Qed.

Lemma filterAttributes_ext (element : Element) (attrs attrs' : Props) :
  (forall attr,
      keepAttribute (nodeName element) (attributes element) attrs attr
      = keepAttribute (nodeName element) (attributes element) attrs' attr) ->
  filterAttributes element attrs = filterAttributes element attrs'.
Proof.
  intros H. unfold filterAttributes.
  now rewrite (filterM_ext _ _ (attributes element) (fun x _ => H x)).
Qed.

(** A matcher that names one attribute, on an element without that
    attribute: the callback of [forEach] returns early, and the flag
    stays true. *)
Lemma matches_missing_attribute (nodeName : string) (attributes : list Attribute)
      (value attrName : string) (nested : JSValue) :
  findAttribute attributes attrName = None ->
  matches nodeName attributes value
          (JSObject [("attributes", JSObject [(attrName, nested)])])
  = Returns (JSBool true).
Proof.
  intros H. cbn [matches withOwn String.eqb Ascii.eqb Bool.eqb truthy].
  cbn [forEachKey fst]. rewrite H. reflexivity.
Qed.

(** The tag of an element stays in the output when its filtered
    element has its raw text, and this text has no [$] and no opening
    bracket inside. *)
Lemma element_stays (s : string) (attrs : Props) (el : Element) (t : string) :
  fromOpeningTag s el ->
  keptAsWritten (elementRaw el) s ->
  (forall f, filterAttributes el attrs = Returns f -> elementRaw f = elementRaw el) ->
  Str.hasChar "$" (elementRaw el) = false ->
  Str.hasChar "<" (Str.drop 1 (elementRaw el)) = false ->
  filterHtmlAttrs s (Some attrs) = Returns t ->
  exists els, parseElements t = Returns els /\ In el els.
Proof.
  intros Ho Hk Hraw Hd Hnb Ht.
  apply (stands_is_element Ho Hnb).
  destruct (element_tag Ho) as (body & HT & _ & _).
  apply (@filterHtmlAttrs_protect s (elementRaw el) body attrs t HT
           (drop_tag HT Hnb) Hk); [|exact Ht].
  intros e f Ho' Eq Hf acc.
  rewrite (same_raw_same_element Ho' Ho Eq) in Hf.
  rewrite (Hraw f Hf). now apply StrFacts.replace_self.
Qed.

End ClaimFacts.

Import OutputFacts FindFacts ClaimFacts.

(** * The second pass, closing tags, ignored rules, separators *)

(** [<a a>] filtered with [{a: true}] gives [< a>], the text of the
    attribute being found first in the tag name; filtered once more,
    [< a>] gives [< >]. *)
Example tag_name_is_rewritten :
  filterHtmlAttrs "<a a>" (Some Samples.aTrue) = Returns "< a>"
  /\ filterTwice "<a a>" (Some Samples.aTrue) = Returns "< >".
Proof. split; vm_compute; reflexivity. Qed.

(** C6: filtering twice with the same rule set is not filtering once,
    in the code: [<i a="1" b>t</i>] filtered with
    [{a: true, b: {attributes: {a: '2'}}}] gives [<i b>t</i>], and
    this, filtered again, gives [<i >t</i>].  In the first pass the
    matcher of [b] finds [a="1"], which is not ['2'], and [b] is kept;
    in the second pass [a] is gone, the callback of [forEach] returns
    early, the flag stays true and [b] is dropped.  So it is for
    every matcher that names one attribute which the element does not
    have: [matches] returns true. *)
Theorem C6_second_pass_drops_what_the_first_kept :
  filterHtmlAttrs Samples.italicAB (Some Samples.dropAThenB)
  = Returns "<i b>t</i>"
  /\ filterHtmlAttrs "<i b>t</i>" (Some Samples.dropAThenB)
     = Returns "<i >t</i>"
  /\ filterTwice Samples.italicAB (Some Samples.dropAThenB)
     <> filterHtmlAttrs Samples.italicAB (Some Samples.dropAThenB)
  /\ matches "i" [Samples.attrA1; Samples.bareB] EmptyString
             Samples.attributeAIsTwo = Returns (JSBool false)
  /\ matches "i" [Samples.bareB] EmptyString Samples.attributeAIsTwo
     = Returns (JSBool true)
  /\ forall nodeName attributes value attrName nested,
       findAttribute attributes attrName = None ->
       matches nodeName attributes value
               (JSObject [("attributes", JSObject [(attrName, nested)])])
       = Returns (JSBool true).
Proof.
  split; [vm_compute; reflexivity|].
  split; [vm_compute; reflexivity|].
  split; [vm_compute; discriminate|].
  split; [vm_compute; reflexivity|].
  split; [vm_compute; reflexivity|].
  intros. now apply matches_missing_attribute.
Qed.

Lemma C6_witness :
  findAttribute [Samples.bareB] "a" = None
  /\ matches "i" [Samples.bareB] EmptyString
             (JSObject [("attributes", JSObject [("a", JSNull)])])
     = Returns (JSBool true).
Proof.
  split; [reflexivity|].
  destruct C6_second_pass_drops_what_the_first_kept as (_ & _ & _ & _ & _ & H).
  apply H. reflexivity.
Defined.

(** C7, as stated, fails: in [</<b x><b x>] the first bracketed match
    is [</<b x>], an end tag, and the element is made of [<b x>]; with
    [{x: true}] the text [<b x>] is replaced where it first occurs,
    inside the end tag, which is not in the output any more. *)
Lemma C7_counterexample :
  endTags "</<b x><b x>" = ["</<b x>"]
  /\ filterHtmlAttrs "</<b x><b x>" (Some Samples.xTrue) = Returns "</<b ><b x>"
  /\ Str.includesStr "</<b x>" "</<b ><b x>" = false
  /\ endTags "</<b ><b x>" = ["</<b >"].
Proof. repeat split; vm_compute; reflexivity. Qed.

(** C7, amended: [parseElements] returns for every input and never
    produces an Element for a closing tag: every element is made of a
    bracketed match whose inner content does not start with a slash, and
    its raw text does not start with [</].  And [filterHtmlAttrs]
    leaves every closing tag of the input that has no opening bracket
    inside it unchanged in the output: it is a closing tag of every
    text that [filterHtmlAttrs] returns, and [filterHtmlAttrs] returns
    when no matcher of the rule set can fault.  So the [</div>] of
    [filterHtmlAttrs('<div data-x="y">t</div>', {'data-x': true})] is in
    the output as it is written in the input. *)
Theorem C7_closing_tags_without_bracket_inside_stay :
  (forall htmlString,
      exists elements,
        parseElements htmlString = Returns elements
        /\ forall element,
             In element elements ->
             fromOpeningTag htmlString element
             /\ Str.startsWith "</" (elementRaw element) = false)
  /\ (forall htmlString filterAttrs endTag,
        In endTag (endTags htmlString) ->
        Str.hasChar "<" (Str.drop 1 endTag) = false ->
        (forall t, filterHtmlAttrs htmlString filterAttrs = Returns t ->
                   In endTag (endTags t))
        /\ ((forall attrs, filterAttrs = Some attrs -> faultFreeRules attrs) ->
            exists t, filterHtmlAttrs htmlString filterAttrs = Returns t))
  /\ endTags Samples.divDataX = ["</div>"]
  /\ filterHtmlAttrs Samples.divDataX (Some Samples.dataXTrue)
     = Returns "<div >t</div>"
  /\ endTags "<div >t</div>" = ["</div>"].
Proof.
  split; [|split; [|repeat split; vm_compute; reflexivity]].
  - intros htmlString.
    destruct (parseElements_total htmlString) as [els Hels].
    exists els. split; [exact Hels|].
    intros el Hin.
    pose proof (parseTags_origin _ _ _ Hels el Hin) as Ho.
    split; [exact Ho|]. exact (fromOpeningTag_not_end Ho).
  - intros s r E Hin Hnb.
    destruct (endTags_stand s E Hin) as (Hk & [body Hb] & Hno).
    split.
    + intros t Ht. destruct r as [attrs|]; [|now injection Ht as <-].
      apply (stands_is_end_tag Hb Hnb).
      apply (@filterHtmlAttrs_protect s E ("/" ++ body) attrs t Hb
               (drop_tag Hb Hnb) Hk); [|exact Ht].
      intros e f Ho Eq. destruct (Hno s e Ho Eq).
    + intros Hff. destruct r as [attrs|]; [|now exists s].
      apply filterHtmlAttrs_total. now apply Hff.
Qed.

Lemma C7_witness :
  In "</div>" (endTags Samples.divDataX)
  /\ Str.hasChar "<" (Str.drop 1 "</div>") = false
  /\ In "</div>" (endTags "<div >t</div>")
  /\ exists t, filterHtmlAttrs Samples.divDataX (Some Samples.dataXTrue) = Returns t.
Proof.
  assert (Hin : In "</div>" (endTags Samples.divDataX))
    by (vm_compute; now left).
  assert (Hnb : Str.hasChar "<" (Str.drop 1 "</div>") = false) by reflexivity.
  destruct C7_closing_tags_without_bracket_inside_stay as (_ & H & _).
  destruct (H Samples.divDataX (Some Samples.dataXTrue) "</div>" Hin Hnb)
    as [Hkeep Hret].
  split; [exact Hin|]. split; [exact Hnb|]. split.
  - apply Hkeep. vm_compute. reflexivity.
  - apply Hret. intros attrs [= <-] k v [[= <- <-]|[]]. right. reflexivity.
Defined.

(** C8: for every attribute whose governing matcher value is falsy
    (undefined, false, null, 0, NaN or the empty string) or of an
    unrecognized non-object type (a number, a function), the filter
    callback returns true without a fault ([matches] is not called for
    the falsy ones, and for the unrecognized types it falls through and
    returns undefined), so the attribute stays, the same record, in the
    filtered list.  An element all of whose attributes are governed so
    comes back from [filterAttributes] as it is when its text has no
    [$], its tag is a tag of the output with all its attributes when
    there is no opening bracket inside it, and an input without [$] all
    of whose attributes are governed so is returned as it is.  But
    with a [$] the text of the kept attribute is not unchanged:
    [<a title="$$">x</a>] filtered with [{title: 0}] or with
    [{title: 5}] becomes [<a title="$">x</a>]. *)
Theorem C8_ignored_matcher_keeps_the_attribute_but_not_its_dollars :
  (forall element attrs attr,
      falsyOrUnrecognized attrs attr ->
      keepAttribute (nodeName element) (attributes element) attrs attr
      = Returns true
      /\ (unrecognized (getProperty attrs (ruleKey (name attr))) = true ->
          matches (nodeName element) (attributes element) (value attr)
                  (getProperty attrs (ruleKey (name attr))) = Returns JSUndefined)
      /\ forall filtered,
           filterAttributes element attrs = Returns filtered ->
           In attr (attributes element) -> In attr (attributes filtered))
  /\ (forall htmlString attrs elements element,
        parseElements htmlString = Returns elements ->
        In element elements ->
        (forall attr, In attr (attributes element) ->
                      falsyOrUnrecognized attrs attr) ->
        Str.hasChar "$" (elementRaw element) = false ->
        filterAttributes element attrs = Returns element
        /\ (Str.hasChar "<" (Str.drop 1 (elementRaw element)) = false ->
            forall t,
              filterHtmlAttrs htmlString (Some attrs) = Returns t ->
              exists elements',
                parseElements t = Returns elements' /\ In element elements'))
  /\ (forall htmlString attrs,
        (forall elements element attr,
            parseElements htmlString = Returns elements ->
            In element elements -> In attr (attributes element) ->
            falsyOrUnrecognized attrs attr) ->
        Str.hasChar "$" htmlString = false ->
        filterHtmlAttrs htmlString (Some attrs) = Returns htmlString)
  /\ filterHtmlAttrs Samples.titleDollars (Some Samples.titleZero)
     = Returns Samples.titleDollar
  /\ filterHtmlAttrs Samples.titleDollars (Some Samples.titleFive)
     = Returns Samples.titleDollar
  /\ Samples.titleDollar <> Samples.titleDollars.
Proof.
  split; [|split; [|split; [|repeat split; vm_compute;
                              (reflexivity || discriminate)]]].
  - intros element attrs attr H.
    pose proof (keepAttribute_permissive (nodeName element) (attributes element) H)
      as K.
    split; [exact K|]. split; [apply matches_unrecognized|].
    intros filtered Hf Hin. unfold filterAttributes in Hf.
    apply bind_returns in Hf as (l' & Hl' & [= <-]). simpl.
    exact (filterM_in _ _ Hl' attr Hin K).
  - intros s attrs els el Hels Hin Hall Hd.
    pose proof (parseTags_origin _ _ _ Hels el Hin) as Ho.
    assert (Hf : filterAttributes el attrs = Returns el).
    { apply filterAttributes_all_kept.
      - intros attr Ha. apply keepAttribute_permissive. now apply Hall.
      - exact (@element_chars "$" s el Ho eq_refl Hd). }
    split; [exact Hf|].
    intros Hnb t Ht.
    apply (@element_stays s attrs el t Ho (@elements_stand s els el Hels Hin)); auto.
    intros f Hf'. rewrite Hf in Hf'. now injection Hf' as <-.
  - intros s attrs Hall Hd. apply filterHtmlAttrs_fixed; [exact Hd|].
    intros els el attr Hels Hin Ha. apply keepAttribute_permissive.
    exact (Hall els el attr Hels Hin Ha).
Qed.

Lemma C8_witness :
  falsyOrUnrecognized Samples.dataXNumber Samples.dataX
  /\ keepAttribute "div" [Samples.dataX] Samples.dataXNumber Samples.dataX
     = Returns true
  /\ filterAttributes Samples.divElement Samples.dataXNumber
     = Returns Samples.divElement
  /\ (exists elements',
        parseElements Samples.divDataX = Returns elements'
        /\ In Samples.divElement elements')
  /\ filterHtmlAttrs Samples.divDataX (Some Samples.dataXNumber)
     = Returns Samples.divDataX.
Proof.
  assert (Hn : falsyOrUnrecognized Samples.dataXNumber Samples.dataX)
    by (right; vm_compute; reflexivity).
  assert (Hall : forall attr, In attr (attributes Samples.divElement) ->
                              falsyOrUnrecognized Samples.dataXNumber attr)
    by (intros attr [<-|[]]; exact Hn).
  assert (Hels : parseElements Samples.divDataX = Returns [Samples.divElement])
    by (vm_compute; reflexivity).
  destruct C8_ignored_matcher_keeps_the_attribute_but_not_its_dollars
    as (H1 & H2 & H3 & _).
  destruct (H1 Samples.divElement Samples.dataXNumber Samples.dataX Hn)
    as (K & _ & _).
  destruct (H2 Samples.divDataX Samples.dataXNumber [Samples.divElement]
               Samples.divElement Hels (or_introl eq_refl) Hall eq_refl)
    as [Hf Hout].
  assert (Hfix : filterHtmlAttrs Samples.divDataX (Some Samples.dataXNumber)
                 = Returns Samples.divDataX).
  { apply H3; [|reflexivity].
    intros els el attr Hels' Hin Ha. rewrite Hels in Hels'.
    injection Hels' as <-. destruct Hin as [<-|[]]. now apply Hall. }
  split; [exact Hn|]. split; [exact K|]. split; [exact Hf|].
  split; [|exact Hfix].
  exact (Hout eq_refl Samples.divDataX Hfix).
Defined.

(** C9, as stated, fails: in [<a a  a>] the two attributes are
    separated by two spaces, yet their raw texts joined by one space,
    [a a], occur in the raw text of the tag (the tag name and the first
    attribute), and with [{a: true}] the replacement is not a no-op: the
    tag becomes [<  a>]. *)
Lemma C9_counterexample :
  parseElements "<a a  a>" = Returns [Samples.twoSpaces]
  /\ elementRaw Samples.twoSpaces
     = "<a " ++ raw Samples.bareA ++ "  " ++ raw Samples.bareA ++ ">"
  /\ Str.includesStr (joinRaw (attributes Samples.twoSpaces))
                     (elementRaw Samples.twoSpaces) = true
  /\ filterHtmlAttrs "<a a  a>" (Some Samples.aTrue) = Returns "<  a>"
  /\ filterHtmlAttrs "<a a  a>" (Some Samples.aTrue) <> Returns "<a a  a>".
Proof. repeat split; vm_compute; (reflexivity || discriminate). Qed.

(** Two spaces, a tab or a line feed between the attributes: the
    attribute is dropped from the list and stays in the text. *)
Example separators_keep_the_text :
  filterHtmlAttrs Samples.divTwoSpaces (Some Samples.aTrue)
  = Returns Samples.divTwoSpaces
  /\ filterHtmlAttrs Samples.divTab (Some Samples.aTrue)
     = Returns Samples.divTab
  /\ filterHtmlAttrs Samples.divLineFeed (Some Samples.aTrue)
     = Returns Samples.divLineFeed.
Proof. repeat split; vm_compute; reflexivity. Qed.

(** In the three of them the attribute texts joined by one space do
    not occur in the tag. *)
Example separators_joined_text_is_absent :
  forall tag,
    In tag [Samples.divTwoSpaces; Samples.divTab; Samples.divLineFeed] ->
    parseElements tag
    = Returns [mkElement "div" [Samples.attrA1; Samples.attrB2] tag]
    /\ Str.includesStr (joinRaw [Samples.attrA1; Samples.attrB2]) tag = false.
Proof.
  intros tag [<-|[<-|[<-|[]]]]; split; vm_compute; reflexivity.
Qed.

(** An opening bracket inside a tag: in [<a <b  x><b  x>] the first
    tag has its attributes [b] and [x] two spaces apart, and
    [filterAttributes] leaves its text alone; but the text of the second
    tag, [<b  x>], occurs first inside the first tag, and with
    [{x: true}] it is there that [x] is removed. *)
Example bracket_inside_a_tag :
  parseElements "<a <b  x><b  x>"
  = Returns [mkElement "a" [Samples.bareB; Samples.bareX] "<a <b  x>";
             mkElement "b" [Samples.bareX] "<b  x>"]
  /\ Str.includesStr (joinRaw [Samples.bareB; Samples.bareX]) "<a <b  x>" = false
  /\ filterAttributes (mkElement "a" [Samples.bareB; Samples.bareX] "<a <b  x>")
                      Samples.xTrue
     = Returns (mkElement "a" [Samples.bareB] "<a <b  x>")
  /\ filterHtmlAttrs "<a <b  x><b  x>" (Some Samples.xTrue)
     = Returns "<a <b  ><b  x>".
Proof. repeat split; vm_compute; reflexivity. Qed.

(** C9, amended: if the attribute raw substrings of a tag of the input
    joined by single spaces do not occur in the tag's raw text (as in
    [<div a="1"  b="2">], where two spaces separate the attributes; but
    not in [<a a  a>]), then the substring replacement in
    [filterAttributes] is a no-op: the filtered element has the raw text
    of the element, whatever attributes were dropped from its list.
    When moreover that text has no [$] and no opening bracket after its
    first character, the tag is a tag of every text that
    [filterHtmlAttrs] returns, with all its attributes: no attribute is
    removed from it, whatever its matcher evaluates to; and
    [filterHtmlAttrs] returns when no matcher of the rule set can
    fault. *)
Theorem C9_tag_whose_joined_text_is_absent_stays
        (htmlString : string) (attrs : Props)
        (elements : list Element) (element : Element) :
  parseElements htmlString = Returns elements ->
  In element elements ->
  Str.includesStr (joinRaw (attributes element)) (elementRaw element) = false ->
  (forall filtered,
      filterAttributes element attrs = Returns filtered ->
      elementRaw filtered = elementRaw element)
  /\ (Str.hasChar "$" (elementRaw element) = false ->
      Str.hasChar "<" (Str.drop 1 (elementRaw element)) = false ->
      (forall t,
          filterHtmlAttrs htmlString (Some attrs) = Returns t ->
          exists elements',
            parseElements t = Returns elements' /\ In element elements')
      /\ (faultFreeRules attrs ->
          exists t, filterHtmlAttrs htmlString (Some attrs) = Returns t)).
Proof.
  intros Hels Hin Habs.
  assert (Hraw : forall filtered,
             filterAttributes element attrs = Returns filtered ->
             elementRaw filtered = elementRaw element).
  { intros filtered Hf. unfold filterAttributes in Hf.
    apply bind_returns in Hf as (l' & _ & [= <-]). simpl.
    now rewrite (StrFacts.replace_absent _ _ _ Habs). }
  split; [exact Hraw|].
  intros Hd Hnb. split; [|apply filterHtmlAttrs_total].
  intros t Ht.
  exact (@element_stays htmlString attrs element t
           (parseTags_origin _ _ _ Hels element Hin)
           (@elements_stand htmlString elements element Hels Hin)
           Hraw Hd Hnb Ht).
Qed.

Lemma C9_witness :
  parseElements Samples.divTwoSpaces = Returns [Samples.divTwoSpacesElement]
  /\ Str.includesStr (joinRaw (attributes Samples.divTwoSpacesElement))
                     (elementRaw Samples.divTwoSpacesElement) = false
  /\ filterAttributes Samples.divTwoSpacesElement Samples.aTrue
     = Returns (mkElement "div" [Samples.attrB2] Samples.divTwoSpaces)
  /\ exists t elements',
       filterHtmlAttrs Samples.divTwoSpaces (Some Samples.aTrue) = Returns t
       /\ parseElements t = Returns elements'
       /\ In Samples.divTwoSpacesElement elements'.
Proof.
  assert (Hels : parseElements Samples.divTwoSpaces
                 = Returns [Samples.divTwoSpacesElement])
    by (vm_compute; reflexivity).
  assert (Habs : Str.includesStr (joinRaw (attributes Samples.divTwoSpacesElement))
                                 (elementRaw Samples.divTwoSpacesElement) = false)
    by (vm_compute; reflexivity).
  destruct (@C9_tag_whose_joined_text_is_absent_stays
              Samples.divTwoSpaces Samples.aTrue [Samples.divTwoSpacesElement]
              Samples.divTwoSpacesElement Hels (or_introl eq_refl) Habs)
    as [_ H].
  destruct (H eq_refl eq_refl) as [Hkeep Hret].
  destruct Hret as [t Ht].
  { intros k v [[= <- <-]|[]]. right. reflexivity. }
  destruct (Hkeep t Ht) as (els' & Hels' & Hin').
  split; [exact Hels|]. split; [exact Habs|].
  split; [vm_compute; reflexivity|].
  exists t, els'. auto.
Defined.

(** C10: for every nodeName, attribute list and value,
    [matches(nodeName, attributes, value, {})] with the empty
    structured matcher returns [true], so a rule whose matcher is the
    empty object drops its governed attribute unconditionally: the
    filter callback returns false for it, and it is not in the
    filtered list of [filterAttributes], whatever the element and the
    other rules are ([filterAttributes] returns when no matcher of the
    rule set can fault); and exactly like the boolean matcher [true]:
    with [{}] in the place of [true] in a rule set [filterHtmlAttrs]
    gives the same result on every input. *)
Theorem C10_empty_object_matcher_drops_like_true :
  (forall nodeName attributes value,
      matches nodeName attributes value (JSObject []) = Returns (JSBool true))
  /\ (forall element attrs attr,
        getProperty attrs (ruleKey (name attr)) = JSObject [] ->
        keepAttribute (nodeName element) (attributes element) attrs attr
        = Returns false
        /\ (forall filtered,
              filterAttributes element attrs = Returns filtered ->
              ~ In attr (attributes filtered))
        /\ (faultFreeRules attrs ->
            exists filtered, filterAttributes element attrs = Returns filtered))
  /\ (forall htmlString key attrs,
        filterHtmlAttrs htmlString (Some ((key, JSObject []) :: attrs))
        = filterHtmlAttrs htmlString (Some ((key, JSBool true) :: attrs)))
  /\ filterAttributes Samples.divElement Samples.dataXEmpty
     = Returns (mkElement "div" [] "<div >")
  /\ filterHtmlAttrs Samples.divDataX (Some Samples.dataXEmpty)
     = Returns "<div >t</div>".
Proof.
  split; [reflexivity|].
  split; [|split; [|split; vm_compute; reflexivity]].
  - intros element attrs attr Hm.
    pose proof (keepAttribute_empty_object (nodeName element)
                  (attributes element) attrs attr Hm) as K.
    split; [exact K|]. split; [|apply filterAttributes_total].
    intros filtered. now apply filterAttributes_dropped.
  - intros s key attrs. unfold filterHtmlAttrs.
    destruct (parseElements s) as [els| |]; simpl; try reflexivity.
    apply spliceAll_ext. intros el _. apply filterAttributes_ext.
    intros attr. apply keepAttribute_empty_object_or_true.
Qed.

Lemma C10_witness :
  getProperty Samples.dataXEmpty (ruleKey (name Samples.dataX)) = JSObject []
  /\ keepAttribute "div" [Samples.dataX] Samples.dataXEmpty Samples.dataX
     = Returns false
  /\ ~ In Samples.dataX (attributes (mkElement "div" [] "<div >"))
  /\ exists filtered,
       filterAttributes Samples.divElement Samples.dataXEmpty = Returns filtered.
Proof.
  assert (Hm : getProperty Samples.dataXEmpty (ruleKey (name Samples.dataX))
               = JSObject []) by (vm_compute; reflexivity).
  destruct C10_empty_object_matcher_drops_like_true as (_ & H & _).
  destruct (H Samples.divElement Samples.dataXEmpty Samples.dataX Hm)
    as (K & Hdrop & Hret).
  split; [exact Hm|]. split; [exact K|]. split.
  - apply Hdrop. vm_compute. reflexivity.
  - apply Hret. intros k v [[= <- <-]|[]]. right. reflexivity.
Defined.
